(** * photoz: photo backup deduplication

    A shallow embedding of the Go sources of [osintami/photoz] and the
    properties of its classification, naming and deduplication store.

    The sources and where they are embedded:
    - [common/filesystem.go] (the second part of
      [src/common/imagefileinfo.go]): [IgnoreByName], [IgnoreByExtension],
      [IsImage], [CalculateMD5];
    - [common/imagefileinfo.go] (the first part of that file): the record
      [ImageFileInfo], the checks [IsJPEG], [IsNEF], [IsHEIC], and module
      [ImageFileInfoA] with [GetJpegCreatedAt] and [SetFileName];
    - [src/unnamed/part_000], a later revision of [imagefileinfo.go]:
      module [ImageFileInfoB];
    - [common/fastcache.go]: [FastCache_Get], [FastCache_Set],
      [NewPersistentCache], [FastCache_Persist], over a model of the
      [go-cache] library;
    - [src/main.go], the entry point with flag [-path], and the entry
      point with flag [-in] kept after [fastcache.go]: the callback
      [walkFn] of the directory walk, with the branch [MainPath_original]
      or [MainIn_original] for a file seen for the first time.

    The libraries the program calls ([crypto/md5], [go-exif],
    [encoding/json], [encoding/gob]) are classes of their operations;
    module [Sample] gives instances to compute with. *)

From Stdlib Require Import ZArith Ascii String List Bool Lia Permutation.
From Stdlib Require Import Strings.Byte.
From Stdlib Require Import Numbers.DecimalString Numbers.DecimalZ.
From stdpp Require Import base option gmap strings list fin_maps.

Import ListNotations.
Local Open Scope string_scope.
Local Open Scope list_scope.

(** ** Go values used across the packages *)

(** The [error] values the program distinguishes: the two sentinel errors
    of package [io] that [IsImage] compares against, the not-exist error
    that [os.IsNotExist] recognises, and every other error with its text. *)
Inductive error : Type :=
| io_EOF
| io_ErrUnexpectedEOF
| fs_ErrNotExist
| Err (msg : string).

#[global] Instance error_eq_dec : EqDecision error.
Proof. solve_decision. Defined.

Definition os_IsNotExist (err : error) : bool :=
  match err with fs_ErrNotExist => true | _ => false end.

(** A file as the program can observe it: [os.Open] fails with [open_err],
    or the reads deliver [data] and then end, cleanly or with [fault];
    [os.Create] on its path fails with [create_err] or truncates it. *)
Record File : Type := mkFile {
  open_err : option error;
  data : list byte;
  fault : option error;
  create_err : option error   (* the outcome of [os.Create] on this path *)
}.

Definition regular (content : list byte) : File :=
  {| open_err := None; data := content; fault := None; create_err := None |}.

Definition missing : File :=
  {| open_err := Some fs_ErrNotExist; data := []; fault := None;
     create_err := None |}.

Definition FS : Type := string -> File.

(** The error that ends a read of the whole file, if any: [io.EOF] is the
    regular end and no error to [io.Copy] or a decoder. *)
Definition read_fault (file : File) : option error :=
  match fault file with
  | Some io_EOF => None
  | other => other
  end.

(** ** Library functions on strings and byte slices *)

Definition bytes (s : string) : list byte := list_byte_of_string s.

(** [bytes.HasPrefix(s, prefix)]. *)
Fixpoint bytes_HasPrefix (s prefix : list byte) {struct prefix} : bool :=
  match prefix, s with
  | [], _ => true
  | _ :: _, [] => false
  | p :: prefix', c :: s' => Byte.eqb c p && bytes_HasPrefix s' prefix'
  end.

(** [strings.HasPrefix(s, prefix)]. *)
Definition strings_HasPrefix (s prefix : string) : bool := String.prefix prefix s.

Definition IsPathSeparator (c : ascii) : bool := Ascii.eqb c "/".

(** [filepath.Ext]: the suffix beginning at the final dot of the final
    element of the path, empty if there is no dot. The source scans from
    the end; scanning from the front, a separator resets the result and a
    dot restarts it. *)
Fixpoint Ext_from (path : string) (acc : string) : string :=
  match path with
  | EmptyString => acc
  | String c rest =>
      if IsPathSeparator c then Ext_from rest ""
      else if Ascii.eqb c "." then Ext_from rest path
      else Ext_from rest acc
  end.

Definition filepath_Ext (path : string) : string := Ext_from path "".

(** [filepath.Base] on a Unix path. *)
Fixpoint strip_trailing_slashes (path : string) : string :=
  match path with
  | EmptyString => EmptyString
  | String c rest =>
      match strip_trailing_slashes rest with
      | EmptyString => if IsPathSeparator c then EmptyString else String c EmptyString
      | rest' => String c rest'
      end
  end.

Fixpoint last_element (path : string) (acc : string) : string :=
  match path with
  | EmptyString => acc
  | String c rest =>
      if IsPathSeparator c then last_element rest rest
      else last_element rest acc
  end.

Definition filepath_Base (path : string) : string :=
  if String.eqb path "" then "."
  else
    let path := strip_trailing_slashes path in
    let path := last_element path path in
    if String.eqb path "" then "/" else path.

Example Ext_examples :
  filepath_Ext "a/b.c/photo.tar.NEF" = ".NEF" /\
  filepath_Ext "a/b.c/photo" = "" /\
  filepath_Ext "photo." = "." /\
  filepath_Ext ".hidden" = ".hidden".
Proof. repeat split. Qed.

Example Base_examples :
  filepath_Base "a/b/photo.jpg" = "photo.jpg" /\
  filepath_Base "photo.jpg" = "photo.jpg" /\
  filepath_Base "a/b//" = "b" /\
  filepath_Base "///" = "/" /\
  filepath_Base "" = ".".
Proof. repeat split. Qed.

(** [strings.EqualFold(s, t)] for an ASCII pattern [t], which is what every
    call site passes. Two ASCII bytes match when they are equal up to
    letter case. A non-ASCII rune of [s] matches an ASCII letter only
    through Unicode simple folding, whose orbits reach ASCII in two places:
    U+017F (bytes C5 BF) folds to [s], and U+212A (bytes E2 84 AA) folds to
    [k]. *)
Definition is_ascii (c : ascii) : bool := (N_of_ascii c <? 128)%N.

Definition to_lower (c : ascii) : ascii :=
  let n := N_of_ascii c in
  if ((65 <=? n) && (n <=? 90))%N then ascii_of_N (n + 32) else c.

Definition ascii_fold_eq (sr tr : ascii) : bool :=
  is_ascii sr && is_ascii tr && Ascii.eqb (to_lower sr) (to_lower tr).

Definition long_s : string := String "197" (String "191" "").
Definition kelvin : string := String "226" (String "132" (String "170" "")).

Fixpoint drop_string (n : nat) (s : string) : string :=
  match n, s with
  | S n', String _ s' => drop_string n' s'
  | _, _ => s
  end.

Fixpoint strings_EqualFold (s t : string) : bool :=
  match t with
  | EmptyString => String.eqb s ""
  | String tr t' =>
      match s with
      | EmptyString => false
      | String sr s' =>
          if ascii_fold_eq sr tr then strings_EqualFold s' t'
          else if Ascii.eqb (to_lower tr) "s" && String.prefix long_s s
          then strings_EqualFold (drop_string 2 s) t'
          else if Ascii.eqb (to_lower tr) "k" && String.prefix kelvin s
          then strings_EqualFold (drop_string 3 s) t'
          else false
      end
  end.

Example EqualFold_examples :
  strings_EqualFold ".nef" ".NEF" = true /\
  strings_EqualFold ".NeF" ".NEF" = true /\
  strings_EqualFold ".NEFX" ".NEF" = false /\
  strings_EqualFold ".NE" ".NEF" = false /\
  strings_EqualFold "" ".NEF" = false /\
  strings_EqualFold ".HEIC" ".heic" = true /\
  strings_EqualFold (".cla" ++ long_s ++ "S") ".class" = true /\
  strings_EqualFold (".ba" ++ kelvin) ".bak" = true.
Proof. repeat split. Qed.

(** ** Iterating over a Go map

    [for k, v := range m] visits the entries of a map in an order the
    language leaves unspecified and the runtime randomises. A [Range] over
    a table is one such order: any permutation of the entries. *)
Record Range {K V : Type} (table : list (K * V)) : Type := mkRange {
  entries :> list (K * V);
  entries_perm : Permutation table entries
}.
Arguments entries {K V table} _.
Arguments entries_perm {K V table} _.
Arguments mkRange {K V table} _ _.

(** The order in which the source lists the entries. *)
Definition listed {K V : Type} (table : list (K * V)) : Range table :=
  mkRange table (Permutation_refl table).

(** The opposite order. *)
Definition reversed {K V : Type} (table : list (K * V)) : Range table :=
  mkRange (rev table) (Permutation_rev table).

(** ** common/filesystem.go *)

Definition skipExtensions : list (string * string) :=
  [ (".html", "html"); (".htm", "htm"); (".doc", "doc"); (".db", "db");
    (".jbf", "jbf"); (".dot", "dot"); (".txt", "txt"); (".class", "class");
    (".pdd", "pdd"); (".xls", "xls"); (".eml", "eml"); (".wab", "wab");
    (".ptn", "ptn"); (".dmf", "dmf"); (".log", "log");
    (".ds_store", "ds_store"); (".ps", "ps"); (".mp3", "mp3");
    (".svn-base", "svn"); (".gz", "gzip"); (".java", "java"); (".xml", "xml");
    (".jar", "jar"); (".test", "test"); (".css", "css"); (".exe", "exe");
    (".deb", "deb"); (".zip", "zip"); (".lisj", "lisj"); (".lij", "lij");
    (".plist", "plist"); (".bak", "bak"); (".wav", "wav"); (".xmp", "xmp");
    (".rtf", "rtf"); (".json", "json");
    ("mjpg", "mjpg") ].

Definition imageSignatures : list (list byte * string) :=
  [ (bytes "ftypisom", "video/mp4");
    (bytes "ftypMSNV", "video/mp4");
    ([xff; xd8; xff], "image/jpeg");
    (bytes "GIF87a", "image/gif");
    (bytes "GIF89a", "image/gif");
    (bytes "BM", "image/bmp");
    (bytes "II*" ++ [x00], "image/tiff");
    (bytes "MM" ++ [x00] ++ bytes "*", "image/tiff");
    (bytes "RIFF....WEBP", "image/webp");
    ([x52; x49; x46; x46], "video/x-msvideo");
    ([x7b; x5c; x72; x74; x66; x31], "application/rtf");
    ([x49; x44; x33], "audio/mpeg");
    ([x00; x00; x00; x28] ++ bytes "ftypheic", "image/heic");
    ([x89; x50; x4e; x47; x0d; x0a; x1a; x0a], "image/png") ].

Definition pngSignature : list byte := [x89; x50; x4e; x47; x0d; x0a; x1a; x0a].

Definition IgnoreByName (filePath : string) : bool * string :=
  let name := filepath_Base filePath in
  if strings_HasPrefix name "._" then (true, name) else (false, "").

Fixpoint IgnoreByExtension_loop (suffix : string) (es : list (string * string))
  : bool * string :=
  match es with
  | [] => (false, "")
  | (ext, name) :: es' =>
      if strings_EqualFold suffix ext then (true, name)
      else IgnoreByExtension_loop suffix es'
  end.

Definition IgnoreByExtension (r : Range skipExtensions) (filePath : string)
  : bool * string :=
  let suffix := filepath_Ext filePath in
  IgnoreByExtension_loop suffix r.

(** [io.ReadFull(file, buffer)] on a zeroed buffer of [n] bytes: the buffer
    afterwards and the error. Fewer than [n] bytes give the error that
    ended the reads, with [io.EOF] turned into [io.ErrUnexpectedEOF] once
    some byte was read. The bytes not written keep their zero value. *)
Definition io_ReadFull (file : File) (n : nat) : list byte * option error :=
  let got := firstn n (data file) in
  let buffer := got ++ repeat x00 (n - length got) in
  if (n <=? length got)%nat then (buffer, None)
  else
    let err := match fault file with Some e => e | None => io_EOF end in
    let err :=
      if (0 <? length got)%nat && bool_decide (err = io_EOF)
      then io_ErrUnexpectedEOF else err in
    (buffer, Some err).

Fixpoint IsImage_loop (buffer : list byte) (filePath : string)
  (es : list (list byte * string)) : bool * string * option error :=
  match es with
  | [] => (false, "", None)
  | (magic, mime) :: es' =>
      if bytes_HasPrefix buffer magic then
        let mime :=
          if String.eqb mime "image/png" then
            let suffix := filepath_Ext filePath in
            let isNEF := strings_EqualFold suffix ".NEF" in
            if isNEF then "image/nef" else mime
          else mime in
        (true, mime, None)
      else IsImage_loop buffer filePath es'
  end.

Definition IsImage (r : Range imageSignatures) (fs : FS) (filePath : string)
  : bool * string * option error :=
  let file := fs filePath in
  match open_err file with
  | Some err => (false, "", Some err)
  | None =>
      let '(buffer, err) := io_ReadFull file 32 in
      if negb (bool_decide (err = None))
         && negb (bool_decide (err = Some io_EOF))
         && negb (bool_decide (err = Some io_ErrUnexpectedEOF))
      then (false, "", err)
      else IsImage_loop buffer filePath r
  end.

Example IsImage_jpeg :
  IsImage (listed _) (fun _ => regular ([xff; xd8; xff; xe0] ++ bytes "JFIF"))
    "a/b.jpg" = (true, "image/jpeg", None).
Proof. reflexivity. Qed.

Example IsImage_empty :
  IsImage (listed _) (fun _ => regular []) "a/b.jpg" = (false, "", None).
Proof. reflexivity. Qed.

Example IsImage_missing :
  IsImage (listed _) (fun _ => missing) "a/b.jpg"
  = (false, "", Some fs_ErrNotExist).
Proof. reflexivity. Qed.

(** [encoding/hex.EncodeToString]. *)
Definition hex_digit (n : N) : ascii :=
  if (n <? 10)%N then ascii_of_N (48 + n) else ascii_of_N (87 + n).

Fixpoint hex_EncodeToString (bs : list byte) : string :=
  match bs with
  | [] => ""
  | b :: bs' =>
      let n := Byte.to_N b in
      String (hex_digit (n / 16)) (String (hex_digit (n mod 16))
        (hex_EncodeToString bs'))
  end.

Example hex_example : hex_EncodeToString [xd4; x1d; x8c; x0f] = "d41d8c0f".
Proof. reflexivity. Qed.

(** The MD5 digest function of [crypto/md5], kept abstract. *)
Class Hash : Type := { md5_Sum : list byte -> list byte }.

Definition CalculateMD5 `{Hash} (fs : FS) (filePath : string)
  : string * option error :=
  let file := fs filePath in
  match open_err file with
  | Some err => ("", Some err)
  | None =>
      match read_fault file with
      | Some err => ("", Some err)
      | None => (hex_EncodeToString (md5_Sum (data file)), None)
      end
  end.

(** ** Package time: the layout [2006:01:02 15:04:05]

    [time.Parse] with this layout, following the chunks of the layout as
    the library does: a four-digit year, two-digit month and day, a run of
    spaces, an hour of one or two digits, two-digit minute and second, an
    optional fractional second, and nothing after it. The day is checked
    against the month once everything is read. *)
Record Time : Type := mkTime {
  t_year : Z; t_month : Z; t_day : Z; t_hour : Z; t_min : Z; t_sec : Z
}.

Definition isDigit (s : string) (i : nat) : bool :=
  match String.get i s with
  | Some c => let n := N_of_ascii c in ((48 <=? n) && (n <=? 57))%N
  | None => false
  end.

Definition digit (s : string) (i : nat) : Z :=
  match String.get i s with
  | Some c => (Z.of_N (N_of_ascii c) - 48)%Z
  | None => 0%Z
  end.

Definition getnum (s : string) (fixed : bool) : option (Z * string) :=
  if negb (isDigit s 0) then None
  else if negb (isDigit s 1) then
    if fixed then None else Some (digit s 0, drop_string 1 s)
  else Some ((digit s 0 * 10 + digit s 1)%Z, drop_string 2 s).

Fixpoint cutspace (s : string) : string :=
  match s with
  | String " " s' => cutspace s'
  | _ => s
  end.

(** [skip(value, prefix)] for the two one-byte prefixes of the layout. *)
Definition skip_colon (value : string) : option string :=
  match value with
  | String ":" value' => Some value'
  | _ => None
  end.

Definition skip_space (value : string) : option string :=
  match value with
  | EmptyString => Some EmptyString
  | String " " _ => Some (cutspace value)
  | _ => None
  end.

Definition isLeap (year : Z) : bool :=
  (year mod 4 =? 0)%Z && (negb (year mod 100 =? 0)%Z || (year mod 400 =? 0)%Z).

Definition daysIn (month year : Z) : Z :=
  if (month =? 2)%Z then (if isLeap year then 29 else 28)%Z
  else if ((month =? 4) || (month =? 6) || (month =? 9) || (month =? 11))%Z
  then 30%Z else 31%Z.

Fixpoint skip_digits (s : string) : string :=
  match s with
  | String c s' => if isDigit s 0 then skip_digits s' else s
  | EmptyString => s
  end.

Definition commaOrPeriod (s : string) : bool :=
  match s with
  | String "." _ | String "," _ => true
  | _ => false
  end.

Definition parse_error : error := Err "parsing time".

Definition time_Parse (value : string) : error + Time :=
  let bad := inl parse_error in
  (* stdLongYear *)
  if negb (isDigit value 0 && isDigit value 1 && isDigit value 2
           && isDigit value 3) then bad
  else
  let year := (digit value 0 * 1000 + digit value 1 * 100
               + digit value 2 * 10 + digit value 3)%Z in
  let value := drop_string 4 value in
  match skip_colon value with None => bad | Some value =>
  (* stdZeroMonth *)
  match getnum value true with None => bad | Some (month, value) =>
  if ((month <=? 0) || (12 <? month))%Z then bad else
  match skip_colon value with None => bad | Some value =>
  (* stdZeroDay *)
  match getnum value true with None => bad | Some (day, value) =>
  match skip_space value with None => bad | Some value =>
  (* stdHour *)
  match getnum value false with None => bad | Some (hour, value) =>
  if ((hour <? 0) || (24 <=? hour))%Z then bad else
  match skip_colon value with None => bad | Some value =>
  (* stdZeroMinute *)
  match getnum value true with None => bad | Some (minute, value) =>
  if ((minute <? 0) || (60 <=? minute))%Z then bad else
  match skip_colon value with None => bad | Some value =>
  (* stdZeroSecond *)
  match getnum value true with None => bad | Some (sec, value) =>
  if ((sec <? 0) || (60 <=? sec))%Z then bad else
  let value :=
    if commaOrPeriod value && isDigit value 1
    then skip_digits (drop_string 1 value) else value in
  if negb (String.eqb value "") then bad
  else if ((day <? 1) || (daysIn month year <? day))%Z then bad
  else inr (mkTime year month day hour minute sec)
  end end end end end end end end end end.

(** [Time.Unix]: seconds since 1970-01-01T00:00:00Z. *)
Definition days_from_civil (y m d : Z) : Z :=
  let y := if (m <=? 2)%Z then (y - 1)%Z else y in
  let era := (y / 400)%Z in
  let yoe := (y - era * 400)%Z in
  let mp := if (2 <? m)%Z then (m - 3)%Z else (m + 9)%Z in
  let doy := ((153 * mp + 2) / 5 + d - 1)%Z in
  let doe := (yoe * 365 + yoe / 4 - yoe / 100 + doy)%Z in
  (era * 146097 + doe - 719468)%Z.

Definition Unix (t : Time) : Z :=
  (days_from_civil (t_year t) (t_month t) (t_day t) * 86400
   + t_hour t * 3600 + t_min t * 60 + t_sec t)%Z.

(** [fmt.Sprintf("%d", n)]. *)
Definition Sprintf_d (n : Z) : string := NilZero.string_of_int (Z.to_int n).

(** Zero-padded decimal of a non-negative number, at least [width] wide. *)
Fixpoint zero_pad (width fuel : nat) (s : string) : string :=
  match fuel with
  | O => s
  | S fuel' =>
      if (String.length s <? width)%nat
      then zero_pad width fuel' ("0" ++ s) else s
  end.

Definition appendInt (n : Z) (width : nat) : string :=
  zero_pad width width (Sprintf_d n).

(** [t.Format(time.RFC3339)] of a UTC time. *)
Definition Format_RFC3339 (t : Time) : string :=
  appendInt (t_year t) 4 ++ "-" ++ appendInt (t_month t) 2 ++ "-"
  ++ appendInt (t_day t) 2 ++ "T" ++ appendInt (t_hour t) 2 ++ ":"
  ++ appendInt (t_min t) 2 ++ ":" ++ appendInt (t_sec t) 2 ++ "Z".

Example time_Parse_ok :
  time_Parse "2021:03:04 05:06:07" = inr (mkTime 2021 3 4 5 6 7).
Proof. reflexivity. Qed.

Example time_examples :
  (sum_map id Unix (time_Parse "2021:03:04 05:06:07") = inr 1614834367%Z) /\
  (sum_map id Unix (time_Parse "1970:01:01 00:00:00") = inr 0%Z) /\
  (sum_map id Unix (time_Parse "1969:12:31 23:59:59.5") = inr (-1)%Z) /\
  (sum_map id Unix (time_Parse "2000:02:29   7:00:00") = inr 951807600%Z) /\
  (sum_map id Format_RFC3339 (time_Parse "2021:03:04 05:06:07")
     = inr "2021-03-04T05:06:07Z") /\
  time_Parse "2001:02:29 00:00:00" = inl parse_error /\
  time_Parse "2021:03:04 05:06:07x" = inl parse_error /\
  time_Parse "2021:3:04 05:06:07" = inl parse_error /\
  (sum_map id Format_RFC3339 (time_Parse "0007:01:02 03:04:05")
     = inr "0007-01-02T03:04:05Z") /\
  time_Parse "0000:00:00 00:00:00" = inl parse_error /\
  time_Parse "" = inl parse_error.
Proof. repeat split. Qed.

(** ** Control outcomes

    A call returns, or ends the process: [log.Fatal().Msg] exits with
    status 1, and a failed type assertion panics. *)
Inductive Result (A : Type) : Type :=
| Ret (a : A)
| Exit (code : Z)
| Panic (msg : string).
Arguments Ret {A} a.
Arguments Exit {A} code.
Arguments Panic {A} msg.

#[global] Instance Result_bind : MBind Result := fun A B k r =>
  match r with
  | Ret a => k a
  | Exit c => Exit c
  | Panic m => Panic m
  end.

(** ** The record type of both revisions of imagefileinfo.go *)

Definition wrap32 (z : Z) : Z := ((z + 2 ^ 31) mod 2 ^ 32 - 2 ^ 31)%Z.
Definition MaxInt32 : Z := (2 ^ 31 - 1)%Z.
Definition MinInt32 : Z := (- 2 ^ 31)%Z.

Record ImageFileInfo : Type := mkImageFileInfo {
  FilePath : string;
  MimeType : string;
  MD5 : string;
  FileName : string;
  OriginalDateTime : string;
  Duplicates : Z;   (* int32 *)
  HasExif : bool
}.

Definition zero_ImageFileInfo : ImageFileInfo :=
  mkImageFileInfo "" "" "" "" "" 0 false.

Definition set_MimeType (x : ImageFileInfo) (v : string) : ImageFileInfo :=
  mkImageFileInfo (FilePath x) v (MD5 x) (FileName x) (OriginalDateTime x)
    (Duplicates x) (HasExif x).
Definition set_FileName (x : ImageFileInfo) (v : string) : ImageFileInfo :=
  mkImageFileInfo (FilePath x) (MimeType x) (MD5 x) v (OriginalDateTime x)
    (Duplicates x) (HasExif x).
Definition set_OriginalDateTime (x : ImageFileInfo) (v : string)
  : ImageFileInfo :=
  mkImageFileInfo (FilePath x) (MimeType x) (MD5 x) (FileName x) v
    (Duplicates x) (HasExif x).
Definition set_Duplicates (x : ImageFileInfo) (v : Z) : ImageFileInfo :=
  mkImageFileInfo (FilePath x) (MimeType x) (MD5 x) (FileName x)
    (OriginalDateTime x) v (HasExif x).
Definition set_HasExif (x : ImageFileInfo) (v : bool) : ImageFileInfo :=
  mkImageFileInfo (FilePath x) (MimeType x) (MD5 x) (FileName x)
    (OriginalDateTime x) (Duplicates x) v.

Definition NewImageFileInfo (filePath mimeType md5 : string) : ImageFileInfo :=
  mkImageFileInfo filePath mimeType md5 "" "" 0 false.

Definition IsJPEG (x : ImageFileInfo) : bool :=
  String.eqb (MimeType x) "image/jpeg".

Definition IsNEF (x : ImageFileInfo) : ImageFileInfo * bool :=
  let suffix := filepath_Ext (FilePath x) in
  let isNEF := strings_EqualFold suffix ".NEF" in
  (if isNEF then set_MimeType x "image/nef" else x, isNEF).

Definition IsHEIC (x : ImageFileInfo) : ImageFileInfo * bool :=
  let suffix := filepath_Ext (FilePath x) in
  let isNEF := strings_EqualFold suffix ".HEIC" in
  (if isNEF then set_MimeType x "image/heic" else x, isNEF).

(** [fi.IsJPEG() || fi.IsNEF() || fi.IsHEIC()], evaluated left to right
    with short-circuit; the later calls may overwrite [MimeType]. *)
Definition IsJPEG_or_IsNEF_or_IsHEIC (fi : ImageFileInfo)
  : ImageFileInfo * bool :=
  if IsJPEG fi then (fi, true)
  else
    let '(fi, nef) := IsNEF fi in
    if nef then (fi, true)
    else IsHEIC fi.

(** ** The metadata-decoding collaborator (go-exif)

    A tag value is a string or something else, of which only the [%v]
    rendering matters. *)
Inductive TagValue : Type :=
| StringValue (s : string)
| OtherValue (rendered : string).

Record ExifTag : Type := mkTag { TagName : string; Value : TagValue }.

Class Exif : Type := {
  exif_SearchFileAndExtractExif : File -> error + list byte;
  exif_GetFlatExifData : list byte -> error + list ExifTag
}.

Definition Sprintf_v (v : TagValue) : string :=
  match v with StringValue s => s | OtherValue r => r end.

Definition is_capture_tag (tag : ExifTag) : bool :=
  String.eqb (TagName tag) "DateTimeOriginal"
  || String.eqb (TagName tag) "Create Date".

Definition zero_time_tag : string := "0000:00:00 00:00:00".

(** [strings.Replace(s, "\x00", "", 1)]. *)
Fixpoint remove_first_NUL (s : string) : string :=
  match s with
  | EmptyString => EmptyString
  | String c s' => if Ascii.eqb c zero then s' else String c (remove_first_NUL s')
  end.

(** *** common/imagefileinfo.go *)
Module ImageFileInfoA.

Fixpoint scan_tags (tags : list ExifTag) (originalTime : string) : string :=
  match tags with
  | [] => originalTime
  | tag :: tags' =>
      if is_capture_tag tag
      then scan_tags tags' (Sprintf_v (Value tag))
      else scan_tags tags' originalTime
  end.

Definition GetJpegCreatedAt `{Exif} (fs : FS) (x : ImageFileInfo)
  : Result (ImageFileInfo * option error) :=
  match exif_SearchFileAndExtractExif (fs (FilePath x)) with
  | inl err => Ret (x, Some err)
  | inr rawExif =>
      match exif_GetFlatExifData rawExif with
      | inl err => Ret (x, Some err)
      | inr tags =>
          let originalTime := scan_tags tags "" in
          match time_Parse originalTime with
          | inl err => Ret (x, Some err)
          | inr date =>
              let originalTime := Format_RFC3339 date in
              Ret (set_OriginalDateTime x originalTime, None)
          end
      end
  end.

Definition fallback_token : string := "unknown".

Definition SetFileName (x : ImageFileInfo) : ImageFileInfo :=
  if negb (String.eqb (OriginalDateTime x) "")
  then set_FileName x
         (OriginalDateTime x ++ "_" ++ MD5 x ++ "_" ++ filepath_Base (FilePath x))
  else set_FileName x
         ("unknown" ++ "_" ++ MD5 x ++ "_" ++ filepath_Base (FilePath x)).

End ImageFileInfoA.

(** *** src/unnamed/part_000 *)
Module ImageFileInfoB.

(** The loop over the tags: it panics on a capture-time tag that is not
    a string, returns early on the zero time, and otherwise keeps the
    last capture time seen. *)
Fixpoint scan_tags (tags : list ExifTag) (originalTime : string)
  : Result (error + string) :=
  match tags with
  | [] => Ret (inr originalTime)
  | tag :: tags' =>
      if is_capture_tag tag then
        match Value tag with
        | StringValue exifTime =>
            let exifTime := remove_first_NUL exifTime in
            if String.eqb exifTime "0000:00:00 00:00:00"
            then Ret (inl (Err "exif tag empty"))
            else scan_tags tags' exifTime
        | OtherValue _ => Panic "interface conversion: not a string"
        end
      else scan_tags tags' originalTime
  end.

Definition GetJpegCreatedAt `{Exif} (fs : FS) (x : ImageFileInfo)
  : Result (ImageFileInfo * option error) :=
  match exif_SearchFileAndExtractExif (fs (FilePath x)) with
  | inl err => Ret (x, Some err)
  | inr rawExif =>
      match exif_GetFlatExifData rawExif with
      | inl err => Ret (x, Some err)
      | inr tags =>
          r ← scan_tags tags "";
          match r with
          | inl err => Ret (x, Some err)
          | inr originalTime =>
              if String.eqb originalTime ""
              then Ret (x, Some (Err "empty exif data"))
              else
                match time_Parse originalTime with
                | inl err => Ret (x, Some err)
                | inr date =>
                    let originalTime := Sprintf_d (Unix date) in
                    Ret (set_OriginalDateTime x originalTime, None)
                end
          end
      end
  end.

Definition fallback_token : string := "0000000000".

Definition SetFileName (x : ImageFileInfo) : ImageFileInfo :=
  if negb (String.eqb (OriginalDateTime x) "")
  then set_FileName x
         (OriginalDateTime x ++ "_" ++ MD5 x ++ "_" ++ filepath_Base (FilePath x))
  else set_FileName x
         ("0000000000" ++ "_" ++ MD5 x ++ "_" ++ filepath_Base (FilePath x)).

End ImageFileInfoB.

(** The two revisions behind one interface, so that the entry points can
    be read against either. *)
Inductive Revision : Type := RevA | RevB.

Definition GetJpegCreatedAt `{Exif} (rev : Revision)
  : FS -> ImageFileInfo -> Result (ImageFileInfo * option error) :=
  match rev with
  | RevA => ImageFileInfoA.GetJpegCreatedAt
  | RevB => ImageFileInfoB.GetJpegCreatedAt
  end.

Definition SetFileName (rev : Revision) : ImageFileInfo -> ImageFileInfo :=
  match rev with
  | RevA => ImageFileInfoA.SetFileName
  | RevB => ImageFileInfoB.SetFileName
  end.

Definition fallback_token (rev : Revision) : string :=
  match rev with
  | RevA => ImageFileInfoA.fallback_token
  | RevB => ImageFileInfoB.fallback_token
  end.

(** ** The in-memory cache (patrickmn/go-cache)

    Items carry an expiration in nanoseconds, zero for none. Reads take the
    current time; an expired item is still in the map but no longer
    visible. The janitor goroutine deletes only expired items, so it never
    changes what a read returns, and it is not modelled. Values are the
    JSON strings the store puts there. *)
Record Item : Type := mkItem { Object : string; Expiration : Z }.

Record Cache : Type := mkCache {
  defaultExpiration : Z;
  items : gmap string Item
}.

Definition Hour : Z := (3600 * 1000000000)%Z.
Definition NoExpiration : Z := (-1)%Z.
Definition DefaultExpiration : Z := 0%Z.

Definition cache_New (defaultExpiration : Z) : Cache :=
  mkCache defaultExpiration ∅.

Definition Expired (now : Z) (item : Item) : bool :=
  (0 <? Expiration item)%Z && (Expiration item <? now)%Z.

Definition cache_Get (c : Cache) (now : Z) (k : string) : option string :=
  match items c !! k with
  | None => None
  | Some item => if Expired now item then None else Some (Object item)
  end.

Definition cache_Set (c : Cache) (now : Z) (k : string) (x : string) (d : Z)
  : Cache :=
  let d := if (d =? DefaultExpiration)%Z then defaultExpiration c else d in
  let e := if (0 <? d)%Z then (now + d)%Z else 0%Z in
  mkCache (defaultExpiration c) (<[k := mkItem x e]> (items c)).

(** [c.Items()]: the unexpired items. *)
Definition cache_Items (c : Cache) (now : Z) : gmap string Item :=
  filter (fun kv => Expired now kv.2 = false) (items c).

(** The [encoding/gob] serialisation of the item map, kept abstract up to
    its contract: what was encoded decodes to itself. *)
Class Gob : Type := {
  gob_Encode : gmap string Item -> list byte;
  gob_Decode : list byte -> error + gmap string Item;
  gob_Decode_Encode : forall m, gob_Decode (gob_Encode m) = inr m
}.

(** [c.Load]: decoded items are added where the key is free or expired. *)
Definition load_item (now : Z) (old new : option Item) : option Item :=
  match new with
  | None => old
  | Some v =>
      match old with
      | Some ov => if Expired now ov then Some v else Some ov
      | None => Some v
      end
  end.

Definition cache_LoadFile `{Gob} (c : Cache) (now : Z) (fs : FS)
  (fname : string) : Cache * option error :=
  let file := fs fname in
  match open_err file with
  | Some err => (c, Some err)
  | None =>
      match read_fault file with
      | Some err => (c, Some err)
      | None =>
          match gob_Decode (data file) with
          | inl err => (c, Some err)
          | inr loaded =>
              (mkCache (defaultExpiration c)
                 (merge (load_item now) (items c) loaded), None)
          end
      end
  end.

(** [c.SaveFile]: the file system afterwards and the error. *)
Definition cache_SaveFile `{Gob} (c : Cache) (fs : FS) (fname : string)
  : FS * option error :=
  match create_err (fs fname) with
  | Some err => (fs, Some err)
  | None =>
      (fun p => if String.eqb p fname then regular (gob_Encode (items c))
                else fs p,
       None)
  end.

(** ** common/fastcache.go *)

(** [encoding/json] on the record type: [json_Unmarshal data obj] decodes
    into [obj], as [json.Unmarshal(data, &obj)] does. Marshalling a record
    writes all seven fields, so reading it back overwrites all of [obj];
    this is stated for records in general, which idealises the treatment of
    text that is not valid UTF-8. *)
Class JSON : Type := {
  json_Marshal : ImageFileInfo -> string;
  json_Unmarshal : string -> ImageFileInfo -> error + ImageFileInfo;
  json_Unmarshal_Marshal :
    forall fi obj, json_Unmarshal (json_Marshal fi) obj = inr fi
}.

Record FastCache : Type := mkFastCache {
  persistFile : string;
  cache : Cache
}.

Definition set_cache (x : FastCache) (c : Cache) : FastCache :=
  mkFastCache (persistFile x) c.

Definition NewFastCache : FastCache :=
  mkFastCache "" (cache_New (24 * Hour)).

Definition NewPersistentCache `{Gob} (fs : FS) (now : Z) (persistFile : string)
  : FastCache * option error :=
  let x := mkFastCache persistFile (cache_New (24 * Hour)) in
  let '(c, err) := cache_LoadFile (cache x) now fs persistFile in
  (set_cache x c, err).

Definition toJSON `{JSON} (fi : ImageFileInfo) : string * option error :=
  (json_Marshal fi, None).

Definition fromJSON `{JSON} (jsonString : string) (obj : ImageFileInfo)
  : ImageFileInfo * option error :=
  match json_Unmarshal jsonString obj with
  | inl err => (obj, Some err)
  | inr obj => (obj, None)
  end.

Definition FastCache_Get `{JSON} (x : FastCache) (now : Z) (key : string)
  (obj : ImageFileInfo) : option ImageFileInfo * bool :=
  match cache_Get (cache x) now key with
  | Some jsonString =>
      let '(obj, err) := fromJSON jsonString obj in
      match err with
      | Some _ => (None, false)
      | None => (Some obj, true)
      end
  | None => (None, false)
  end.

Definition FastCache_Set `{JSON} (x : FastCache) (now : Z) (key : string)
  (value : ImageFileInfo) (duration : Z) : FastCache :=
  let '(jsonString, err) := toJSON value in
  match err with
  | Some _ => x
  | None => set_cache x (cache_Set (cache x) now key jsonString duration)
  end.

Definition FastCache_Persist `{Gob} (x : FastCache) (fs : FS)
  : FS * option error :=
  cache_SaveFile (cache x) fs (persistFile x).

(** [x.List()]: the stored strings, in map order. *)
Definition FastCache_List (x : FastCache) (now : Z) : list string :=
  (fun kv => Object kv.2) <$> map_to_list (cache_Items (cache x) now).

(** ** The directory walk

    The callback of [filepath.Walk] in the two entry points, on the
    entries that are not directories. A [Visit] is one call: the path, the
    clock, and the orders in which the two tables happen to be ranged
    over. The state is the store, the count of files and the calls of
    [CopyFile] made so far. *)
Record Visit : Type := mkVisit {
  filePath : string;
  now : Z;
  extRange : Range skipExtensions;
  sigRange : Range imageSignatures
}.

Record State : Type := mkState {
  db : FastCache;
  fileCount : Z;
  copies : list (string * string)
}.

Definition CopyFile (st : State) (inFile outFile : string) : State :=
  mkState (db st) (fileCount st) (copies st ++ [(inFile, outFile)]).

Definition set_db (st : State) (x : FastCache) : State :=
  mkState x (fileCount st) (copies st).

Definition count_file (st : State) : State :=
  mkState (db st) (fileCount st + 1) (copies st).

(** [log.Fatal().Msg(...)]. *)
Definition log_Fatal_Msg {A : Type} : Result A := Exit 1.

(** The two entry points: [src/main.go], with flag [-path], and the one
    with flag [-in]. *)
Inductive EntryPoint : Type := MainPath | MainIn.

Section Walk.
Context `{Hash} `{Exif} `{JSON}.
Variable entry : EntryPoint.
Variable rev : Revision.
Variable fs : FS.
Variable outPath : string.

(** The branch taken when the fingerprint is found, the same text in
    both entry points. *)
Definition duplicate (st : State) (v : Visit) (md5 : string)
  (fi : ImageFileInfo) : State :=
  let fi := set_Duplicates fi (wrap32 (Duplicates fi + 1)) in
  set_db st (FastCache_Set (db st) (now v) md5 fi (-1)).

(** The branch for a fingerprint not found, in [src/main.go]. *)
Definition MainPath_original (st : State) (v : Visit) (mimeType md5 : string)
  : Result State :=
  let filePath := filePath v in
  let fi := NewImageFileInfo filePath mimeType md5 in
  let '(fi, exifKind) := IsJPEG_or_IsNEF_or_IsHEIC fi in
  '(fi, outFile) ←
    (if exifKind then
       '(fi, err) ← GetJpegCreatedAt rev fs fi;
       match err with
       | None =>
           let fi := SetFileName rev fi in
           let fi := set_HasExif fi true in
           Ret (fi, FileName fi)
       | Some _ =>
           let '(fi, nef) := IsNEF fi in
           if nef then log_Fatal_Msg
           else Ret (fi, (md5 ++ "_" ++ filepath_Base filePath)%string)
       end
     else Ret (fi, (md5 ++ "_" ++ filepath_Base filePath)%string));
  let st := set_db st (FastCache_Set (db st) (now v) md5 fi (-1)) in
  Ret (CopyFile st filePath (outPath ++ "/" ++ outFile)%string).

(** The same branch in the entry point with flag [-in]. *)
Definition MainIn_original (st : State) (v : Visit) (mimeType md5 : string)
  : Result State :=
  let filePath := filePath v in
  let fi := NewImageFileInfo filePath mimeType md5 in
  let '(fi, exifKind) := IsJPEG_or_IsNEF_or_IsHEIC fi in
  fi ←
    (if exifKind then
       '(fi, err) ← GetJpegCreatedAt rev fs fi;
       match err with
       | None => Ret (set_HasExif fi true)
       | Some _ => Ret (set_HasExif fi false)
       end
     else Ret fi);
  let fi := SetFileName rev fi in
  let outFile := FileName fi in
  let st := set_db st (FastCache_Set (db st) (now v) md5 fi (-1)) in
  Ret (CopyFile st filePath (outPath ++ "/" ++ outFile)%string).

Definition original (st : State) (v : Visit) (mimeType md5 : string)
  : Result State :=
  match entry with
  | MainPath => MainPath_original st v mimeType md5
  | MainIn => MainIn_original st v mimeType md5
  end.

(** The callback on a file. Its text before the two branches is the same
    in both entry points. *)
Definition walkFn (st : State) (v : Visit) : Result State :=
  let filePath := filePath v in
  let st := count_file st in
  let '(toIgnoreByName, _) := IgnoreByName filePath in
  if toIgnoreByName then Ret st
  else
    let '(toIgnoreByExt, extension) := IgnoreByExtension (extRange v) filePath in
    if toIgnoreByExt then Ret st
    else
      let '(isImg, mimeType, err) := IsImage (sigRange v) fs filePath in
      match err with
      | Some _ => Ret st
      | None =>
          if isImg then
            let '(md5, err) := CalculateMD5 fs filePath in
            match err with
            | Some _ => Ret st
            | None =>
                let '(obj, found) :=
                  FastCache_Get (db st) (now v) md5 zero_ImageFileInfo in
                if found then
                  match obj with
                  | Some fi => Ret (duplicate st v md5 fi)
                  | None => Panic "interface conversion: interface is nil"
                  end
                else original st v mimeType md5
            end
          else Ret st
      end.

(** [filepath.Walk] over the files it reaches, in its order. *)
Fixpoint Walk (visits : list Visit) (st : State) : Result State :=
  match visits with
  | [] => Ret st
  | v :: visits' => st ← walkFn st v; Walk visits' st
  end.

End Walk.

(** The start of both entry points: the database is opened, and any
    error other than the file not existing ends the run. *)
Definition initialize_db `{Gob} (fs : FS) (now : Z) (dbPath : string)
  : Result FastCache :=
  let '(db, err) := NewPersistentCache fs now dbPath in
  match err with
  | Some e => if negb (os_IsNotExist e) then Exit 0 else Ret db
  | None => Ret db
  end.

(** The store and state a run starts from when no database file exists. *)
Definition empty_store (persistFile : string) : FastCache :=
  mkFastCache persistFile (cache_New (24 * Hour)).

Definition initial (x : FastCache) : State := mkState x 0 [].

(** * A world to run the program in

    Instances of the collaborators, small but lawful, used to evaluate the
    definitions on concrete inputs. The record is written as JSON text
    with the field names of the struct tags; only the quote and the
    backslash are escaped. *)
Module Sample.

Definition dq : string := String "034" EmptyString.
Definition bs : ascii := "\"%char.

Fixpoint put_text (s rest : string) : string :=
  match s with
  | EmptyString => (dq ++ rest)%string
  | String c s' =>
      if Ascii.eqb c "034" || Ascii.eqb c bs
      then String bs (String c (put_text s' rest))
      else String c (put_text s' rest)
  end.

Definition put_string (s rest : string) : string :=
  (dq ++ put_text s rest)%string.

(** The text up to the closing quote, and what follows it. *)
Fixpoint get_text (s : string) : option (string * string) :=
  match s with
  | EmptyString => None
  | String c s' =>
      if Ascii.eqb c "034" then Some (EmptyString, s')
      else if Ascii.eqb c bs then
        match s' with
        | String c' s'' =>
            '(t, rest) ← get_text s''; Some (String c' t, rest)
        | EmptyString => None
        end
      else '(t, rest) ← get_text s'; Some (String c t, rest)
  end.

Definition get_string (s : string) : option (string * string) :=
  match s with
  | String "034" s' => get_text s'
  | _ => None
  end.

Lemma get_put_text s rest : get_text (put_text s rest) = Some (s, rest).
Proof.
  induction s as [|c s IH]; [reflexivity|]. simpl.
  destruct (Ascii.eqb c "034") eqn:Eq; simpl.
  - rewrite IH. reflexivity.
  - destruct (Ascii.eqb c bs) eqn:Eb; simpl.
    + rewrite IH. reflexivity.
    + rewrite Eq, Eb, IH. reflexivity.
Qed.

Lemma get_put_string s rest : get_string (put_string s rest) = Some (s, rest).
Proof. apply get_put_text. Qed.

Definition is_num_char (c : ascii) : bool :=
  Ascii.eqb c "-" || ((48 <=? N_of_ascii c) && (N_of_ascii c <=? 57))%N.

Fixpoint span_num (s : string) : string * string :=
  match s with
  | EmptyString => (EmptyString, EmptyString)
  | String c s' =>
      if is_num_char c
      then let '(a, b) := span_num s' in (String c a, b)
      else (EmptyString, s)
  end.

Definition put_int (z : Z) (rest : string) : string :=
  (Sprintf_d z ++ rest)%string.

Definition get_int (s : string) : option (Z * string) :=
  let '(a, b) := span_num s in
  d ← NilZero.int_of_string a; Some (Z.of_int d, b).

Lemma span_num_uint d c rest :
  is_num_char c = false ->
  span_num (NilEmpty.string_of_uint d ++ String c rest)
  = (NilEmpty.string_of_uint d, String c rest).
Proof.
  intros Hc. induction d; simpl; rewrite ?Hc, ?IHd; reflexivity.
Qed.

Lemma span_num_int z c rest :
  is_num_char c = false ->
  span_num (Sprintf_d z ++ String c rest) = (Sprintf_d z, String c rest).
Proof.
  intros Hc. unfold Sprintf_d.
  assert (Hu : forall d, span_num (NilZero.string_of_uint d ++ String c rest)
                         = (NilZero.string_of_uint d, String c rest)).
  { intros d. destruct d; try apply span_num_uint; trivial.
    simpl. rewrite Hc. reflexivity. }
  destruct (Z.to_int z) as [d|d]; simpl.
  - apply Hu.
  - rewrite Hu. reflexivity.
Qed.

Lemma to_int_nonnil z : Z.to_int z <> Decimal.Pos Decimal.Nil
                        /\ Z.to_int z <> Decimal.Neg Decimal.Nil.
Proof.
  destruct z; simpl; split; try discriminate;
    intros [= E]; exact (DecimalPos.Unsigned.to_uint_nonnil _ E).
Qed.

Lemma get_put_int z c rest :
  is_num_char c = false ->
  get_int (put_int z (String c rest)) = Some (z, String c rest).
Proof.
  intros Hc. unfold get_int, put_int. rewrite span_num_int by assumption.
  unfold Sprintf_d. destruct (to_int_nonnil z) as [Hp Hn].
  rewrite NilZero.isi by assumption. simpl.
  rewrite DecimalZ.of_to. reflexivity.
Qed.

Definition expect (lit s : string) : option string :=
  if String.prefix lit s then Some (drop_string (String.length lit) s)
  else None.

Lemma drop_string_app lit s : drop_string (String.length lit) (lit ++ s) = s.
Proof. induction lit; simpl; auto. Qed.

Lemma prefix_app lit s : String.prefix lit (lit ++ s) = true.
Proof.
  induction lit as [|c lit IH]; simpl; [destruct s; reflexivity|].
  destruct (ascii_dec c c); [exact IH | congruence].
Qed.

Lemma expect_app lit s : expect lit (lit ++ s) = Some s.
Proof. unfold expect. rewrite prefix_app, drop_string_app. reflexivity. Qed.

Definition key (name : string) : string := (dq ++ name ++ dq ++ ":")%string.

Definition Marshal (fi : ImageFileInfo) : string :=
  ("{" ++ key "filepath" ++ put_string (FilePath fi)
  ("," ++ key "mimetype" ++ put_string (MimeType fi)
  ("," ++ key "md5" ++ put_string (MD5 fi)
  ("," ++ key "filename" ++ put_string (FileName fi)
  ("," ++ key "originaldatetime" ++ put_string (OriginalDateTime fi)
  ("," ++ key "duplicates" ++ put_int (Duplicates fi)
  ("," ++ key "hasexif" ++ (if HasExif fi then "true}" else "false}")))))))
  )%string.

Definition get_bool (s : string) : option (bool * string) :=
  match expect "true" s with
  | Some s => Some (true, s)
  | None => s ← expect "false" s; Some (false, s)
  end.

(** Fields absent from the text would keep the value they have in
    [obj]; the texts written by [Marshal] carry every field. *)
Definition Unmarshal (jsonString : string) (obj : ImageFileInfo)
  : error + ImageFileInfo :=
  let parsed :=
    s ← expect ("{" ++ key "filepath") jsonString;
    '(filepath, s) ← get_string s;
    s ← expect ("," ++ key "mimetype") s;
    '(mimetype, s) ← get_string s;
    s ← expect ("," ++ key "md5") s;
    '(md5, s) ← get_string s;
    s ← expect ("," ++ key "filename") s;
    '(filename, s) ← get_string s;
    s ← expect ("," ++ key "originaldatetime") s;
    '(originaldatetime, s) ← get_string s;
    s ← expect ("," ++ key "duplicates") s;
    '(duplicates, s) ← get_int s;
    s ← expect ("," ++ key "hasexif") s;
    '(hasexif, s) ← get_bool s;
    s ← expect "}" s;
    if String.eqb s "" then
      Some (mkImageFileInfo filepath mimetype md5 filename originaldatetime
              duplicates hasexif)
    else None in
  match parsed with
  | Some fi => inr fi
  | None => inl (Err "invalid character")
  end.

Lemma append_assoc (a b c : string) :
  String.append (String.append a b) c = String.append a (String.append b c).
Proof.
  induction a as [|x a IH]; [reflexivity|].
  change (String x (String.append (String.append a b) c)
          = String x (String.append a (String.append b c))).
  rewrite IH. reflexivity.
Qed.

Lemma expect_key_app b name s :
  expect (b ++ key name) (String.append b (String.append (key name) s)) = Some s.
Proof. rewrite <- append_assoc. apply expect_app. Qed.

Lemma Unmarshal_Marshal fi obj : Unmarshal (Marshal fi) obj = inr fi.
Proof.
  destruct fi as [fp mt md fn odt dup he].
  unfold Unmarshal, Marshal. cbn [FilePath MimeType MD5 FileName
    OriginalDateTime Duplicates HasExif].
  rewrite expect_key_app. cbn [mbind option_bind].
  rewrite get_put_string. cbn [mbind option_bind].
  rewrite expect_key_app. cbn [mbind option_bind].
  rewrite get_put_string. cbn [mbind option_bind].
  rewrite expect_key_app. cbn [mbind option_bind].
  rewrite get_put_string. cbn [mbind option_bind].
  rewrite expect_key_app. cbn [mbind option_bind].
  rewrite get_put_string. cbn [mbind option_bind].
  rewrite expect_key_app. cbn [mbind option_bind].
  rewrite get_put_string. cbn [mbind option_bind].
  rewrite expect_key_app. cbn [mbind option_bind].
  change ("," ++ key "hasexif" ++ (if he then "true}" else "false}"))%string
    with (String "," (key "hasexif" ++ (if he then "true}" else "false}"))).
  rewrite get_put_int by reflexivity. cbn [mbind option_bind].
  change (String "," (key "hasexif" ++ (if he then "true}" else "false}")))
    with ("," ++ key "hasexif" ++ (if he then "true}" else "false}"))%string.
  rewrite expect_key_app. cbn [mbind option_bind].
  destruct he; reflexivity.
Qed.

#[export] Instance json : JSON :=
  {| json_Marshal := Marshal;
     json_Unmarshal := Unmarshal;
     json_Unmarshal_Marshal := Unmarshal_Marshal |}.

(** A digest of two bytes, the sum and the length of the content, in place
    of MD5. *)
Definition low_byte (n : N) : byte :=
  match Byte.of_N (n mod 256) with Some b => b | None => x00 end.

#[export] Instance hash : Hash :=
  {| md5_Sum := fun content =>
       let total := fold_right (fun b n => (Byte.to_N b + n)%N) 0%N content in
       [low_byte total; low_byte (N.of_nat (length content))] |}.

(** A metadata block that starts at the marker [Exif] and holds the
    capture time as text: empty for no time tag, [#] first for a value
    that is not a string, [!] first for a block that does not decode. *)
Fixpoint find_after (marker content : list byte) : option (list byte) :=
  match content with
  | [] => None
  | _ :: content' =>
      if bytes_HasPrefix content marker
      then Some (skipn (length marker) content)
      else find_after marker content'
  end.

#[export] Instance exif : Exif :=
  {| exif_SearchFileAndExtractExif := fun file =>
       match open_err file with
       | Some err => inl err
       | None =>
           match find_after (bytes "Exif") (data file) with
           | Some rawExif => inr rawExif
           | None => inl (Err "no exif data")
           end
       end;
     exif_GetFlatExifData := fun rawExif =>
       let make := mkTag "Make" (StringValue "NIKON") in
       match string_of_list_byte rawExif with
       | EmptyString => inr [make]
       | String "!" _ => inl (Err "exif data corrupt")
       | String "#" v => inr [make; mkTag "DateTimeOriginal" (OtherValue v)]
       | v => inr [make; mkTag "DateTimeOriginal" (StringValue v)]
       end |}.

(** The item map written as a count and then key, value and expiration
    of each item. *)
Fixpoint put_items (l : list (string * Item)) (rest : string) : string :=
  match l with
  | [] => rest
  | (k, item) :: l' =>
      put_string k (put_string (Object item)
        (put_int (Expiration item) (String ";" (put_items l' rest))))
  end.

Fixpoint get_items (n : nat) (s : string)
  : option (list (string * Item) * string) :=
  match n with
  | O => Some ([], s)
  | S n' =>
      '(k, s) ← get_string s;
      '(x, s) ← get_string s;
      '(e, s) ← get_int s;
      s ← expect ";" s;
      '(l, s) ← get_items n' s;
      Some ((k, mkItem x e) :: l, s)
  end.

Definition Encode (m : gmap string Item) : list byte :=
  let l := map_to_list m in
  bytes (put_int (Z.of_nat (length l)) (String "#" (put_items l "."))).

Definition Decode (bs : list byte) : error + gmap string Item :=
  let parsed :=
    '(n, s) ← get_int (string_of_list_byte bs);
    s ← expect "#" s;
    '(l, s) ← get_items (Z.to_nat n) s;
    if String.eqb s "." then Some l else None in
  match parsed with
  | Some l => inr (list_to_map l)
  | None => inl (Err "gob: bad data")
  end.

Lemma get_put_items l rest :
  get_items (length l) (put_items l rest) = Some (l, rest).
Proof.
  induction l as [|[k [x e]] l IH]; [reflexivity|].
  cbn [length get_items put_items Object Expiration].
  rewrite get_put_string. cbn [mbind option_bind].
  rewrite get_put_string. cbn [mbind option_bind].
  rewrite get_put_int by reflexivity. cbn [mbind option_bind].
  change (String ";" (put_items l rest))
    with (String.append ";" (put_items l rest)).
  rewrite expect_app. cbn [mbind option_bind].
  rewrite IH. reflexivity.
Qed.

Lemma Decode_Encode m : Decode (Encode m) = inr m.
Proof.
  unfold Decode, Encode, bytes. rewrite string_of_list_byte_of_string.
  rewrite get_put_int by reflexivity. cbn [mbind option_bind].
  change (String "#" (put_items (map_to_list m) "."))
    with (String.append "#" (put_items (map_to_list m) ".")).
  rewrite expect_app. cbn [mbind option_bind].
  rewrite Nat2Z.id, get_put_items. cbn [mbind option_bind].
  change (String.eqb "." ".") with true. cbv iota.
  rewrite list_to_map_to_list. reflexivity.
Qed.

#[export] Instance gob : Gob :=
  {| gob_Encode := Encode;
     gob_Decode := Decode;
     gob_Decode_Encode := Decode_Encode |}.

(** A JPEG with a capture time, one without metadata, and the files that
    exercise the other paths. *)
Definition jpegSignature : list byte := [xff; xd8; xff; xe1].

Definition jpeg_2021 : File :=
  regular (jpegSignature ++ bytes "..Exif2021:03:04 05:06:07").
Definition jpeg_plain : File :=
  regular (jpegSignature ++ bytes "..JFIF").
Definition jpeg_zero_time : File :=
  regular (jpegSignature ++ bytes "..Exif0000:00:00 00:00:00").
Definition jpeg_no_tag : File :=
  regular (jpegSignature ++ bytes "..Exif").
Definition png : File :=
  regular (pngSignature ++ bytes "....IHDR").

Definition disk : FS := fun path =>
  if String.eqb path "backups/2021/a.jpg" then jpeg_2021
  else if String.eqb path "backups/copy/b.jpg" then jpeg_2021
  else if String.eqb path "backups/plain.jpg" then jpeg_plain
  else if String.eqb path "backups/zero.jpg" then jpeg_zero_time
  else if String.eqb path "backups/notag.jpg" then jpeg_no_tag
  else if String.eqb path "backups/shot.png" then png
  else if String.eqb path "backups/photo.heic" then png
  else if String.eqb path "backups/DSC_0001.NEF" then png
  else missing.

Definition visit (path : string) : Visit :=
  mkVisit path 1700000000000000000 (listed _) (listed _).

End Sample.

(** * Properties *)

(** ** Classification by signature *)

Lemma bytes_HasPrefix_app (s prefix : list byte) :
  bytes_HasPrefix s prefix = true <-> exists t, s = prefix ++ t.
Proof.
  revert s; induction prefix as [|p prefix IH]; intros s; simpl.
  - split; [intros _; exists s | intros _]; reflexivity.
  - destruct s as [|c s].
    + split; [discriminate | intros [t Ht]; discriminate].
    + rewrite andb_true_iff, IH. split.
      * intros [Hc [t ->]]. apply Byte.byte_dec_bl in Hc. subst. eauto.
      * intros [t Ht]. injection Ht as -> ->. split; [|eauto].
        apply Byte.byte_dec_lb. reflexivity.
Qed.

(** What the loop returns at a matching entry. *)
Definition classified (filePath : string) (e : list byte * string)
  : bool * string * option error :=
  (true,
   if String.eqb e.2 "image/png"
   then if strings_EqualFold (filepath_Ext filePath) ".NEF"
        then "image/nef" else e.2
   else e.2,
   None).

Lemma IsImage_loop_cons buffer filePath e es :
  IsImage_loop buffer filePath (e :: es) =
  if bytes_HasPrefix buffer e.1 then classified filePath e
  else IsImage_loop buffer filePath es.
Proof. destruct e as [magic mime]. reflexivity. Qed.

(** No entry matches: not recognised, in whatever order. *)
Lemma IsImage_loop_none buffer filePath (es : list (list byte * string)) :
  Forall (fun e => bytes_HasPrefix buffer e.1 = false) es ->
  IsImage_loop buffer filePath es = (false, "", None).
Proof.
  induction 1 as [|e es He _ IH]; [reflexivity|].
  rewrite IsImage_loop_cons, He. exact IH.
Qed.

(** All matching entries agree on the outcome: that outcome, in whatever
    order. *)
Lemma IsImage_loop_agree buffer filePath res (es : list (list byte * string)) :
  Forall (fun e => bytes_HasPrefix buffer e.1 = true ->
                   classified filePath e = res) es ->
  Exists (fun e => bytes_HasPrefix buffer e.1 = true) es ->
  IsImage_loop buffer filePath es = res.
Proof.
  induction 1 as [|e es He _ IH]; intros Hex.
  - inversion Hex.
  - rewrite IsImage_loop_cons.
    destruct (bytes_HasPrefix buffer e.1) eqn:Hm; [auto|].
    apply IH. inversion Hex; subst; [congruence | assumption].
Qed.

(** Whether some entry matches does not depend on the order. *)
Definition recognized (buffer : list byte) : bool :=
  existsb (fun e => bytes_HasPrefix buffer e.1) imageSignatures.

Lemma IsImage_loop_recognized buffer filePath (es : list (list byte * string)) :
  (IsImage_loop buffer filePath es).1.1
  = existsb (fun e => bytes_HasPrefix buffer e.1) es.
Proof.
  induction es as [|e es IH]; [reflexivity|].
  rewrite IsImage_loop_cons. simpl.
  destruct (bytes_HasPrefix buffer e.1); [reflexivity | exact IH].
Qed.

Lemma IsImage_loop_error buffer filePath (es : list (list byte * string)) :
  (IsImage_loop buffer filePath es).2 = None.
Proof.
  induction es as [|e es IH]; [reflexivity|].
  rewrite IsImage_loop_cons.
  destruct (bytes_HasPrefix buffer e.1); [reflexivity | exact IH].
Qed.

Lemma existsb_Permutation {A} (f : A -> bool) (l l' : list A) :
  Permutation l l' -> existsb f l = existsb f l'.
Proof.
  induction 1; simpl; try congruence.
  destruct (f x), (f y); reflexivity.
Qed.

Lemma IsImage_loop_range_recognized buffer filePath (r : Range imageSignatures) :
  (IsImage_loop buffer filePath r).1.1 = recognized buffer.
Proof.
  rewrite IsImage_loop_recognized. symmetry.
  apply existsb_Permutation, entries_perm.
Qed.

(** The probe buffer of a file that opens and reads without a fault. *)
Definition probe (content : list byte) : list byte :=
  firstn 32 content ++ repeat x00 (32 - length (firstn 32 content)).

Lemma IsImage_readable r fs filePath :
  open_err (fs filePath) = None ->
  fault (fs filePath) = None ->
  IsImage r fs filePath
  = IsImage_loop (probe (data (fs filePath))) filePath r.
Proof.
  intros Ho Hf. unfold IsImage, io_ReadFull. rewrite Ho, Hf.
  fold (probe (data (fs filePath))).
  destruct (32 <=? length (firstn 32 (data (fs filePath))))%nat; simpl.
  - reflexivity.
  - destruct (0 <? length (firstn 32 (data (fs filePath))))%nat; reflexivity.
Qed.

Lemma probe_prefix (content magic : list byte) :
  (length magic <= 32)%nat ->
  bytes_HasPrefix content magic = true ->
  bytes_HasPrefix (probe content) magic = true.
Proof.
  intros Hlen. rewrite !bytes_HasPrefix_app. intros [t ->].
  unfold probe. rewrite firstn_app.
  rewrite (firstn_all2 (n:=32) magic) by exact Hlen.
  rewrite <- app_assoc. eauto.
Qed.

Lemma Forall_range {K V} (table : list (K * V)) (r : Range table) P :
  Forall P table -> Forall P r.
Proof. apply Permutation_Forall, entries_perm. Qed.

Lemma Exists_range {K V} (table : list (K * V)) (r : Range table) P :
  Exists P table -> Exists P r.
Proof. apply Permutation_Exists, entries_perm. Qed.

Ltac check_table :=
  repeat (constructor;
          [cbn; try discriminate; try (intros _; reflexivity);
           try reflexivity |]);
  try constructor.

(** Only the PNG entry can match a buffer that begins with its magic. *)
Lemma png_buffer_entries filePath (t : list byte) :
  Forall (fun e => bytes_HasPrefix (pngSignature ++ t) e.1 = true ->
                   classified filePath e
                   = classified filePath (pngSignature, "image/png"))
    imageSignatures.
Proof. unfold imageSignatures. check_table. Qed.

(** C2. A file that begins with the eight bytes of the PNG signature is
    recognised with MIME type "image/nef" when the extension of its path
    equals ".NEF" up to letter case, and with "image/png" for every other
    extension, in whatever order the signature table is ranged over. *)
Theorem C2_png_signature_tiebreak
  (r : Range imageSignatures) (fs : FS) (filePath : string) :
  open_err (fs filePath) = None ->
  fault (fs filePath) = None ->
  bytes_HasPrefix (data (fs filePath)) pngSignature = true ->
  IsImage r fs filePath
  = (true,
     if strings_EqualFold (filepath_Ext filePath) ".NEF"
     then "image/nef" else "image/png",
     None).
Proof.
  intros Ho Hf Hsig. rewrite IsImage_readable by assumption.
  apply (probe_prefix _ pngSignature) in Hsig; [|simpl; lia].
  apply bytes_HasPrefix_app in Hsig as [t Ht]. rewrite Ht.
  apply (IsImage_loop_agree _ _ (classified filePath (pngSignature, "image/png"))).
  - apply Forall_range, png_buffer_entries.
  - apply Exists_range. unfold imageSignatures.
    do 13 apply Exists_cons_tl. apply Exists_cons_hd.
    apply bytes_HasPrefix_app. eauto.
Qed.

Definition png_file : File :=
  regular (pngSignature ++ bytes "....IHDR").

Lemma C2_png_signature_tiebreak_witness :
  IsImage (listed _) (fun _ => png_file) "DCIM/DSC_0001.nef"
    = (true, "image/nef", None)
  /\ IsImage (reversed _) (fun _ => png_file) "DCIM/shot.PNG"
    = (true, "image/png", None).
Proof.
  split.
  - exact (C2_png_signature_tiebreak (listed _) (fun _ => png_file)
             "DCIM/DSC_0001.nef" eq_refl eq_refl eq_refl).
  - exact (C2_png_signature_tiebreak (reversed _) (fun _ => png_file)
             "DCIM/shot.PNG" eq_refl eq_refl eq_refl).
Defined.

(** Two magics that are both prefixes of one buffer are comparable. *)
Lemma bytes_HasPrefix_comparable (b m1 m2 : list byte) :
  bytes_HasPrefix b m1 = true -> bytes_HasPrefix b m2 = true ->
  bytes_HasPrefix m1 m2 || bytes_HasPrefix m2 m1 = true.
Proof.
  revert b m2; induction m1 as [|p1 m1 IH]; intros b m2 H1 H2.
  - destruct m2; reflexivity.
  - destruct m2 as [|p2 m2]; [reflexivity|].
    destruct b as [|c b]; [discriminate|]. simpl in *.
    apply andb_true_iff in H1 as [E1 H1], H2 as [E2 H2].
    apply Byte.byte_dec_bl in E1, E2. subst.
    rewrite (Byte.byte_dec_lb eq_refl). simpl. eauto.
Qed.

Definition webpSignature : list byte := bytes "RIFF....WEBP".

(** In the table, two comparable magics carry the same MIME type unless
    one of them is the WEBP entry. *)
Definition comparable_agree (e1 e2 : list byte * string) : bool :=
  implb (bytes_HasPrefix e1.1 e2.1 || bytes_HasPrefix e2.1 e1.1)
    (String.eqb e1.2 e2.2
     || bytes_HasPrefix e1.1 webpSignature
     || bytes_HasPrefix e2.1 webpSignature).

Lemma table_comparable_agree :
  forallb (fun e1 => forallb (comparable_agree e1) imageSignatures)
    imageSignatures = true.
Proof. vm_compute. reflexivity. Qed.

Lemma bytes_HasPrefix_trans (b m1 m2 : list byte) :
  bytes_HasPrefix b m1 = true -> bytes_HasPrefix m1 m2 = true ->
  bytes_HasPrefix b m2 = true.
Proof.
  rewrite !bytes_HasPrefix_app. intros [t ->] [u ->].
  rewrite <- app_assoc. eauto.
Qed.

(** Classification does not depend on the order of the table, except for
    a file whose probe begins with the literal bytes [RIFF....WEBP]. *)
Lemma IsImage_order_independent (r1 r2 : Range imageSignatures) fs filePath :
  bytes_HasPrefix (probe (data (fs filePath))) webpSignature = false ->
  IsImage r1 fs filePath = IsImage r2 fs filePath.
Proof.
  intros Hw. unfold IsImage.
  destruct (open_err (fs filePath)); [reflexivity|].
  assert (Hb : (io_ReadFull (fs filePath) 32).1 = probe (data (fs filePath))).
  { unfold io_ReadFull, probe.
    destruct (32 <=? length (firstn 32 (data (fs filePath))))%nat; reflexivity. }
  destruct (io_ReadFull (fs filePath) 32) as [buffer err]. simpl in Hb. subst.
  match goal with |- (if ?c then _ else _) = _ => destruct c end;
    [reflexivity|].
  set (b := probe (data (fs filePath))) in *.
  destruct (recognized b) eqn:Hrec.
  - apply List.existsb_exists in Hrec as [e [Hin He]].
    assert (Hagree : Forall (fun e' => bytes_HasPrefix b e'.1 = true ->
                       classified filePath e' = classified filePath e)
                       imageSignatures).
    { apply List.Forall_forall. intros e' Hin' He'.
      pose proof table_comparable_agree as Ht.
      rewrite List.forallb_forall in Ht. specialize (Ht _ Hin').
      rewrite List.forallb_forall in Ht. specialize (Ht _ Hin).
      unfold comparable_agree in Ht.
      rewrite (bytes_HasPrefix_comparable b _ _ He' He) in Ht.
      cbn [implb] in Ht.
      apply orb_true_iff in Ht as [Ht|Ht];
        [apply orb_true_iff in Ht as [Ht|Ht]|].
      - apply String.eqb_eq in Ht. unfold classified. rewrite Ht. reflexivity.
      - rewrite (bytes_HasPrefix_trans b _ _ He' Ht) in Hw. discriminate.
      - rewrite (bytes_HasPrefix_trans b _ _ He Ht) in Hw. discriminate. }
    assert (Hex : Exists (fun e' => bytes_HasPrefix b e'.1 = true)
                    imageSignatures).
    { apply List.Exists_exists. eauto. }
    rewrite !(IsImage_loop_agree b filePath (classified filePath e));
      auto using Forall_range, Exists_range.
  - assert (Hnone : Forall (fun e => bytes_HasPrefix b e.1 = false)
                      imageSignatures).
    { apply List.Forall_forall. intros e Hin.
      destruct (bytes_HasPrefix b e.1) eqn:He; [|reflexivity].
      assert (recognized b = true) by (apply List.existsb_exists; eauto).
      congruence. }
    rewrite !IsImage_loop_none by (apply Forall_range; exact Hnone).
    reflexivity.
Qed.

Definition riff_webp_file : File := regular (bytes "RIFF....WEBPVP8 ").

(** C5. Classification is not deterministic: the signature table is a Go
    map, ranged over in no fixed order, and a file that begins with the
    bytes [RIFF....WEBP] matches two entries with different MIME types.
    The order in which the source lists them gives "image/webp", the
    opposite order "video/x-msvideo". *)
Theorem C5_classification_depends_on_map_order :
  IsImage (listed _) (fun _ => riff_webp_file) "clips/a.webp"
    = (true, "image/webp", None)
  /\ IsImage (reversed _) (fun _ => riff_webp_file) "clips/a.webp"
    = (true, "video/x-msvideo", None).
Proof. split; reflexivity. Qed.

Definition short_tiff_file : File := regular (bytes "II*").

(** C6. A file of the three bytes [II*] is shorter than the probe and none
    of the signatures is a prefix of its bytes, yet it is recognised as
    "image/tiff": the comparison runs over the whole zeroed 32-byte buffer,
    and the zero that follows the three bytes read completes the
    little-endian TIFF magic. *)
Theorem C6_short_file_matches_through_padding
  (r : Range imageSignatures) (filePath : string) :
  (length (data short_tiff_file) < 32)%nat
  /\ Forall (fun e => bytes_HasPrefix (data short_tiff_file) e.1 = false)
       imageSignatures
  /\ IsImage r (fun _ => short_tiff_file) filePath
     = (true, "image/tiff", None).
Proof.
  split; [simpl; lia|]. split.
  - unfold imageSignatures. check_table.
  - rewrite IsImage_readable by reflexivity.
    apply (IsImage_loop_agree _ _
             (classified filePath (bytes "II*" ++ [x00], "image/tiff"))).
    + apply Forall_range. unfold imageSignatures. check_table.
    + apply Exists_range. unfold imageSignatures.
      do 6 apply Exists_cons_tl. apply Exists_cons_hd. reflexivity.
Qed.

(** What does hold for short files: when the zero-padded probe matches no
    signature, the file is not recognised and there is no error. *)
Lemma IsImage_short_unmatched (r : Range imageSignatures) fs filePath :
  open_err (fs filePath) = None ->
  fault (fs filePath) = None ->
  recognized (probe (data (fs filePath))) = false ->
  IsImage r fs filePath = (false, "", None).
Proof.
  intros Ho Hf Hrec. rewrite IsImage_readable by assumption.
  apply IsImage_loop_none, Forall_range, List.Forall_forall. intros e Hin.
  destruct (bytes_HasPrefix _ e.1) eqn:He; [|reflexivity].
  assert (recognized (probe (data (fs filePath))) = true)
    by (apply List.existsb_exists; eauto).
  congruence.
Qed.

(** A read error other than [io.EOF] and [io.ErrUnexpectedEOF], met before
    the probe is full, is returned. *)
Lemma IsImage_read_fault (r : Range imageSignatures) fs filePath e :
  open_err (fs filePath) = None ->
  (length (data (fs filePath)) < 32)%nat ->
  fault (fs filePath) = Some e ->
  e <> io_EOF -> e <> io_ErrUnexpectedEOF ->
  IsImage r fs filePath = (false, "", Some e).
Proof.
  intros Ho Hlen Hf H1 H2. unfold IsImage, io_ReadFull. rewrite Ho, Hf.
  rewrite firstn_all2 by lia.
  destruct (Nat.leb_spec 32 (length (data (fs filePath)))); [lia|].
  rewrite (bool_decide_eq_false_2 (e = io_EOF)) by assumption.
  rewrite andb_false_r. simpl.
  rewrite !bool_decide_eq_false_2 by congruence. reflexivity.
Qed.


(** ** The store *)

Section Store.
Context `{JSON}.

Lemma cache_Set_no_expiry c now k x :
  cache_Set c now k x (-1)
  = mkCache (defaultExpiration c) (<[k := mkItem x 0]> (items c)).
Proof. reflexivity. Qed.

Lemma cache_Get_Set_eq c now now' k x :
  cache_Get (cache_Set c now k x (-1)) now' k = Some x.
Proof.
  rewrite cache_Set_no_expiry. unfold cache_Get. simpl.
  rewrite lookup_insert_eq. reflexivity.
Qed.

Lemma cache_Get_Set_ne c now now' k k' x :
  k <> k' ->
  cache_Get (cache_Set c now k x (-1)) now' k' = cache_Get c now' k'.
Proof.
  intros Hne. rewrite cache_Set_no_expiry. unfold cache_Get. simpl.
  rewrite lookup_insert_ne by assumption. reflexivity.
Qed.

Lemma FastCache_Set_items x now key value :
  FastCache_Set x now key value (-1)
  = mkFastCache (persistFile x)
      (mkCache (defaultExpiration (cache x))
         (<[key := mkItem (json_Marshal value) 0]> (items (cache x)))).
Proof. reflexivity. Qed.

(** What was set is what is got, at any later time. *)
Lemma FastCache_Get_Set_eq x now now' key value obj :
  FastCache_Get (FastCache_Set x now key value (-1)) now' key obj
  = (Some value, true).
Proof.
  unfold FastCache_Get, FastCache_Set, toJSON, set_cache. cbn [cache].
  rewrite cache_Get_Set_eq. unfold fromJSON.
  rewrite json_Unmarshal_Marshal. reflexivity.
Qed.

Lemma FastCache_Get_Set_ne x now now' key key' value obj :
  key <> key' ->
  FastCache_Get (FastCache_Set x now key value (-1)) now' key' obj
  = FastCache_Get x now' key' obj.
Proof.
  intros Hne. unfold FastCache_Get, FastCache_Set, toJSON, set_cache.
  cbn [cache]. rewrite cache_Get_Set_ne by assumption. reflexivity.
Qed.



End Store.

(** ** The record through the checks and the naming *)

Lemma wrap32_small z : (MinInt32 <= z <= MaxInt32)%Z -> wrap32 z = z.
Proof.
  unfold wrap32, MinInt32, MaxInt32. intros Hz.
  rewrite Z.mod_small by lia. lia.
Qed.


Lemma wrap32_MaxInt32_succ : wrap32 (MaxInt32 + 1) = MinInt32.
Proof. reflexivity. Qed.

Lemma wrap32_range z : (MinInt32 <= wrap32 z <= MaxInt32)%Z.
Proof.
  unfold wrap32, MinInt32, MaxInt32.
  pose proof (Z.mod_pos_bound (z + 2 ^ 31) (2 ^ 32) ltac:(lia)). lia.
Qed.

(** The fields a step leaves alone. *)
Definition same_origin (x y : ImageFileInfo) : Prop :=
  FilePath y = FilePath x /\ MD5 y = MD5 x /\ Duplicates y = Duplicates x.

Lemma same_origin_refl x : same_origin x x.
Proof. repeat split. Qed.

Lemma same_origin_trans x y z :
  same_origin x y -> same_origin y z -> same_origin x z.
Proof. unfold same_origin. intuition congruence. Qed.

Lemma IsNEF_same_origin x : same_origin x (IsNEF x).1.
Proof. unfold IsNEF. destruct (strings_EqualFold _ _); repeat split. Qed.

Lemma IsHEIC_same_origin x : same_origin x (IsHEIC x).1.
Proof. unfold IsHEIC. destruct (strings_EqualFold _ _); repeat split. Qed.

Lemma checks_same_origin x : same_origin x (IsJPEG_or_IsNEF_or_IsHEIC x).1.
Proof.
  unfold IsJPEG_or_IsNEF_or_IsHEIC.
  destruct (IsJPEG x); [apply same_origin_refl|].
  pose proof (IsNEF_same_origin x) as Hn.
  destruct (IsNEF x) as [y nef]. simpl in Hn.
  destruct nef; [exact Hn|].
  eapply same_origin_trans; [exact Hn | apply IsHEIC_same_origin].
Qed.

Lemma SetFileName_same_origin rev x : same_origin x (SetFileName rev x).
Proof.
  destruct rev; unfold SetFileName, ImageFileInfoA.SetFileName,
    ImageFileInfoB.SetFileName;
    destruct (negb _); repeat split.
Qed.

Lemma GetJpegCreatedAt_same_origin `{Exif} rev fs x y err :
  GetJpegCreatedAt rev fs x = Ret (y, err) -> same_origin x y.
Proof.
  destruct rev; unfold GetJpegCreatedAt, ImageFileInfoA.GetJpegCreatedAt,
    ImageFileInfoB.GetJpegCreatedAt;
    destruct (exif_SearchFileAndExtractExif _) as [e|raw];
    try (intros [= <- <-]; apply same_origin_refl);
    destruct (exif_GetFlatExifData raw) as [e|tags];
    try (intros [= <- <-]; apply same_origin_refl).
  - destruct (time_Parse _); intros [= <- <-]; repeat split.
  - destruct (ImageFileInfoB.scan_tags tags "") as [[e|t]| |]; simpl;
      try discriminate; try (intros [= <- <-]; apply same_origin_refl).
    destruct (String.eqb t "");
      [intros [= <- <-]; apply same_origin_refl|].
    destruct (time_Parse t); intros [= <- <-]; repeat split.
Qed.

(** ** The walk *)

(** The content-derived key of a file. *)
Definition fingerprint `{Hash} (content : list byte) : string :=
  hex_EncodeToString (md5_Sum content).

(** A visit that reaches the store: the file opens and reads without a
    fault, its name and extension are not skipped, and its probe matches a
    signature. *)
Definition processed (fs : FS) (content : list byte) (v : Visit) : Prop :=
  open_err (fs (filePath v)) = None
  /\ fault (fs (filePath v)) = None
  /\ data (fs (filePath v)) = content
  /\ (IgnoreByName (filePath v)).1 = false
  /\ (IgnoreByExtension (extRange v) (filePath v)).1 = false
  /\ recognized (probe content) = true.

Definition mime_of (fs : FS) (v : Visit) : string :=
  (IsImage (sigRange v) fs (filePath v)).1.2.

Section WalkFacts.
Context `{Hash} `{Exif} `{JSON}.
Variable entry : EntryPoint.
Variable rev : Revision.
Variable fs : FS.
Variable outPath : string.

Lemma walkFn_processed st v content :
  processed fs content v ->
  walkFn entry rev fs outPath st v
  = match FastCache_Get (db (count_file st)) (now v) (fingerprint content)
            zero_ImageFileInfo with
    | (Some fi, true) =>
        Ret (duplicate (count_file st) v (fingerprint content) fi)
    | (None, true) => Panic "interface conversion: interface is nil"
    | (_, false) =>
        original entry rev fs outPath (count_file st) v (mime_of fs v)
          (fingerprint content)
    end.
Proof.
  intros (Ho & Hf & Hd & Hn & He & Hr). unfold walkFn, mime_of.
  destruct (IgnoreByName (filePath v)) as [b1 s1]. simpl in Hn. subst b1.
  destruct (IgnoreByExtension (extRange v) (filePath v)) as [b2 s2].
  simpl in He. subst b2.
  pose proof (IsImage_readable (sigRange v) fs (filePath v) Ho Hf) as Hi.
  pose proof (IsImage_loop_range_recognized (probe content) (filePath v)
                (sigRange v)) as Hrec.
  pose proof (IsImage_loop_error (probe content) (filePath v) (sigRange v))
    as Herr.
  rewrite Hd in Hi. rewrite Hi.
  destruct (IsImage_loop (probe content) (filePath v) (sigRange v))
    as [[isImg mime] err].
  simpl in Hrec, Herr. subst err. rewrite Hr in Hrec. subst isImg.
  unfold CalculateMD5, read_fault. rewrite Ho, Hf, Hd.
  fold (fingerprint content).
  cbn [count_file db fst snd].
  destruct (FastCache_Get (db st) (now v) (fingerprint content)
              zero_ImageFileInfo) as [[fi|] [|]]; reflexivity.
Qed.

(** A first-seen file whose branch returns: one record is set under the
    fingerprint, made from the path and fingerprint with no duplicates,
    and one copy is made, of this file. *)
Lemma original_Ret st st' v mimeType md5 :
  original entry rev fs outPath st v mimeType md5 = Ret st' ->
  exists fi outFile,
    st' = CopyFile (set_db st (FastCache_Set (db st) (now v) md5 fi (-1)))
            (filePath v) (outPath ++ "/" ++ outFile)%string
    /\ same_origin (NewImageFileInfo (filePath v) mimeType md5) fi.
Proof.
  unfold original, MainPath_original, MainIn_original.
  pose proof (checks_same_origin (NewImageFileInfo (filePath v) mimeType md5))
    as Hchk.
  destruct (IsJPEG_or_IsNEF_or_IsHEIC _) as [fi exifKind]. simpl in Hchk.
  destruct entry, exifKind; cbn [mbind Result_bind].
  - pose proof (GetJpegCreatedAt_same_origin rev fs fi) as Hg.
    destruct (GetJpegCreatedAt rev fs fi) as [[fi' [e|]]| |];
      cbn [mbind Result_bind]; try discriminate;
      specialize (Hg _ _ eq_refl).
    + pose proof (IsNEF_same_origin fi') as Hn.
      destruct (IsNEF fi') as [fi'' nef]. simpl in Hn.
      destruct nef; [discriminate|]. cbn [mbind Result_bind].
      intros [= <-]. do 2 eexists. split; [reflexivity|].
      eauto using same_origin_trans.
    + intros [= <-]. do 2 eexists. split; [reflexivity|].
      eapply same_origin_trans; [exact Hchk|].
      eapply same_origin_trans; [exact Hg|].
      pose proof (SetFileName_same_origin rev fi') as Hs.
      destruct Hs as (? & ? & ?). repeat split; assumption.
  - intros [= <-]. do 2 eexists. split; [reflexivity | exact Hchk].
  - pose proof (GetJpegCreatedAt_same_origin rev fs fi) as Hg.
    destruct (GetJpegCreatedAt rev fs fi) as [[fi' [e|]]| |];
      cbn [mbind Result_bind]; try discriminate;
      specialize (Hg _ _ eq_refl);
      intros [= <-]; do 2 eexists; (split; [reflexivity|]);
      (eapply same_origin_trans; [exact Hchk|]);
      (eapply same_origin_trans; [exact Hg|]);
      pose proof (SetFileName_same_origin rev (set_HasExif fi' false)) as Hs;
      pose proof (SetFileName_same_origin rev (set_HasExif fi' true)) as Hs';
      destruct Hs as (? & ? & ?), Hs' as (? & ? & ?);
      repeat split; assumption.
  - intros [= <-]. do 2 eexists. split; [reflexivity|].
    eapply same_origin_trans; [exact Hchk|]. apply SetFileName_same_origin.
Qed.

(** One more file with the same content, once the record is there: the
    count goes up by one, wrapping as an int32 does, and nothing else
    changes. *)
Lemma walkFn_duplicate st v content fi :
  processed fs content v ->
  FastCache_Get (db st) (now v) (fingerprint content) zero_ImageFileInfo
    = (Some fi, true) ->
  walkFn entry rev fs outPath st v
  = Ret (duplicate (count_file st) v (fingerprint content) fi).
Proof.
  intros Hp Hg. rewrite (walkFn_processed st v content Hp).
  cbn [count_file db]. rewrite Hg. reflexivity.
Qed.

End WalkFacts.

(** ** Files with identical content *)



Section Identical.
Context `{Hash} `{Exif} `{JSON}.
Variable entry : EntryPoint.
Variable rev : Revision.
Variable fs : FS.
Variable outPath : string.
Variable content : list byte.






End Identical.



Import Sample.

Definition start : State := initial (empty_store "originals/photoz.db").

Ltac run := vm_compute; repeat split; reflexivity.

(** The sample tree walked by each entry point. *)
Definition sample_visits : list Visit :=
  Sample.visit <$>
    ["backups/2021/a.jpg"; "backups/copy/b.jpg"; "backups/plain.jpg";
     "backups/zero.jpg"; "backups/shot.png"; "backups/photo.heic";
     "backups/._a.jpg"; "backups/notes.txt"; "backups/gone.jpg"].

Definition copies_of (r : Result State) : option (list (string * string)) :=
  match r with Ret st => Some (copies st) | _ => None end.

Example run_MainIn :
  copies_of (Walk MainIn RevB Sample.disk "originals" sample_visits start)
  = Some [("backups/2021/a.jpg", "originals/1614834367_651d_a.jpg");
          ("backups/plain.jpg", "originals/0000000000_320a_plain.jpg");
          ("backups/zero.jpg", "originals/0000000000_471d_zero.jpg");
          ("backups/shot.png", "originals/0000000000_8810_shot.png")].
Proof. vm_compute. reflexivity. Qed.

Example run_MainPath :
  copies_of (Walk MainPath RevA Sample.disk "originals" sample_visits start)
  = Some [("backups/2021/a.jpg", "originals/2021-03-04T05:06:07Z_651d_a.jpg");
          ("backups/plain.jpg", "originals/320a_plain.jpg");
          ("backups/zero.jpg", "originals/471d_zero.jpg");
          ("backups/shot.png", "originals/8810_shot.png")].
Proof. vm_compute. reflexivity. Qed.

(** [src/main.go] ends the process on a first-seen [.NEF] file whose
    capture time cannot be extracted. *)
Example run_MainPath_NEF :
  walkFn MainPath RevB Sample.disk "originals" start
    (Sample.visit "backups/DSC_0001.NEF") = Exit 1.
Proof. vm_compute. reflexivity. Qed.

(** The later revision panics on a capture-time tag that is not a
    string. *)
Example run_RevB_panics :
  walkFn MainIn RevB
    (fun _ => regular (Sample.jpegSignature ++ bytes "..Exif#2021"))
    "originals" start (Sample.visit "backups/odd.jpg")
  = Panic "interface conversion: not a string".
Proof. vm_compute. reflexivity. Qed.











(** C9, as the code has it. A file whose fingerprint is found in the store
    changes only the [Duplicates] field of that record, to one more
    reduced to an int32: one more whenever the count was below 2^31-1.
    The other six fields keep their values, the other records are
    untouched, and no copy is made. *)
Theorem C9_duplicate_hit_only_counts `{Hash} `{Exif} `{JSON}
  (entry : EntryPoint) (rev : Revision) (fs : FS) (outPath : string)
  (content : list byte) (st : State) (v : Visit) (r : ImageFileInfo) :
  processed fs content v ->
  FastCache_Get (db st) (now v) (fingerprint content) zero_ImageFileInfo
    = (Some r, true) ->
  exists st' r',
    walkFn entry rev fs outPath st v = Ret st'
    /\ (forall now' obj,
          FastCache_Get (db st') now' (fingerprint content) obj
          = (Some r', true))
    /\ Duplicates r' = wrap32 (Duplicates r + 1)
    /\ ((MinInt32 <= Duplicates r < MaxInt32)%Z ->
        Duplicates r' = (Duplicates r + 1)%Z)
    /\ FilePath r' = FilePath r /\ MimeType r' = MimeType r
    /\ MD5 r' = MD5 r /\ FileName r' = FileName r
    /\ OriginalDateTime r' = OriginalDateTime r /\ HasExif r' = HasExif r
    /\ copies st' = copies st
    /\ (forall key, key <> fingerprint content ->
          items (cache (db st')) !! key = items (cache (db st)) !! key).
Proof.
  intros Hp Hg.
  exists (duplicate (count_file st) v (fingerprint content) r),
         (set_Duplicates r (wrap32 (Duplicates r + 1))).
  split; [exact (walkFn_duplicate entry rev fs outPath st v content r Hp Hg)|].
  split; [intros now' obj; apply FastCache_Get_Set_eq|].
  split; [reflexivity|].
  split; [intros Hr; cbn; apply wrap32_small; unfold MinInt32, MaxInt32 in *;
          lia|].
  repeat (split; [reflexivity|]).
  intros key Hne. cbn. rewrite lookup_insert_ne by congruence. reflexivity.
Qed.

Definition shot_record (duplicates : Z) : ImageFileInfo :=
  mkImageFileInfo "backups/shot.png" "image/png" "8810"
    "0000000000_8810_shot.png" "" duplicates false.

Definition seen_once : State :=
  mkState
    (FastCache_Set (empty_store "originals/photoz.db") 0 "8810"
       (shot_record 0) (-1))
    1 [("backups/shot.png", "originals/0000000000_8810_shot.png")].

Lemma seen_once_Get :
  FastCache_Get (db seen_once) (now (Sample.visit "backups/photo.heic"))
    (fingerprint (data Sample.png)) zero_ImageFileInfo
  = (Some (shot_record 0), true).
Proof. vm_compute. reflexivity. Qed.

Lemma C9_duplicate_hit_only_counts_witness :
  exists st' r',
    walkFn MainIn RevB Sample.disk "originals" seen_once
      (Sample.visit "backups/photo.heic") = Ret st'
    /\ (forall now' obj,
          FastCache_Get (db st') now' "8810" obj = (Some r', true))
    /\ Duplicates r' = 1%Z
    /\ FilePath r' = "backups/shot.png" /\ MimeType r' = "image/png"
    /\ FileName r' = "0000000000_8810_shot.png"
    /\ copies st' = copies seen_once.
Proof.
  assert (Hp : processed Sample.disk (data Sample.png)
                 (Sample.visit "backups/photo.heic")) by run.
  destruct (C9_duplicate_hit_only_counts MainIn RevB Sample.disk "originals"
              (data Sample.png) seen_once (Sample.visit "backups/photo.heic")
              _ Hp seen_once_Get)
    as (st' & r' & Hw & Hg & _ & Hd & Hf & Hm & _ & Hn & _ & _ & Hc & _).
  exists st', r'. split; [exact Hw|]. split; [exact Hg|].
  split; [apply Hd; vm_compute; repeat split; discriminate|].
  split; [exact Hf|]. split; [exact Hm|]. split; [exact Hn|]. exact Hc.
Defined.

Definition seen_often : State :=
  mkState
    (FastCache_Set (empty_store "originals/photoz.db") 0 "8810"
       (shot_record MaxInt32) (-1))
    1 [("backups/shot.png", "originals/0000000000_8810_shot.png")].

(** A record whose count is 2^31-1 and one more file with its content: the
    count is then -2^31, not 2^31. *)
Lemma C9_counterexample_count_wraps :
  exists r st' r',
    FastCache_Get (db seen_often) 0 "8810" zero_ImageFileInfo = (Some r, true)
    /\ Duplicates r = 2147483647%Z
    /\ walkFn MainIn RevB Sample.disk "originals" seen_often
         (Sample.visit "backups/photo.heic") = Ret st'
    /\ FastCache_Get (db st') 0 "8810" zero_ImageFileInfo = (Some r', true)
    /\ Duplicates r' = (-2147483648)%Z.
Proof. do 3 eexists. vm_compute. repeat split. Qed.

(** ** Capture time and naming *)

Lemma Sprintf_d_nonempty z : String.eqb (Sprintf_d z) "" = false.
Proof.
  unfold Sprintf_d. destruct (Z.to_int z) as [d|d]; [|reflexivity].
  destruct d; reflexivity.
Qed.

Lemma append_nonempty (a b : string) :
  String.eqb b "" = false -> String.eqb (String.append a b) "" = false.
Proof. destruct a; [trivial | reflexivity]. Qed.

Lemma Format_RFC3339_nonempty t : String.eqb (Format_RFC3339 t) "" = false.
Proof. unfold Format_RFC3339. apply append_nonempty. reflexivity. Qed.

(** What a returning [GetJpegCreatedAt] does to the record: nothing, with
    an error; or a non-empty [OriginalDateTime], with none. *)
Lemma GetJpegCreatedAt_Ret `{Exif} rev fs x y err :
  GetJpegCreatedAt rev fs x = Ret (y, err) ->
  (err <> None /\ y = x)
  \/ (err = None /\ exists t, String.eqb t "" = false
                              /\ y = set_OriginalDateTime x t).
Proof.
  destruct rev; unfold GetJpegCreatedAt, ImageFileInfoA.GetJpegCreatedAt,
    ImageFileInfoB.GetJpegCreatedAt;
    destruct (exif_SearchFileAndExtractExif _) as [e|raw];
    try (intros [= <- <-]; left; split; [discriminate | reflexivity]);
    destruct (exif_GetFlatExifData raw) as [e|tags];
    try (intros [= <- <-]; left; split; [discriminate | reflexivity]).
  - destruct (time_Parse _) as [e|date]; intros [= <- <-].
    + left. split; [discriminate | reflexivity].
    + right. split; [reflexivity|]. eexists. split; [|reflexivity].
      apply Format_RFC3339_nonempty.
  - destruct (ImageFileInfoB.scan_tags tags "") as [[e|t]| |]; simpl;
      try discriminate;
      try (intros [= <- <-]; left; split; [discriminate | reflexivity]).
    destruct (String.eqb t "");
      [intros [= <- <-]; left; split; [discriminate | reflexivity]|].
    destruct (time_Parse t) as [e|date]; intros [= <- <-].
    + left. split; [discriminate | reflexivity].
    + right. split; [reflexivity|]. eexists. split; [|reflexivity].
      apply Sprintf_d_nonempty.
Qed.

Lemma SetFileName_dated rev x :
  String.eqb (OriginalDateTime x) "" = false ->
  SetFileName rev x
  = set_FileName x (OriginalDateTime x ++ "_" ++ MD5 x ++ "_"
                    ++ filepath_Base (FilePath x)).
Proof.
  intros Ht. destruct rev; unfold SetFileName, ImageFileInfoA.SetFileName,
    ImageFileInfoB.SetFileName; rewrite Ht; reflexivity.
Qed.

Lemma SetFileName_undated rev x :
  OriginalDateTime x = "" ->
  SetFileName rev x
  = set_FileName x (fallback_token rev ++ "_" ++ MD5 x ++ "_"
                    ++ filepath_Base (FilePath x)).
Proof.
  intros Ht. destruct rev; unfold SetFileName, ImageFileInfoA.SetFileName,
    ImageFileInfoB.SetFileName; rewrite Ht; reflexivity.
Qed.










Lemma checks_fields x :
  let y := (IsJPEG_or_IsNEF_or_IsHEIC x).1 in
  FilePath y = FilePath x /\ MD5 y = MD5 x
  /\ OriginalDateTime y = OriginalDateTime x.
Proof.
  unfold IsJPEG_or_IsNEF_or_IsHEIC, IsNEF, IsHEIC.
  destruct (IsJPEG x); [repeat split|].
  destruct (strings_EqualFold (filepath_Ext (FilePath x)) ".NEF");
    [repeat split|].
  destruct (strings_EqualFold (filepath_Ext (FilePath x)) ".HEIC");
    repeat split.
Qed.









Section Naming.
Context `{Hash} `{Exif} `{JSON}.
Variable entry : EntryPoint.
Variable rev : Revision.
Variable fs : FS.
Variable outPath : string.

(** The name a first-seen file is copied under when no capture time was
    extracted, in each entry point. *)
Definition undated_name (md5 filePath : string) : string :=
  match entry with
  | MainPath => md5 ++ "_" ++ filepath_Base filePath
  | MainIn => fallback_token rev ++ "_" ++ md5 ++ "_" ++ filepath_Base filePath
  end.

(** A first-seen file whose branch returns, in full: the record stored
    has the MIME type left by the three checks, and the copy is named
    after the capture time when one was extracted. *)
Ltac by_entry := first [discriminate | intros _; reflexivity].

Lemma original_stored st st' v mimeType md5 :
  original entry rev fs outPath st v mimeType md5 = Ret st' ->
  exists fi outFile,
    st' = CopyFile (set_db st (FastCache_Set (db st) (now v) md5 fi (-1)))
            (filePath v) (outPath ++ "/" ++ outFile)%string
    /\ MimeType fi
       = MimeType (IsJPEG_or_IsNEF_or_IsHEIC
                     (NewImageFileInfo (filePath v) mimeType md5)).1
    /\ (entry = MainIn -> FileName fi = outFile)
    /\ ((String.eqb (OriginalDateTime fi) "" = false
         /\ outFile = (OriginalDateTime fi ++ "_" ++ md5 ++ "_"
                       ++ filepath_Base (filePath v))%string)
        \/ (OriginalDateTime fi = ""
            /\ outFile = undated_name md5 (filePath v))).
Proof.
  unfold original, MainPath_original, MainIn_original, undated_name.
  destruct (checks_fields (NewImageFileInfo (filePath v) mimeType md5))
    as (Hfp & Hmd & Hodt).
  cbn [FilePath MD5 OriginalDateTime NewImageFileInfo] in Hfp, Hmd, Hodt.
  destruct (IsJPEG_or_IsNEF_or_IsHEIC _) as [fi exifKind].
  cbn [fst] in *.
  destruct entry, exifKind; cbn [mbind Result_bind].
  - pose proof (GetJpegCreatedAt_Ret rev fs fi) as Hg.
    destruct (GetJpegCreatedAt rev fs fi) as [[fi' [e|]]| |];
      cbn [mbind Result_bind]; try discriminate;
      destruct (Hg _ _ eq_refl) as [[Herr ->]|[Herr (t & Ht & ->)]];
      try congruence.
    + unfold IsNEF.
      destruct (strings_EqualFold (filepath_Ext (FilePath fi)) ".NEF");
        [discriminate|]. cbn [mbind Result_bind].
      intros [= <-]. do 2 eexists. split; [reflexivity|].
      split; [reflexivity|]. split; [by_entry|]. right. split; [exact Hodt | reflexivity].
    + intros [= <-]. do 2 eexists. split; [reflexivity|].
      rewrite SetFileName_dated by exact Ht.
      split; [reflexivity|]. split; [by_entry|]. left. cbn. rewrite Hfp, Hmd.
      split; [exact Ht | reflexivity].
  - intros [= <-]. do 2 eexists. split; [reflexivity|].
    split; [reflexivity|]. split; [by_entry|]. right. split; [exact Hodt | reflexivity].
  - pose proof (GetJpegCreatedAt_Ret rev fs fi) as Hg.
    destruct (GetJpegCreatedAt rev fs fi) as [[fi' [e|]]| |];
      cbn [mbind Result_bind]; try discriminate;
      destruct (Hg _ _ eq_refl) as [[Herr ->]|[Herr (t & Ht & ->)]];
      try congruence.
    + intros [= <-]. do 2 eexists. split; [reflexivity|].
      rewrite SetFileName_undated by exact Hodt.
      split; [reflexivity|]. split; [by_entry|]. right. cbn. rewrite Hfp, Hmd.
      split; [exact Hodt | reflexivity].
    + intros [= <-]. do 2 eexists. split; [reflexivity|].
      rewrite SetFileName_dated by exact Ht.
      split; [reflexivity|]. split; [by_entry|]. left. cbn. rewrite Hfp, Hmd.
      split; [exact Ht | reflexivity].
  - intros [= <-]. do 2 eexists. split; [reflexivity|].
    rewrite SetFileName_undated by exact Hodt.
    split; [reflexivity|]. split; [by_entry|]. right. cbn. rewrite Hfp, Hmd.
    split; [exact Hodt | reflexivity].
Qed.

End Naming.

Section FirstSeen.
Context `{Hash} `{Exif} `{JSON}.
Variable entry : EntryPoint.
Variable rev : Revision.
Variable fs : FS.
Variable outPath : string.

Lemma walkFn_first_seen st v content r :
  processed fs content v ->
  FastCache_Get (db st) (now v) (fingerprint content) zero_ImageFileInfo
    = (r, false) ->
  walkFn entry rev fs outPath st v
  = original entry rev fs outPath (count_file st) v (mime_of fs v)
      (fingerprint content).
Proof.
  intros Hp Hg. rewrite (walkFn_processed entry rev fs outPath st v content Hp).
  cbn [count_file db]. rewrite Hg. destruct r; reflexivity.
Qed.


(** The earlier revision under the entry point with flag [-in] has no
    way to end the process: a first-seen file always returns. *)
Lemma MainIn_RevA_original_returns st v mimeType md5 :
  exists st', original MainIn RevA fs outPath st v mimeType md5 = Ret st'.
Proof.
  unfold original, MainIn_original.
  destruct (IsJPEG_or_IsNEF_or_IsHEIC _) as [fi [|]];
    cbn [mbind Result_bind]; [|eauto].
  cbn [GetJpegCreatedAt]. unfold ImageFileInfoA.GetJpegCreatedAt.
  destruct (exif_SearchFileAndExtractExif _) as [e|raw];
    cbn [mbind Result_bind]; [eauto|].
  destruct (exif_GetFlatExifData raw) as [e|tags];
    cbn [mbind Result_bind]; [eauto|].
  destruct (time_Parse _); cbn [mbind Result_bind]; eauto.
Qed.

End FirstSeen.

(** C3, as [src/main.go] has it. A first-seen recognised file is copied
    under <capture-timestamp>_<fingerprint>_<base> when a capture
    timestamp was extracted; when none was, this entry point copies it
    under <fingerprint>_<base>, with no fallback token. *)
Theorem C3_MainPath_undated_name_has_no_token `{Hash} `{Exif} `{JSON}
  (rev : Revision) (fs : FS) (outPath : string) (content : list byte)
  (st st' : State) (v : Visit) (r : option ImageFileInfo) :
  processed fs content v ->
  FastCache_Get (db st) (now v) (fingerprint content) zero_ImageFileInfo
    = (r, false) ->
  walkFn MainPath rev fs outPath st v = Ret st' ->
  exists fi outFile,
    (forall now' obj,
       FastCache_Get (db st') now' (fingerprint content) obj = (Some fi, true))
    /\ copies st' = copies st ++ [(filePath v, (outPath ++ "/" ++ outFile)%string)]
    /\ (String.eqb (OriginalDateTime fi) "" = false ->
        outFile = (OriginalDateTime fi ++ "_" ++ fingerprint content ++ "_"
                   ++ filepath_Base (filePath v))%string)
    /\ (OriginalDateTime fi = "" ->
        outFile = (fingerprint content ++ "_"
                   ++ filepath_Base (filePath v))%string).
Proof.
  intros Hp Hg Hw.
  rewrite (walkFn_first_seen MainPath rev fs outPath st v content r Hp Hg) in Hw.
  apply original_stored in Hw as (fi & outFile & -> & _ & _ & Hname).
  exists fi, outFile.
  split; [intros now' obj; apply FastCache_Get_Set_eq|].
  split; [reflexivity|].
  destruct Hname as [[Ht ->]|[Ht ->]]; split; intros Ht'; try reflexivity;
    try (rewrite Ht' in Ht; discriminate);
    rewrite Ht in Ht'; discriminate.
Qed.

Lemma plain_jpg_MainPath :
  exists st',
    walkFn MainPath RevB Sample.disk "originals" start
      (Sample.visit "backups/plain.jpg") = Ret st'
    /\ copies st' = [("backups/plain.jpg", "originals/320a_plain.jpg")].
Proof. eexists. vm_compute. split; reflexivity. Qed.

Lemma C3_MainPath_undated_name_has_no_token_witness :
  exists st' fi outFile,
    walkFn MainPath RevB Sample.disk "originals" start
      (Sample.visit "backups/plain.jpg") = Ret st'
    /\ (forall now' obj,
          FastCache_Get (db st') now' "320a" obj = (Some fi, true))
    /\ copies st' = [("backups/plain.jpg", ("originals" ++ "/" ++ outFile)%string)]
    /\ copies st' = [("backups/plain.jpg", "originals/320a_plain.jpg")].
Proof.
  destruct plain_jpg_MainPath as (st' & Hw & Hc).
  assert (Hp : processed Sample.disk (data Sample.jpeg_plain)
                 (Sample.visit "backups/plain.jpg")) by run.
  destruct (C3_MainPath_undated_name_has_no_token RevB Sample.disk "originals"
              (data Sample.jpeg_plain) start st'
              (Sample.visit "backups/plain.jpg") None Hp eq_refl Hw)
    as (fi & outFile & Hg & Hc' & _).
  exists st', fi, outFile. repeat split; assumption.
Defined.





(** ** Loading and persisting the store *)

(** C4, as the code has it. Loading from a path that does not exist
    yields an empty store together with the not-exist error of opening
    the file; both entry points let exactly that error pass and go on with
    the empty store. Loading a file that exists and does not decode
    returns the decoding error to the caller, and the entry points stop. *)
Theorem C4_load_missing_and_malformed `{Gob}
  (fs : FS) (now : Z) (dbPath : string) :
  (open_err (fs dbPath) = Some fs_ErrNotExist ->
   NewPersistentCache fs now dbPath
     = (empty_store dbPath, Some fs_ErrNotExist)
   /\ initialize_db fs now dbPath = Ret (empty_store dbPath))
  /\ (forall e,
        open_err (fs dbPath) = None -> fault (fs dbPath) = None ->
        gob_Decode (data (fs dbPath)) = inl e ->
        NewPersistentCache fs now dbPath = (empty_store dbPath, Some e)
        /\ (os_IsNotExist e = false -> initialize_db fs now dbPath = Exit 0)).
Proof.
  split.
  - intros Ho. unfold initialize_db, NewPersistentCache, cache_LoadFile.
    cbn [cache]. rewrite Ho. split; reflexivity.
  - intros e Ho Hf Hd.
    unfold initialize_db, NewPersistentCache, cache_LoadFile, read_fault.
    cbn [cache]. rewrite Ho, Hf, Hd. split; [reflexivity|].
    intros ->. reflexivity.
Qed.

(** Loading the database of a directory that has none is an error of the
    load operation: [NewPersistentCache] returns the not-exist error. *)
Lemma C4_counterexample_missing_file_is_an_error :
  NewPersistentCache (fun _ => missing) 0 "originals/photoz.db"
  = (empty_store "originals/photoz.db", Some fs_ErrNotExist).
Proof. reflexivity. Qed.

(** C8. Persisting the store and loading the file into a fresh store
    gives back the same items: the same keys, each with the same JSON
    text, hence the same record with the same fingerprint, count and
    filename, and the same listing. *)
Theorem C8_persist_then_load `{Gob} `{JSON}
  (x : FastCache) (fs : FS) (now : Z) :
  create_err (fs (persistFile x)) = None ->
  exists fs' x',
    FastCache_Persist x fs = (fs', None)
    /\ NewPersistentCache fs' now (persistFile x) = (x', None)
    /\ persistFile x' = persistFile x
    /\ items (cache x') = items (cache x)
    /\ (forall now' key obj,
          FastCache_Get x' now' key obj = FastCache_Get x now' key obj)
    /\ (forall now', FastCache_List x' now' = FastCache_List x now').
Proof.
  intros Hc. unfold FastCache_Persist, cache_SaveFile. rewrite Hc.
  eexists. exists (mkFastCache (persistFile x)
                     (mkCache (24 * Hour) (items (cache x)))).
  split; [reflexivity|].
  split.
  - unfold NewPersistentCache, cache_LoadFile. cbn [cache].
    rewrite String.eqb_refl. cbn [open_err fault data regular read_fault].
    rewrite gob_Decode_Encode. cbn [set_cache persistFile cache_New items
      defaultExpiration].
    do 3 f_equal. apply map_eq. intros k.
    rewrite lookup_merge, lookup_empty.
    destruct (items (cache x) !! k); reflexivity.
  - repeat split.
Qed.

Definition garbled_db : FS := fun path =>
  if String.eqb path "originals/photoz.db" then regular (bytes "not a gob")
  else missing.

Lemma garbled_db_does_not_decode :
  gob_Decode (data (garbled_db "originals/photoz.db"))
  = inl (Err "gob: bad data").
Proof. vm_compute. reflexivity. Qed.

Lemma C4_load_missing_and_malformed_witness :
  (NewPersistentCache Sample.disk 0 "originals/photoz.db"
     = (empty_store "originals/photoz.db", Some fs_ErrNotExist)
   /\ initialize_db Sample.disk 0 "originals/photoz.db"
      = Ret (empty_store "originals/photoz.db"))
  /\ (NewPersistentCache garbled_db 0 "originals/photoz.db"
        = (empty_store "originals/photoz.db", Some (Err "gob: bad data"))
      /\ initialize_db garbled_db 0 "originals/photoz.db" = Exit 0).
Proof.
  split.
  - exact (proj1 (C4_load_missing_and_malformed Sample.disk 0
                    "originals/photoz.db") eq_refl).
  - destruct (proj2 (C4_load_missing_and_malformed garbled_db 0
                       "originals/photoz.db")
                (Err "gob: bad data") eq_refl eq_refl
                garbled_db_does_not_decode) as [Hl Hi].
    split; [exact Hl | exact (Hi eq_refl)].
Defined.

Lemma C8_persist_then_load_witness :
  exists fs' x',
    FastCache_Persist (db seen_once) Sample.disk = (fs', None)
    /\ NewPersistentCache fs' 0 "originals/photoz.db" = (x', None)
    /\ items (cache x') = items (cache (db seen_once))
    /\ FastCache_Get x' 0 "8810" zero_ImageFileInfo
       = (Some (shot_record 0), true).
Proof.
  destruct (C8_persist_then_load (db seen_once) Sample.disk 0 eq_refl)
    as (fs' & x' & Hp & Hl & _ & Hi & Hg & _).
  exists fs', x'. split; [exact Hp|]. split; [exact Hl|].
  split; [exact Hi|]. rewrite Hg. reflexivity.
Defined.

(** * The rest of the program

    The functions of the same files that the properties above do not
    reach, and what the code shows about them. *)

(** ** Names and extensions *)

(** What [filepath.Ext] returns is empty or begins with a dot. *)
Definition dotted (s : string) : Prop :=
  s = "" \/ exists rest, s = String "." rest.

Lemma Ext_from_dotted path : forall acc,
  dotted acc -> dotted (Ext_from path acc).
Proof.
  induction path as [|c path IH]; intros acc Hacc; [exact Hacc|].
  cbn [Ext_from]. destruct (IsPathSeparator c).
  - apply IH. left. reflexivity.
  - destruct (Ascii.eqb_spec c ".") as [->|_].
    + apply IH. right. eauto.
    + apply IH, Hacc.
Qed.

Lemma filepath_Ext_dotted path : dotted (filepath_Ext path).
Proof. apply Ext_from_dotted. left. reflexivity. Qed.

(** A pattern in lower case. *)
Fixpoint lower (t : string) : string :=
  match t with
  | EmptyString => EmptyString
  | String c t' => String (to_lower c) (lower t')
  end.

Lemma prefix_head (p : ascii) (ps : string) (c : ascii) (s : string) :
  String.prefix (String p ps) (String c s) = true -> c = p.
Proof.
  cbn [String.prefix]. destruct (ascii_dec p c); [auto | discriminate].
Qed.

Lemma ascii_fold_eq_ascii sr tr : ascii_fold_eq sr tr = true -> is_ascii sr = true.
Proof.
  unfold ascii_fold_eq. intros Hf.
  apply andb_true_iff in Hf as [Hf _]. apply andb_true_iff in Hf as [Hf _].
  exact Hf.
Qed.

Lemma ascii_fold_eq_lower sr tr :
  ascii_fold_eq sr tr = true -> to_lower tr = to_lower sr.
Proof.
  unfold ascii_fold_eq. intros Hf. apply andb_true_iff in Hf as [_ Hf].
  apply Ascii.eqb_eq in Hf. congruence.
Qed.

(** The ways one byte of the pattern can be matched. *)
Lemma strings_EqualFold_cons sr s' tr t' :
  strings_EqualFold (String sr s') (String tr t') = true ->
  (ascii_fold_eq sr tr = true /\ strings_EqualFold s' t' = true)
  \/ (sr = "197"%char /\ to_lower tr = "s"%char
      /\ strings_EqualFold (drop_string 2 (String sr s')) t' = true)
  \/ (sr = "226"%char /\ to_lower tr = "k"%char
      /\ strings_EqualFold (drop_string 3 (String sr s')) t' = true).
Proof.
  cbn [strings_EqualFold].
  destruct (ascii_fold_eq sr tr); [auto|].
  destruct (Ascii.eqb (to_lower tr) "s" && String.prefix long_s (String sr s'))
    eqn:Hs.
  - apply andb_true_iff in Hs as [Hl Hp]. apply Ascii.eqb_eq in Hl.
    apply prefix_head in Hp. auto.
  - destruct (Ascii.eqb (to_lower tr) "k" && String.prefix kelvin (String sr s'))
      eqn:Hk; [|discriminate].
    apply andb_true_iff in Hk as [Hl Hp]. apply Ascii.eqb_eq in Hl.
    apply prefix_head in Hp. auto.
Qed.

(** Two patterns that fold to the same text are equal up to case. *)
Lemma strings_EqualFold_same_pattern t1 : forall s t2,
  strings_EqualFold s t1 = true -> strings_EqualFold s t2 = true ->
  lower t1 = lower t2.
Proof.
  induction t1 as [|tr1 t1 IH]; intros s t2 H1 H2.
  - cbn [strings_EqualFold] in H1. apply String.eqb_eq in H1. subst s.
    destruct t2; [reflexivity | discriminate].
  - destruct s as [|sr s']; [discriminate|].
    destruct t2 as [|tr2 t2].
    { cbn [strings_EqualFold] in H2. discriminate. }
    apply strings_EqualFold_cons in H1, H2. cbn [lower].
    destruct H1 as [[F1 R1]|[(E1 & L1 & R1)|(E1 & L1 & R1)]];
      destruct H2 as [[F2 R2]|[(E2 & L2 & R2)|(E2 & L2 & R2)]];
      try (subst sr; apply ascii_fold_eq_ascii in F1; discriminate);
      try (subst sr; apply ascii_fold_eq_ascii in F2; discriminate);
      try (subst sr; discriminate).
    + apply ascii_fold_eq_lower in F1, F2. rewrite F1, F2.
      f_equal. exact (IH _ _ R1 R2).
    + rewrite L1, L2. f_equal. exact (IH _ _ R1 R2).
    + rewrite L1, L2. f_equal. exact (IH _ _ R1 R2).
Qed.

Lemma skipExtensions_distinct :
  NoDup ((fun e : string * string => lower e.1) <$> skipExtensions).
Proof. apply (bool_decide_unpack _). vm_compute. exact I. Qed.

Lemma IgnoreByExtension_loop_none suffix (es : list (string * string)) :
  Forall (fun e => strings_EqualFold suffix e.1 = false) es ->
  IgnoreByExtension_loop suffix es = (false, "").
Proof.
  induction 1 as [|[ext name] es He _ IH]; [reflexivity|].
  cbn [IgnoreByExtension_loop]. cbn in He. rewrite He. exact IH.
Qed.

Lemma IgnoreByExtension_loop_unique suffix (es : list (string * string)) e :
  NoDup ((fun e : string * string => lower e.1) <$> es) ->
  In e es ->
  strings_EqualFold suffix e.1 = true ->
  IgnoreByExtension_loop suffix es = (true, e.2).
Proof.
  induction es as [|[ext name] es IH]; intros Hnd Hin He; [destruct Hin|].
  cbn [IgnoreByExtension_loop].
  rewrite fmap_cons in Hnd. apply NoDup_cons in Hnd as [Hnotin Hnd].
  destruct (strings_EqualFold suffix ext) eqn:Hext.
  - destruct Hin as [<-|Hin]; [reflexivity|]. exfalso. apply Hnotin.
    cbn. rewrite (strings_EqualFold_same_pattern ext suffix e.1 Hext He).
    apply list_elem_of_fmap. exists e. split; [reflexivity|].
    apply list_elem_of_In, Hin.
  - destruct Hin as [<-|Hin]; [cbn in He; congruence|].
    exact (IH Hnd Hin He).
Qed.

Lemma IgnoreByExtension_loop_match suffix (es : list (string * string)) :
  (exists e, In e es /\ strings_EqualFold suffix e.1 = true
             /\ IgnoreByExtension_loop suffix es = (true, e.2))
  \/ (Forall (fun e => strings_EqualFold suffix e.1 = false) es
      /\ IgnoreByExtension_loop suffix es = (false, "")).
Proof.
  induction es as [|[ext name] es IH]; [right; split; [constructor | reflexivity]|].
  cbn [IgnoreByExtension_loop].
  destruct (strings_EqualFold suffix ext) eqn:Hext.
  - left. exists (ext, name). split; [left; reflexivity|]. split; [exact Hext|].
    reflexivity.
  - destruct IH as [(e & Hin & He & Hl)|[Hall Hl]].
    + left. exists e. split; [right; exact Hin|]. split; [exact He | exact Hl].
    + right. split; [constructor; [exact Hext | exact Hall] | exact Hl].
Qed.

Lemma skipExtensions_distinct_range (r : Range skipExtensions) :
  NoDup ((fun e : string * string => lower e.1) <$> entries r).
Proof. rewrite <- (entries_perm r). apply skipExtensions_distinct. Qed.

(** Skipping by extension does not depend on the order in which the map
    [skipExtensions] is ranged over: no two of its keys are equal up to
    case, so at most one can match an extension. *)
Theorem IgnoreByExtension_any_order (r1 r2 : Range skipExtensions)
  (filePath : string) :
  IgnoreByExtension r1 filePath = IgnoreByExtension r2 filePath.
Proof.
  unfold IgnoreByExtension.
  destruct (IgnoreByExtension_loop_match (filepath_Ext filePath) skipExtensions)
    as [(e & Hin & He & _)|[Hall _]].
  - rewrite !(IgnoreByExtension_loop_unique _ _ e); try assumption;
      try (eapply Permutation_in; [apply entries_perm | exact Hin]).
    + reflexivity.
    + apply skipExtensions_distinct_range.
    + apply skipExtensions_distinct_range.
  - rewrite !IgnoreByExtension_loop_none by (apply Forall_range; exact Hall).
    reflexivity.
Qed.

(** The entry [mjpg] of [skipExtensions] has no dot, and an extension is
    empty or begins with one: the entry matches no path, and no path is
    skipped under its name. *)
Theorem IgnoreByExtension_mjpg_never_matches (r : Range skipExtensions)
  (filePath : string) :
  strings_EqualFold (filepath_Ext filePath) "mjpg" = false
  /\ (IgnoreByExtension r filePath).2 <> "mjpg".
Proof.
  assert (Hm : strings_EqualFold (filepath_Ext filePath) "mjpg" = false).
  { destruct (filepath_Ext_dotted filePath) as [->|[rest ->]]; reflexivity. }
  split; [exact Hm|].
  unfold IgnoreByExtension.
  destruct (IgnoreByExtension_loop_match (filepath_Ext filePath) r)
    as [(e & Hin & He & ->)|[_ ->]]; [|discriminate].
  cbn [snd]. intros Hname.
  assert (Hin' : In e skipExtensions).
  { eapply Permutation_in; [symmetry; apply entries_perm | exact Hin]. }
  assert (Hkeys : Forall (fun e : string * string =>
                            e.2 = "mjpg" -> e.1 = "mjpg") skipExtensions).
  { unfold skipExtensions. repeat (constructor; [cbn; congruence|]).
    constructor. }
  rewrite List.Forall_forall in Hkeys.
  rewrite (Hkeys e Hin' Hname) in He. congruence.
Qed.

(** ** What [IsImage] can return *)

Lemma IsImage_loop_match buffer filePath (es : list (list byte * string)) :
  (exists e, In e es /\ bytes_HasPrefix buffer e.1 = true
             /\ IsImage_loop buffer filePath es = classified filePath e)
  \/ (Forall (fun e => bytes_HasPrefix buffer e.1 = false) es
      /\ IsImage_loop buffer filePath es = (false, "", None)).
Proof.
  induction es as [|e es IH];
    [right; split; [constructor | reflexivity]|].
  rewrite IsImage_loop_cons.
  destruct (bytes_HasPrefix buffer e.1) eqn:He.
  - left. exists e. split; [left; reflexivity|]. split; [exact He | reflexivity].
  - destruct IH as [(e' & Hin & He' & Hl)|[Hall Hl]].
    + left. exists e'. split; [right; exact Hin|]. split; [exact He' | exact Hl].
    + right. split; [constructor; [exact He | exact Hall] | exact Hl].
Qed.

(** The buffer the loop of [IsImage] runs over, when it runs. *)
Lemma IsImage_cases (r : Range imageSignatures) fs filePath :
  (exists err, IsImage r fs filePath = (false, "", Some err))
  \/ IsImage r fs filePath
     = IsImage_loop (probe (data (fs filePath))) filePath r.
Proof.
  unfold IsImage. destruct (open_err (fs filePath)); [left; eauto|].
  assert (Hb : (io_ReadFull (fs filePath) 32).1 = probe (data (fs filePath))).
  { unfold io_ReadFull, probe.
    destruct (32 <=? length (firstn 32 (data (fs filePath))))%nat; reflexivity. }
  destruct (io_ReadFull (fs filePath) 32) as [buffer err]. cbn in Hb. subst.
  match goal with |- context [if ?c then _ else _] => destruct c eqn:Hc end.
  - left. destruct err as [e|]; [eauto | discriminate].
  - right. reflexivity.
Qed.

Definition pngEntry : list byte * string := (pngSignature, "image/png").

Lemma png_is_the_only_png_entry :
  Forall (fun e : list byte * string => e.2 = "image/png" -> e = pngEntry)
    imageSignatures.
Proof.
  unfold imageSignatures.
  repeat (constructor; [cbn; first [discriminate | reflexivity]|]).
  constructor.
Qed.

Lemma IsImage_recognised_mime (r : Range imageSignatures) fs filePath :
  (IsImage r fs filePath).1.1 = true ->
  In (IsImage r fs filePath).1.2 ("image/nef" :: (snd <$> imageSignatures)).
Proof.
  destruct (IsImage_cases r fs filePath) as [[err ->]| ->]; [discriminate|].
  destruct (IsImage_loop_match (probe (data (fs filePath))) filePath r)
    as [(e & Hin & _ & ->)|[_ ->]]; [|discriminate].
  intros _. unfold classified. cbn [fst snd].
  assert (Hin' : In e.2 (snd <$> imageSignatures)).
  { apply list_elem_of_In, list_elem_of_fmap. exists e.
    split; [reflexivity|]. apply list_elem_of_In.
    eapply Permutation_in; [symmetry; apply entries_perm | exact Hin]. }
  destruct (String.eqb e.2 "image/png"); [|right; exact Hin'].
  destruct (strings_EqualFold (filepath_Ext filePath) ".NEF");
    [left; reflexivity | right; exact Hin'].
Qed.

(** The shape of every result of [IsImage]: an error or a miss comes with
    no MIME type; a recognised file comes with no error and with a MIME
    type of the table or "image/nef", the latter only for a probe that
    begins with the PNG signature under a path with extension [.NEF]. *)
Theorem IsImage_result_shape (r : Range imageSignatures) (fs : FS)
  (filePath : string) :
  let res := IsImage r fs filePath in
  (res.1.1 = false -> res.1.2 = "")
  /\ (res.2 <> None -> res.1.1 = false)
  /\ (res.1.1 = true ->
      In res.1.2 ("image/nef" :: (snd <$> imageSignatures)))
  /\ (res.1.2 = "image/nef" ->
      bytes_HasPrefix (probe (data (fs filePath))) pngSignature = true
      /\ strings_EqualFold (filepath_Ext filePath) ".NEF" = true).
Proof.
  cbv zeta.
  destruct (IsImage_cases r fs filePath) as [[err ->]| ->].
  { cbn. repeat split; try discriminate; congruence. }
  destruct (IsImage_loop_match (probe (data (fs filePath))) filePath r)
    as [(e & Hin & He & ->)|[_ ->]].
  2:{ cbn. repeat split; try discriminate; congruence. }
  assert (Hin' : In e imageSignatures).
  { eapply Permutation_in; [symmetry; apply entries_perm | exact Hin]. }
  pose proof png_is_the_only_png_entry as Hpng.
  rewrite List.Forall_forall in Hpng. specialize (Hpng e Hin').
  assert (Hnef : Forall (fun e : list byte * string => e.2 <> "image/nef")
                   imageSignatures).
  { unfold imageSignatures. repeat (constructor; [cbn; discriminate|]).
    constructor. }
  rewrite List.Forall_forall in Hnef. specialize (Hnef e Hin').
  unfold classified. cbn [fst snd].
  split; [discriminate|]. split; [congruence|].
  destruct (String.eqb_spec e.2 "image/png") as [Hp|Hp].
  - specialize (Hpng Hp). subst e. cbn in He.
    destruct (strings_EqualFold (filepath_Ext filePath) ".NEF").
    + split; [intros _; left; reflexivity|]. intros _. split; [exact He|].
      reflexivity.
    + split; [|discriminate]. intros _. right.
      apply list_elem_of_In, list_elem_of_fmap. exists pngEntry.
      split; [reflexivity | apply list_elem_of_In, Hin'].
  - split; [|congruence]. intros _. right.
    apply list_elem_of_In, list_elem_of_fmap. exists e.
    split; [reflexivity | apply list_elem_of_In, Hin'].
Qed.

Lemma IsImage_loop_path buffer p p' (es : list (list byte * string)) :
  Forall (fun e : list byte * string => e.2 = "image/png" -> e = pngEntry) es ->
  bytes_HasPrefix buffer pngSignature = false ->
  IsImage_loop buffer p es = IsImage_loop buffer p' es.
Proof.
  intros Hall Hpng. induction Hall as [|e es He _ IH]; [reflexivity|].
  rewrite !IsImage_loop_cons.
  destruct (bytes_HasPrefix buffer e.1) eqn:Hm; [|exact IH].
  unfold classified. destruct (String.eqb_spec e.2 "image/png") as [Hp|Hp];
    [|reflexivity].
  rewrite (He Hp) in Hm. unfold pngEntry in Hm. cbn [fst] in Hm. congruence.
Qed.

(** Apart from the PNG signature, classification looks at the content
    only: the same file under two paths is classified alike. *)
Theorem IsImage_ignores_path_unless_png (r : Range imageSignatures) (fs : FS)
  (p p' : string) :
  fs p = fs p' ->
  bytes_HasPrefix (probe (data (fs p))) pngSignature = false ->
  IsImage r fs p = IsImage r fs p'.
Proof.
  intros Hfs Hpng. unfold IsImage. rewrite <- Hfs.
  destruct (open_err (fs p)); [reflexivity|].
  assert (Hb : (io_ReadFull (fs p) 32).1 = probe (data (fs p))).
  { unfold io_ReadFull, probe.
    destruct (32 <=? length (firstn 32 (data (fs p))))%nat; reflexivity. }
  destruct (io_ReadFull (fs p) 32) as [buffer err]. cbn in Hb. subst.
  match goal with |- context [if ?c then _ else _] => destruct c end;
    [reflexivity|].
  apply IsImage_loop_path; [|exact Hpng].
  apply Forall_range, png_is_the_only_png_entry.
Qed.

Lemma IsImage_ignores_path_unless_png_witness :
  IsImage (listed _) (fun _ => Sample.jpeg_2021) "backups/a.NEF"
  = IsImage (listed _) (fun _ => Sample.jpeg_2021) "backups/a.jpg"
  /\ IsImage (listed _) (fun _ => Sample.jpeg_2021) "backups/a.NEF"
     = (true, "image/jpeg", None).
Proof.
  split; [|reflexivity].
  exact (IsImage_ignores_path_unless_png (listed _)
           (fun _ => Sample.jpeg_2021) "backups/a.NEF" "backups/a.jpg"
           eq_refl eq_refl).
Defined.

(** ** The walk as a whole *)

(** The files the callback takes to the store, with the MIME type and
    the fingerprint it has for them by then: those not skipped by name or
    extension, recognised without an error, and read to the end. *)
Definition reaches_store `{Hash} (fs : FS) (v : Visit)
  : option (string * string) :=
  if (IgnoreByName (filePath v)).1 then None
  else if (IgnoreByExtension (extRange v) (filePath v)).1 then None
  else
    match IsImage (sigRange v) fs (filePath v) with
    | (true, mimeType, None) =>
        match CalculateMD5 fs (filePath v) with
        | (md5, None) => Some (mimeType, md5)
        | (_, Some _) => None
        end
    | _ => None
    end.

Section WalkSteps.
Context `{Hash} `{Exif} `{JSON}.
Variable entry : EntryPoint.
Variable rev : Revision.
Variable fs : FS.
Variable outPath : string.

Lemma walkFn_reaches st v :
  walkFn entry rev fs outPath st v
  = match reaches_store fs v with
    | None => Ret (count_file st)
    | Some (mimeType, md5) =>
        match FastCache_Get (db st) (now v) md5 zero_ImageFileInfo with
        | (Some fi, true) => Ret (duplicate (count_file st) v md5 fi)
        | (None, true) => Panic "interface conversion: interface is nil"
        | (_, false) =>
            original entry rev fs outPath (count_file st) v mimeType md5
        end
    end.
Proof.
  unfold walkFn, reaches_store.
  destruct (IgnoreByName (filePath v)) as [[|] s1]; [reflexivity|].
  destruct (IgnoreByExtension (extRange v) (filePath v)) as [[|] s2];
    [reflexivity|].
  cbn [fst].
  destruct (IsImage (sigRange v) fs (filePath v)) as [[[|] mime] [e|]];
    try reflexivity.
  destruct (CalculateMD5 fs (filePath v)) as [md5 [e|]]; [reflexivity|].
  cbn [count_file db].
  destruct (FastCache_Get (db st) (now v) md5 zero_ImageFileInfo)
    as [[fi|] [|]]; reflexivity.
Qed.

(** What one returning call does to the state, whatever the store
    holds. *)
Lemma walkFn_Ret st st' v :
  walkFn entry rev fs outPath st v = Ret st' ->
  fileCount st' = (fileCount st + 1)%Z
  /\ persistFile (db st') = persistFile (db st)
  /\ dom (items (cache (db st))) ⊆ dom (items (cache (db st')))
  /\ (copies st' = copies st
      \/ exists outFile,
           copies st'
           = copies st ++ [(filePath v, (outPath ++ "/" ++ outFile)%string)]).
Proof.
  rewrite walkFn_reaches.
  destruct (reaches_store fs v) as [[mime md5]|].
  2:{ intros [= <-]. cbn. repeat split; [set_solver | left; reflexivity]. }
  destruct (FastCache_Get (db st) (now v) md5 zero_ImageFileInfo)
    as [[fi|] [|]]; try discriminate.
  - intros [= <-]. unfold duplicate. rewrite FastCache_Set_items. cbn.
    repeat split; [apply dom_insert_subseteq | left; reflexivity].
  - intros Ho. apply original_Ret in Ho as (fi' & outFile & -> & _).
    rewrite FastCache_Set_items. cbn.
    repeat split; [apply dom_insert_subseteq | right; eauto].
  - intros Ho. apply original_Ret in Ho as (fi' & outFile & -> & _).
    rewrite FastCache_Set_items. cbn.
    repeat split; [apply dom_insert_subseteq | right; eauto].
Qed.

End WalkSteps.

(** A walk that comes to its end has counted every file it was given,
    has lost no key of the store, has left the name of the database file
    alone, and has only added copies: at most one for each file, each of
    a file of the walk and into the output directory. *)
Theorem Walk_counts_and_only_adds `{Hash} `{Exif} `{JSON}
  (entry : EntryPoint) (rev : Revision) (fs : FS) (outPath : string)
  (vs : list Visit) (st st' : State) :
  Walk entry rev fs outPath vs st = Ret st' ->
  fileCount st' = (fileCount st + Z.of_nat (length vs))%Z
  /\ persistFile (db st') = persistFile (db st)
  /\ dom (items (cache (db st))) ⊆ dom (items (cache (db st')))
  /\ exists more,
       copies st' = copies st ++ more
       /\ (length more <= length vs)%nat
       /\ Forall (fun c => exists v outFile,
                    In v vs /\ c = (filePath v,
                                    (outPath ++ "/" ++ outFile)%string)) more.
Proof.
  revert st st'. induction vs as [|v vs IH]; intros st st'.
  - intros [= <-]. cbn. repeat split; [lia | set_solver|].
    exists []. rewrite app_nil_r. repeat split; constructor.
  - cbn [Walk].
    destruct (walkFn entry rev fs outPath st v) as [st1| |] eqn:Hv;
      cbn [mbind Result_bind]; try discriminate.
    intros Hw.
    apply (walkFn_Ret entry rev fs outPath) in Hv as (Hc & Hp & Hd & Hcp).
    apply IH in Hw as (Hc' & Hp' & Hd' & more & Hm & Hl & Hall).
    split; [rewrite Hc', Hc; cbn [length]; lia|].
    split; [congruence|]. split; [etransitivity; [exact Hd | exact Hd']|].
    assert (Hall' : Forall (fun c => exists v0 outFile,
                      In v0 (v :: vs)
                      /\ c = (filePath v0,
                              (outPath ++ "/" ++ outFile)%string)) more).
    { eapply List.Forall_impl; [|exact Hall].
      intros c (v0 & o & Hin & ->). exists v0, o. split; [right; exact Hin|].
      reflexivity. }
    destruct Hcp as [Hcp|[outFile Hcp]]; rewrite Hcp in Hm.
    + exists more. split; [exact Hm|]. split; [cbn [length]; lia | exact Hall'].
    + exists ((filePath v, (outPath ++ "/" ++ outFile)%string) :: more).
      split; [rewrite Hm, <- app_assoc; reflexivity|].
      split; [cbn [length]; lia|].
      constructor; [|exact Hall'].
      exists v, outFile. split; [left; reflexivity | reflexivity].
Qed.

(** Where the sample walk ends under each entry point. *)
Definition sample_end (entry : EntryPoint) (rev : Revision) : State :=
  match Walk entry rev Sample.disk "originals" sample_visits start with
  | Ret st => st
  | _ => start
  end.

Lemma sample_Walk_MainIn :
  Walk MainIn RevB Sample.disk "originals" sample_visits start
  = Ret (sample_end MainIn RevB).
Proof. vm_compute. reflexivity. Qed.


Lemma Walk_counts_and_only_adds_witness :
  fileCount (sample_end MainIn RevB) = 9%Z
  /\ length (copies (sample_end MainIn RevB)) = 4%nat.
Proof.
  split; [|reflexivity].
  destruct (Walk_counts_and_only_adds MainIn RevB Sample.disk "originals"
              sample_visits start (sample_end MainIn RevB) sample_Walk_MainIn)
    as (Hc & _).
  exact Hc.
Defined.

(** ** What the store holds after a walk *)

(** The item a record is stored as: its JSON text, never expiring. *)
Definition encode `{JSON} (fi : ImageFileInfo) : Item :=
  mkItem (json_Marshal fi) 0.

(** The store holds the records of [m], each under its key. *)
Definition represents `{JSON} (x : FastCache)
  (m : gmap string ImageFileInfo) : Prop :=
  items (cache x) = encode <$> m.

(** The MIME types a record can be stored with. *)
Definition stored_mimes : list string :=
  "image/heic" :: "image/nef" :: (snd <$> imageSignatures).

(** A record as a first-seen file leaves it. *)
Definition first_record (entry : EntryPoint) (v : Visit) (md5 : string)
  (fi : ImageFileInfo) (outFile : string) : Prop :=
  FilePath fi = filePath v
  /\ MD5 fi = md5
  /\ Duplicates fi = 0%Z
  /\ HasExif fi = negb (String.eqb (OriginalDateTime fi) "")
  /\ (entry = MainIn -> FileName fi = outFile)
  /\ (entry = MainPath -> OriginalDateTime fi = "" -> FileName fi = "").

Section Records.
Context `{Hash} `{Exif} `{JSON}.
Variable entry : EntryPoint.
Variable rev : Revision.
Variable fs : FS.
Variable outPath : string.

Lemma represents_Get x m now key obj :
  represents x m ->
  FastCache_Get x now key obj
  = match m !! key with
    | Some fi => (Some fi, true)
    | None => (None, false)
    end.
Proof.
  unfold represents, FastCache_Get, cache_Get. intros ->.
  rewrite lookup_fmap. destruct (m !! key) as [fi|]; [|reflexivity].
  cbn. unfold fromJSON. rewrite json_Unmarshal_Marshal. reflexivity.
Qed.

Lemma represents_Set x m now key fi :
  represents x m ->
  represents (FastCache_Set x now key fi (-1)) (<[key := fi]> m).
Proof.
  unfold represents. intros Hx. rewrite FastCache_Set_items. cbn.
  rewrite Hx, fmap_insert. reflexivity.
Qed.

Lemma checks_mime_stored filePath mimeType md5 :
  In mimeType ("image/nef" :: (snd <$> imageSignatures)) ->
  In (MimeType (IsJPEG_or_IsNEF_or_IsHEIC
                  (NewImageFileInfo filePath mimeType md5)).1) stored_mimes.
Proof.
  intros Hin. unfold IsJPEG_or_IsNEF_or_IsHEIC, IsJPEG, IsNEF, IsHEIC.
  cbn [MimeType FilePath NewImageFileInfo].
  destruct (String.eqb mimeType "image/jpeg");
    [right; exact Hin|].
  destruct (strings_EqualFold (filepath_Ext filePath) ".NEF");
    [right; left; reflexivity|].
  cbn [MimeType FilePath NewImageFileInfo].
  destruct (strings_EqualFold (filepath_Ext filePath) ".HEIC");
    [left; reflexivity | right; exact Hin].
Qed.

Ltac record_facts :=
  repeat split;
  first [ assumption | reflexivity | discriminate
        | intros; assumption | intros; reflexivity
        | match goal with
          | Ht : String.eqb ?t "" = false |- _ -> ?t = "" -> _ =>
              intros _ E; rewrite E in Ht; discriminate Ht
          end ].

(** A first-seen file whose branch returns, with every field of the
    record it stores. *)
Lemma original_record st st' v mimeType md5 :
  original entry rev fs outPath st v mimeType md5 = Ret st' ->
  exists fi outFile,
    st' = CopyFile (set_db st (FastCache_Set (db st) (now v) md5 fi (-1)))
            (filePath v) (outPath ++ "/" ++ outFile)%string
    /\ first_record entry v md5 fi outFile
    /\ MimeType fi
       = MimeType (IsJPEG_or_IsNEF_or_IsHEIC
                     (NewImageFileInfo (filePath v) mimeType md5)).1.
Proof.
  unfold original, MainPath_original, MainIn_original, first_record.
  assert (Hnew : let y := (IsJPEG_or_IsNEF_or_IsHEIC
                             (NewImageFileInfo (filePath v) mimeType md5)).1 in
                 FilePath y = filePath v /\ MD5 y = md5
                 /\ OriginalDateTime y = "" /\ Duplicates y = 0%Z
                 /\ HasExif y = false /\ FileName y = "").
  { unfold IsJPEG_or_IsNEF_or_IsHEIC, IsNEF, IsHEIC.
    cbn [FilePath NewImageFileInfo].
    destruct (IsJPEG _); [repeat split|].
    destruct (strings_EqualFold (filepath_Ext (filePath v)) ".NEF");
      [repeat split|].
    cbn [FilePath NewImageFileInfo].
    destruct (strings_EqualFold (filepath_Ext (filePath v)) ".HEIC");
      repeat split. }
  cbv zeta in Hnew. destruct Hnew as (Hfp & Hmd & Hodt & Hdup & Hex & Hfn).
  destruct (IsJPEG_or_IsNEF_or_IsHEIC _) as [fi exifKind].
  cbn [fst] in *.
  destruct entry, exifKind; cbn [mbind Result_bind].
  - pose proof (GetJpegCreatedAt_Ret rev fs fi) as Hg.
    destruct (GetJpegCreatedAt rev fs fi) as [[fi' [e|]]| |];
      cbn [mbind Result_bind]; try discriminate;
      destruct (Hg _ _ eq_refl) as [[Herr ->]|[Herr (t & Ht & ->)]];
      try congruence.
    + unfold IsNEF.
      destruct (strings_EqualFold (filepath_Ext (FilePath fi)) ".NEF");
        [discriminate|]. cbn [mbind Result_bind].
      intros [= <-]. do 2 eexists. split; [reflexivity|].
      split; [|reflexivity].
      rewrite Hodt, Hex. record_facts.
    + intros [= <-]. do 2 eexists. split; [reflexivity|].
      rewrite SetFileName_dated by exact Ht. cbn.
      split; [|reflexivity]. rewrite Ht.
      record_facts.
  - intros [= <-]. do 2 eexists. split; [reflexivity|].
    split; [|reflexivity].
    rewrite Hodt, Hex. record_facts.
  - pose proof (GetJpegCreatedAt_Ret rev fs fi) as Hg.
    destruct (GetJpegCreatedAt rev fs fi) as [[fi' [e|]]| |];
      cbn [mbind Result_bind]; try discriminate;
      destruct (Hg _ _ eq_refl) as [[Herr ->]|[Herr (t & Ht & ->)]];
      try congruence.
    + intros [= <-]. do 2 eexists. split; [reflexivity|].
      rewrite SetFileName_undated by exact Hodt. cbn.
      split; [|reflexivity]. rewrite Hodt.
      record_facts.
    + intros [= <-]. do 2 eexists. split; [reflexivity|].
      rewrite SetFileName_dated by exact Ht. cbn.
      split; [|reflexivity]. rewrite Ht.
      record_facts.
  - intros [= <-]. do 2 eexists. split; [reflexivity|].
    rewrite SetFileName_undated by exact Hodt. cbn.
    split; [|reflexivity]. rewrite Hodt, Hex.
    record_facts.
Qed.

End Records.

(** A record of the store, seen against the copies made: it sits under
    its own fingerprint, says it has EXIF data exactly when it has a
    capture time, has a MIME type of the table or one of the two set from
    the extension, a count within int32, and its file was copied; under
    the entry point with flag [-in] its [FileName] is the name of the
    copy. *)
Definition well_recorded (entry : EntryPoint) (outPath : string)
  (copies : list (string * string)) (key : string) (fi : ImageFileInfo)
  : Prop :=
  MD5 fi = key
  /\ HasExif fi = negb (String.eqb (OriginalDateTime fi) "")
  /\ In (MimeType fi) stored_mimes
  /\ (MinInt32 <= Duplicates fi <= MaxInt32)%Z
  /\ exists outFile,
       In (FilePath fi, (outPath ++ "/" ++ outFile)%string) copies
       /\ (entry = MainIn -> FileName fi = outFile).

Lemma well_recorded_more entry outPath copies more key fi :
  well_recorded entry outPath copies key fi ->
  well_recorded entry outPath (copies ++ more) key fi.
Proof.
  intros (Hk & He & Hm & Hd & o & Hin & Hn).
  do 4 (split; [assumption|]).
  exists o. split; [apply in_or_app; left; exact Hin | exact Hn].
Qed.

Section WalkRecords.
Context `{Hash} `{Exif} `{JSON}.
Variable entry : EntryPoint.
Variable rev : Revision.
Variable fs : FS.
Variable outPath : string.

Lemma reaches_store_mime v mimeType md5 :
  reaches_store fs v = Some (mimeType, md5) ->
  In mimeType ("image/nef" :: (snd <$> imageSignatures)).
Proof.
  unfold reaches_store.
  destruct (IgnoreByName (filePath v)).1; [discriminate|].
  destruct (IgnoreByExtension (extRange v) (filePath v)).1; [discriminate|].
  pose proof (IsImage_recognised_mime (sigRange v) fs (filePath v)) as Hs.
  destruct (IsImage (sigRange v) fs (filePath v)) as [[[|] mime] [e|]];
    try discriminate.
  destruct (CalculateMD5 fs (filePath v)) as [k [e|]]; [discriminate|].
  intros [= <- <-]. exact (Hs eq_refl).
Qed.

(** One returning call against a store that holds the records of [m]. *)
Lemma walkFn_records st st' v m :
  represents (db st) m ->
  walkFn entry rev fs outPath st v = Ret st' ->
  match reaches_store fs v with
  | None => st' = count_file st
  | Some (mimeType, md5) =>
      match m !! md5 with
      | Some fi => st' = duplicate (count_file st) v md5 fi
      | None =>
          exists fi outFile,
            st' = CopyFile (set_db (count_file st)
                              (FastCache_Set (db st) (now v) md5 fi (-1)))
                    (filePath v) (outPath ++ "/" ++ outFile)%string
            /\ first_record entry v md5 fi outFile
            /\ In (MimeType fi) stored_mimes
      end
  end.
Proof.
  intros Hm. rewrite walkFn_reaches.
  pose proof (reaches_store_mime v) as Hmime.
  destruct (reaches_store fs v) as [[mime md5]|]; [|congruence].
  rewrite (represents_Get _ _ _ _ _ Hm).
  destruct (m !! md5) as [fi|]; [congruence|].
  intros Ho. apply original_record in Ho as (fi & outFile & -> & Hr & Hmt).
  exists fi, outFile. split; [reflexivity|]. split; [exact Hr|].
  rewrite Hmt. apply checks_mime_stored. exact (Hmime _ _ eq_refl).
Qed.

(** The facts about the store that every call keeps. *)
Definition recorded (st : State) (m : gmap string ImageFileInfo) : Prop :=
  represents (db st) m
  /\ size m = length (copies st)
  /\ map_Forall (well_recorded entry outPath (copies st)) m.

Lemma walkFn_recorded st st' v m :
  recorded st m ->
  walkFn entry rev fs outPath st v = Ret st' ->
  exists m', recorded st' m'.
Proof.
  intros (Hm & Hs & Hw) Hv.
  pose proof (walkFn_records st st' v m Hm Hv) as Hr.
  destruct (reaches_store fs v) as [[mime md5]|].
  2:{ subst st'. exists m. split; [exact Hm | split; [exact Hs | exact Hw]]. }
  destruct (m !! md5) as [fi|] eqn:Hk.
  - subst st'. exists (<[md5 := set_Duplicates fi (wrap32 (Duplicates fi + 1))]> m).
    split; [apply represents_Set, Hm|]. cbn [copies duplicate set_db count_file].
    split; [rewrite map_size_insert_Some by eauto; exact Hs|].
    apply map_Forall_insert_2; [|exact Hw].
    destruct (Hw _ _ Hk) as (Hmd & He & Hmt & _ & Hc).
    do 3 (split; [assumption|]). split; [apply wrap32_range | exact Hc].
  - destruct Hr as (fi & outFile & -> & Hr & Hmt).
    exists (<[md5 := fi]> m).
    split; [apply represents_Set, Hm|]. cbn [copies CopyFile set_db count_file].
    split; [rewrite map_size_insert_None by exact Hk;
            rewrite length_app, Hs; cbn [length]; lia|].
    destruct Hr as (Hfp & Hmd & Hd & He & Hin & _).
    apply map_Forall_insert_2.
    + do 3 (split; [assumption|]).
      split; [rewrite Hd; split; discriminate|].
      exists outFile. split; [|exact Hin].
      apply in_or_app. right. rewrite Hfp. left. reflexivity.
    + intros k fi' Hk'. apply well_recorded_more. exact (Hw _ _ Hk').
Qed.

Lemma Walk_recorded vs : forall st st' m,
  recorded st m ->
  Walk entry rev fs outPath vs st = Ret st' ->
  exists m', recorded st' m'.
Proof.
  induction vs as [|v vs IH]; intros st st' m Hr.
  - intros [= <-]. eauto.
  - cbn [Walk].
    destruct (walkFn entry rev fs outPath st v) as [st1| |] eqn:Hv;
      cbn [mbind Result_bind]; try discriminate.
    destruct (walkFn_recorded st st1 v m Hr Hv) as (m1 & Hr1).
    apply IH with (m := m1). exact Hr1.
Qed.

Lemma recorded_initial persistFile :
  recorded (initial (empty_store persistFile)) ∅.
Proof.
  split; [unfold represents; cbn; rewrite fmap_empty; reflexivity|].
  split; [reflexivity | apply map_Forall_empty].
Qed.

End WalkRecords.



(** ** Files, copies and duplicates *)

(** [total f l]: the sum of [f] over the records of [l]. *)
Definition total (f : ImageFileInfo -> Z) (l : list ImageFileInfo) : Z :=
  foldr (fun fi acc => (f fi + acc)%Z) 0%Z l.

Lemma total_perm f l l' : Permutation l l' -> total f l = total f l'.
Proof.
  induction 1 as [|x l l' _ IH|x y l|l l' l'' _ IH _ IH']; cbn [total foldr].
  - reflexivity.
  - fold (total f l) (total f l'). rewrite IH. reflexivity.
  - lia.
  - congruence.
Qed.

Lemma total_cons f x l : total f (x :: l) = (f x + total f l)%Z.
Proof. reflexivity. Qed.

Lemma total_app f l l' : total f (l ++ l') = (total f l + total f l')%Z.
Proof.
  induction l as [|x l IH]; [reflexivity|].
  cbn [app]. rewrite !total_cons, IH. lia.
Qed.

Lemma total_nonneg f l :
  Forall (fun fi => (0 <= f fi)%Z) l -> (0 <= total f l)%Z.
Proof.
  induction 1 as [|x l Hx _ IH]; [reflexivity|]. rewrite total_cons. lia.
Qed.

(** The records of a map, in the order of its listing. *)
Definition records (m : gmap string ImageFileInfo) : list ImageFileInfo :=
  (map_to_list m).*2.

Lemma records_insert_fresh m key fi :
  m !! key = None -> Permutation (records (<[key := fi]> m)) (fi :: records m).
Proof.
  intros Hk. unfold records.
  rewrite (map_to_list_insert m key fi Hk). reflexivity.
Qed.

Lemma records_lookup m key fi :
  m !! key = Some fi ->
  Permutation (records m) (fi :: records (delete key m)).
Proof.
  intros Hk. unfold records.
  rewrite <- (map_to_list_delete m key fi Hk). reflexivity.
Qed.

Lemma records_insert_over m key fi fi' :
  m !! key = Some fi ->
  Permutation (records (<[key := fi']> m)) (fi' :: records (delete key m)).
Proof.
  intros Hk. rewrite <- insert_delete_eq.
  apply records_insert_fresh, lookup_delete_eq.
Qed.

Lemma records_Forall (P : ImageFileInfo -> Prop) m :
  (forall key fi, m !! key = Some fi -> P fi) -> Forall P (records m).
Proof.
  intros Hall. apply List.Forall_forall. intros fi Hin.
  apply list_elem_of_In, list_elem_of_fmap in Hin as ([k fi'] & -> & Hin).
  apply elem_of_map_to_list in Hin. exact (Hall _ _ Hin).
Qed.

(** The number of files of a walk that reach the store. *)
Definition stored_files `{Hash} (fs : FS) (vs : list Visit) : nat :=
  length (omap (reaches_store fs) vs).

Section Accounting.
Context `{Hash} `{Exif} `{JSON}.
Variable entry : EntryPoint.
Variable rev : Revision.
Variable fs : FS.
Variable outPath : string.

Lemma represents_inj x m m' : represents x m -> represents x m' -> m = m'.
Proof.
  unfold represents. intros -> Hm.
  assert (Hinj : Inj (=) (=) encode).
  { intros a b [= Hab].
    pose proof (json_Unmarshal_Marshal a zero_ImageFileInfo) as Ha.
    rewrite Hab, json_Unmarshal_Marshal in Ha. congruence. }
  exact (map_fmap_inj encode Hinj _ _ Hm).
Qed.

(** The store accounts for [n] files: every count is non-negative, and
    the records and their counts add up to [n]. *)
Definition accounts (st : State) (m : gmap string ImageFileInfo) (n : Z)
  : Prop :=
  represents (db st) m
  /\ (forall key fi, m !! key = Some fi -> (0 <= Duplicates fi)%Z)
  /\ (Z.of_nat (size m) + total Duplicates (records m))%Z = n.

Lemma accounts_count m n key fi :
  (forall key fi, m !! key = Some fi -> (0 <= Duplicates fi)%Z) ->
  (Z.of_nat (size m) + total Duplicates (records m))%Z = n ->
  m !! key = Some fi ->
  (Duplicates fi + 1 <= n)%Z.
Proof.
  intros Hpos Hn Hk.
  rewrite (total_perm _ _ _ (records_lookup m key fi Hk)), total_cons in Hn.
  assert (0 <= total Duplicates (records (delete key m)))%Z.
  { apply total_nonneg, records_Forall. intros k' fi' Hk'.
    apply lookup_delete_Some in Hk' as [_ Hk']. exact (Hpos _ _ Hk'). }
  assert (0 < size m)%nat.
  { destruct (decide (size m = 0%nat)) as [Hz|]; [|lia].
    apply map_size_empty_inv in Hz. subst m. rewrite lookup_empty in Hk.
    discriminate. }
  lia.
Qed.

Lemma walkFn_accounts st st' v m n :
  accounts st m n ->
  (n + Z.of_nat (stored_files fs [v]) <= 2 ^ 31)%Z ->
  walkFn entry rev fs outPath st v = Ret st' ->
  exists m', accounts st' m' (n + Z.of_nat (stored_files fs [v])).
Proof.
  intros (Hm & Hpos & Hn) Hb Hv.
  pose proof (walkFn_records entry rev fs outPath st st' v m Hm Hv) as Hr.
  unfold stored_files in *. cbn [omap list_omap] in *.
  destruct (reaches_store fs v) as [[mime md5]|]; cbn [length] in *.
  2:{ subst st'. exists m. split; [exact Hm|]. split; [exact Hpos | lia]. }
  destruct (m !! md5) as [fi|] eqn:Hk.
  - subst st'.
    pose proof (accounts_count m n md5 fi Hpos Hn Hk) as Hle.
    pose proof (Hpos _ _ Hk) as Hfi.
    assert (Hw : wrap32 (Duplicates fi + 1) = (Duplicates fi + 1)%Z).
    { apply wrap32_small. unfold MinInt32, MaxInt32. lia. }
    exists (<[md5 := set_Duplicates fi (wrap32 (Duplicates fi + 1))]> m).
    split; [apply represents_Set, Hm|]. split.
    + intros k fi'. rewrite lookup_insert_Some.
      intros [[_ <-]|[_ Hk']]; [cbn; lia | exact (Hpos _ _ Hk')].
    + rewrite map_size_insert_Some by eauto.
      rewrite (total_perm _ _ _ (records_insert_over m md5 fi _ Hk)).
      rewrite (total_perm _ _ _ (records_lookup m md5 fi Hk)) in Hn.
      rewrite total_cons in *. cbn [Duplicates set_Duplicates]. lia.
  - destruct Hr as (fi & outFile & -> & Hr & _).
    destruct Hr as (_ & _ & Hd & _).
    exists (<[md5 := fi]> m).
    split; [apply represents_Set, Hm|]. split.
    + intros k fi'. rewrite lookup_insert_Some.
      intros [[_ <-]|[_ Hk']]; [lia | exact (Hpos _ _ Hk')].
    + rewrite map_size_insert_None by exact Hk.
      rewrite (total_perm _ _ _ (records_insert_fresh m md5 fi Hk)).
      rewrite total_cons. lia.
Qed.

Lemma stored_files_cons v vs :
  stored_files fs (v :: vs)
  = (stored_files fs [v] + stored_files fs vs)%nat.
Proof.
  unfold stored_files. cbn [omap list_omap].
  destruct (reaches_store fs v); reflexivity.
Qed.

Lemma stored_files_le vs : (stored_files fs vs <= length vs)%nat.
Proof.
  induction vs as [|v vs IH]; [reflexivity|].
  rewrite stored_files_cons. unfold stored_files at 1. cbn [omap list_omap].
  destruct (reaches_store fs v); cbn [length]; lia.
Qed.

Lemma Walk_accounts vs : forall st st' m n,
  accounts st m n ->
  (n + Z.of_nat (stored_files fs vs) <= 2 ^ 31)%Z ->
  Walk entry rev fs outPath vs st = Ret st' ->
  exists m', accounts st' m' (n + Z.of_nat (stored_files fs vs)).
Proof.
  induction vs as [|v vs IH]; intros st st' m n Ha Hb.
  - intros [= <-]. exists m. unfold stored_files. cbn.
    rewrite Z.add_0_r. exact Ha.
  - cbn [Walk]. rewrite stored_files_cons, Nat2Z.inj_add in *.
    destruct (walkFn entry rev fs outPath st v) as [st1| |] eqn:Hv;
      cbn [mbind Result_bind]; try discriminate.
    intros Hw.
    destruct (walkFn_accounts st st1 v m n Ha ltac:(lia) Hv) as (m1 & Ha1).
    destruct (IH st1 st' m1 _ Ha1 ltac:(lia) Hw) as (m' & Ha').
    exists m'. rewrite Z.add_assoc. exact Ha'.
Qed.

Lemma accounts_initial persistFile :
  accounts (initial (empty_store persistFile)) ∅ 0.
Proof.
  split; [unfold represents; cbn; rewrite fmap_empty; reflexivity|].
  split; [intros k fi; rewrite lookup_empty; discriminate | reflexivity].
Qed.

End Accounting.

(** No file is lost between the walk and the store. After a run that
    starts without a database and comes to its end, with at most 2^31
    files reaching the store, the copies made and the counts of the
    records add up to the files that reached the store, and no count is
    negative. *)
Theorem Walk_copies_and_duplicates_account `{Hash} `{Exif} `{JSON}
  (entry : EntryPoint) (rev : Revision) (fs : FS)
  (outPath persistFile : string) (vs : list Visit) (st' : State) :
  (Z.of_nat (stored_files fs vs) <= 2 ^ 31)%Z ->
  Walk entry rev fs outPath vs (initial (empty_store persistFile)) = Ret st' ->
  exists m : gmap string ImageFileInfo,
    items (cache (db st')) = encode <$> m
    /\ (forall key fi, m !! key = Some fi -> (0 <= Duplicates fi)%Z)
    /\ (Z.of_nat (length (copies st')) + total Duplicates (records m))%Z
       = Z.of_nat (stored_files fs vs).
Proof.
  intros Hb Hw.
  destruct (Walk_accounts entry rev fs outPath vs _ _ ∅ 0%Z
              (accounts_initial persistFile) Hb Hw) as (m & Hm & Hpos & Hn).
  destruct (Walk_recorded entry rev fs outPath vs _ _ ∅
              (recorded_initial entry outPath persistFile) Hw)
    as (m' & Hm' & Hs & _).
  rewrite (represents_inj _ _ _ Hm' Hm) in Hs.
  exists m. split; [exact Hm|]. split; [exact Hpos|]. rewrite <- Hs. exact Hn.
Qed.

Lemma Walk_copies_and_duplicates_account_witness :
  exists m : gmap string ImageFileInfo,
    items (cache (db (sample_end MainIn RevB))) = encode <$> m
    /\ (4 + total Duplicates (records m))%Z = 6%Z.
Proof.
  destruct (Walk_copies_and_duplicates_account MainIn RevB Sample.disk
              "originals" "originals/photoz.db" sample_visits
              (sample_end MainIn RevB) ltac:(vm_compute; discriminate)
              sample_Walk_MainIn) as (m & Hm & _ & Hn).
  exists m. split; [exact Hm | exact Hn].
Defined.

(** ** The statistics printed at the end of a run

    [dbStats] of both entry points, the same text in each. The int32
    variables it declares are the [Counter]s. What it prints is the list
    of lines; [fmt.Println] puts a space between its operands. *)
Module DbStats.

Inductive Counter : Type :=
| dups | jpeg | tif | gif | nef | exif | bmp | png | rtf | avi | heic
| mjpeg | totalImages.

#[global] Instance Counter_eq_dec : EqDecision Counter.
Proof. solve_decision. Defined.

Definition Counters : Type := Counter -> Z.

(** [var dups, jpeg, ... int32]. *)
Definition zero : Counters := fun _ => 0%Z.

(** [c += n]. *)
Definition add (c : Counter) (n : Z) (s : Counters) : Counters :=
  fun c' => if decide (c' = c) then wrap32 (s c' + n) else s c'.

(** [c = n]. *)
Definition set (c : Counter) (n : Z) (s : Counters) : Counters :=
  fun c' => if decide (c' = c) then n else s c'.

(** The chain of comparisons on the MIME type of an item. *)
Definition mime_counter (mimeType : string) : option Counter :=
  if String.eqb mimeType "image/jpeg" then Some jpeg
  else if String.eqb mimeType "image/heic" then Some heic
  else if String.eqb mimeType "image/nef" then Some nef
  else if String.eqb mimeType "image/gif" then Some gif
  else if String.eqb mimeType "image/tiff" then Some tif
  else if String.eqb mimeType "image/png" then Some png
  else if String.eqb mimeType "image/bmp" then Some bmp
  else if String.eqb mimeType "application/rtf" then Some rtf
  else if String.eqb mimeType "video/x-msvideo" then Some avi
  else if String.eqb mimeType "video/mjpeg" then Some mjpeg
  else None.

(** The body of the loop over the items. *)
Definition tally (s : Counters) (item : ImageFileInfo) : Counters :=
  let s := add dups (Duplicates item) s in
  let s :=
    match mime_counter (MimeType item) with
    | Some c => add c 1 s
    | None => s
    end in
  if HasExif item then add exif 1 s else s.

Definition count_items (itemList : list ImageFileInfo) : Counters :=
  let s := fold_left tally itemList zero in
  set totalImages (wrap32 (Z.of_nat (length itemList))) s.

(** Addition of two int32 values. *)
Definition add32 (a b : Z) : Z := wrap32 (a + b).

Definition by_type (s : Counters) : Z :=
  fold_left add32
    [s nef; s heic; s gif; s tif; s bmp; s png; s rtf; s avi; s mjpeg]
    (s jpeg).

Definition total_mismatch (s : Counters) : bool :=
  negb (by_type s =? s totalImages)%Z.

Definition exif_mismatch (s : Counters) : bool :=
  negb (add32 (s jpeg) (s nef) =? s exif)%Z.

Definition Println (label value : string) : string :=
  (label ++ " " ++ value)%string.

Definition report (s : Counters) (basePath outPath : string) (fileCount : Z)
  : list string :=
  [ Println "     INPUT: " basePath;
    Println "    OUTPUT: " outPath;
    Println " PROCESSED: " (Sprintf_d fileCount);
    Println "DUPLICATES: " (Sprintf_d (s dups));
    Println "    IMAGES: " (Sprintf_d (s totalImages));
    Println "      JPEG: " (Sprintf_d (s jpeg));
    Println "       NEF: " (Sprintf_d (s nef));
    Println "      EXIF: " (Sprintf_d (s exif));
    Println "      HEIC: " (Sprintf_d (s heic));
    Println "       GIF: " (Sprintf_d (s gif));
    Println "      TIFF: " (Sprintf_d (s tif));
    Println "       BMP: " (Sprintf_d (s bmp));
    Println "       PNG: " (Sprintf_d (s png));
    Println "       RTF: " (Sprintf_d (s rtf));
    Println "       AVI: " (Sprintf_d (s avi));
    Println "     MJPEG: " (Sprintf_d (s mjpeg)) ]
  ++ (if total_mismatch s
      then ["WARNING:  Total Images != (JPEG + NEF + HEIC + GIF + TIFF + BMP + PNG + RTF + AVI + MJPEG)"]
      else [])
  ++ (if exif_mismatch s
      then ["WARNING:  JPEG/NEF images with missing EXIF data detected"]
      else []).

Section Decoding.
Context `{JSON}.

(** What [json.Unmarshal] leaves in a zero record when it fails; its
    error is not looked at. *)
Variable undecoded : string -> ImageFileInfo.

Definition decode (jsonString : string) : ImageFileInfo :=
  match json_Unmarshal jsonString zero_ImageFileInfo with
  | inr obj => obj
  | inl _ => undecoded jsonString
  end.

(** [db.List()], in the order the map is ranged over. *)
Definition List (x : FastCache) (now : Z)
  (order : Range (map_to_list (cache_Items (cache x) now))) : list string :=
  (fun kv => Object kv.2) <$> entries order.

Definition dbStats (x : FastCache) (now : Z)
  (order : Range (map_to_list (cache_Items (cache x) now)))
  (basePath outPath : string) (fileCount : Z) : list string :=
  let jsonList := List x now order in
  let itemList := decode <$> jsonList in
  report (count_items itemList) basePath outPath fileCount.

End Decoding.

End DbStats.

(** [contribution c item]: what one item adds to the counter [c]. *)
Definition contribution (c : DbStats.Counter) (item : ImageFileInfo) : Z :=
  ((if decide (c = DbStats.dups) then Duplicates item else 0)
   + (if decide (DbStats.mime_counter (MimeType item) = Some c) then 1 else 0)
   + (if decide (c = DbStats.exif) then (if HasExif item then 1 else 0) else 0))%Z.

Lemma wrap32_add_l a b : wrap32 (wrap32 a + b) = wrap32 (a + b).
Proof.
  unfold wrap32.
  replace ((a + 2 ^ 31) mod 2 ^ 32 - 2 ^ 31 + b + 2 ^ 31)%Z
    with ((a + 2 ^ 31) mod 2 ^ 32 + b)%Z by lia.
  replace (a + b + 2 ^ 31)%Z with ((a + 2 ^ 31) + b)%Z by lia.
  rewrite Zplus_mod_idemp_l. reflexivity.
Qed.

Lemma wrap32_idem a : wrap32 (wrap32 a) = wrap32 a.
Proof. apply wrap32_small, wrap32_range. Qed.

Lemma add_wrap c n s c' :
  wrap32 (DbStats.add c n s c')
  = wrap32 (s c' + (if decide (c' = c) then n else 0)).
Proof.
  unfold DbStats.add. destruct (decide (c' = c)).
  - apply wrap32_idem.
  - rewrite Z.add_0_r. reflexivity.
Qed.

Lemma wrap32_eq_add a b n : wrap32 a = wrap32 b -> wrap32 (a + n) = wrap32 (b + n).
Proof.
  intros E. rewrite <- (wrap32_add_l a), <- (wrap32_add_l b), E. reflexivity.
Qed.

Lemma tally_wrap s item c :
  wrap32 (DbStats.tally s item c) = wrap32 (s c + contribution c item).
Proof.
  unfold DbStats.tally, contribution.
  set (s1 := DbStats.add DbStats.dups (Duplicates item) s).
  assert (H1 : wrap32 (s1 c)
               = wrap32 (s c + (if decide (c = DbStats.dups)
                                then Duplicates item else 0))).
  { apply add_wrap. }
  set (s2 := match DbStats.mime_counter (MimeType item) with
             | Some c0 => DbStats.add c0 1 s1
             | None => s1
             end).
  assert (H2 : wrap32 (s2 c)
               = wrap32 (s1 c + (if decide (DbStats.mime_counter (MimeType item)
                                            = Some c) then 1 else 0))).
  { subst s2. destruct (DbStats.mime_counter (MimeType item)) as [c0|].
    - rewrite add_wrap. destruct (decide (c = c0)) as [->|Hne].
      + rewrite decide_True by reflexivity. reflexivity.
      + rewrite decide_False by congruence. reflexivity.
    - rewrite decide_False by discriminate. rewrite Z.add_0_r. reflexivity. }
  assert (H3 : wrap32 ((if HasExif item then DbStats.add DbStats.exif 1 s2
                        else s2) c)
               = wrap32 (s2 c + (if decide (c = DbStats.exif)
                                 then (if HasExif item then 1 else 0)
                                 else 0))).
  { destruct (HasExif item).
    - apply add_wrap.
    - destruct (decide (c = DbStats.exif)); rewrite Z.add_0_r; reflexivity. }
  rewrite H3.
  rewrite (wrap32_eq_add _ _ _ H2), (wrap32_eq_add _ _ _
            (wrap32_eq_add _ _ _ H1)).
  f_equal. lia.
Qed.

Definition in_int32 (s : DbStats.Counters) : Prop :=
  forall c, wrap32 (s c) = s c.

Lemma add_in_int32 c n s : in_int32 s -> in_int32 (DbStats.add c n s).
Proof.
  intros Hs c'. unfold DbStats.add. destruct (decide (c' = c));
    [apply wrap32_idem | apply Hs].
Qed.

Lemma tally_in_int32 s item : in_int32 s -> in_int32 (DbStats.tally s item).
Proof.
  intros Hs. unfold DbStats.tally.
  assert (H2 : in_int32 match DbStats.mime_counter (MimeType item) with
                        | Some c0 => DbStats.add c0 1
                                       (DbStats.add DbStats.dups
                                          (Duplicates item) s)
                        | None => DbStats.add DbStats.dups (Duplicates item) s
                        end).
  { destruct (DbStats.mime_counter _); repeat apply add_in_int32; exact Hs. }
  destruct (HasExif item); [apply add_in_int32|]; exact H2.
Qed.

(** The loop leaves in each counter the int32 of what the items add to
    it. *)
Lemma fold_tally l : forall s,
  in_int32 s ->
  in_int32 (fold_left DbStats.tally l s)
  /\ forall c, fold_left DbStats.tally l s c
               = wrap32 (s c + total (contribution c) l).
Proof.
  induction l as [|item l IH]; intros s Hs.
  - split; [exact Hs|]. intros c. cbn. rewrite Z.add_0_r. symmetry. apply Hs.
  - cbn [fold_left].
    destruct (IH _ (tally_in_int32 s item Hs)) as [Hin Hc].
    split; [exact Hin|]. intros c. rewrite Hc, total_cons.
    rewrite <- wrap32_add_l, tally_wrap, wrap32_add_l. f_equal. lia.
Qed.

Lemma count_items_counter l c :
  c <> DbStats.totalImages ->
  DbStats.count_items l c = wrap32 (total (contribution c) l).
Proof.
  intros Hc. unfold DbStats.count_items, DbStats.set.
  rewrite decide_False by exact Hc.
  destruct (fold_tally l DbStats.zero) as [_ Hf];
    [intros c'; reflexivity|].
  rewrite Hf. reflexivity.
Qed.

Lemma count_items_perm l l' :
  Permutation l l' ->
  forall c, DbStats.count_items l c = DbStats.count_items l' c.
Proof.
  intros Hp c. destruct (decide (c = DbStats.totalImages)) as [->|Hc].
  - unfold DbStats.count_items, DbStats.set.
    rewrite !decide_True by reflexivity.
    rewrite (Permutation_length Hp). reflexivity.
  - rewrite !count_items_counter by exact Hc.
    rewrite (total_perm _ _ _ Hp). reflexivity.
Qed.

Lemma report_ext s s' basePath outPath fileCount :
  (forall c, s c = s' c) ->
  DbStats.report s basePath outPath fileCount
  = DbStats.report s' basePath outPath fileCount.
Proof.
  intros E. unfold DbStats.report, DbStats.total_mismatch,
    DbStats.exif_mismatch, DbStats.by_type.
  rewrite !E. reflexivity.
Qed.

(** What [dbStats] prints does not depend on the order in which the
    store is listed, although its counters are int32 values that may
    wrap on the way. *)
Theorem dbStats_any_order `{JSON} (undecoded : string -> ImageFileInfo)
  (x : FastCache) (now : Z)
  (order1 order2 : Range (map_to_list (cache_Items (cache x) now)))
  (basePath outPath : string) (fileCount : Z) :
  DbStats.dbStats undecoded x now order1 basePath outPath fileCount
  = DbStats.dbStats undecoded x now order2 basePath outPath fileCount.
Proof.
  unfold DbStats.dbStats, DbStats.List. apply report_ext.
  apply count_items_perm. do 2 apply Permutation_map.
  rewrite <- (entries_perm order1). apply entries_perm.
Qed.

(** ** The statistics of a run *)

(** The ten counters that stand for a MIME type. *)
Definition by_type_counters : list DbStats.Counter :=
  [DbStats.jpeg; DbStats.nef; DbStats.heic; DbStats.gif; DbStats.tif;
   DbStats.bmp; DbStats.png; DbStats.rtf; DbStats.avi; DbStats.mjpeg].

(** The MIME types of the signature table that have no counter. *)
Definition uncounted_mimes : list string :=
  ["video/mp4"; "image/webp"; "audio/mpeg"].

(** The sum of [f] over these ten. *)
Definition over_types (f : DbStats.Counter -> Z) : Z :=
  (f DbStats.jpeg + f DbStats.nef + f DbStats.heic + f DbStats.gif
   + f DbStats.tif + f DbStats.bmp + f DbStats.png + f DbStats.rtf
   + f DbStats.avi + f DbStats.mjpeg)%Z.

Definition known (item : ImageFileInfo) : Z :=
  match DbStats.mime_counter (MimeType item) with
  | Some _ => 1%Z
  | None => 0%Z
  end.

Lemma mime_counter_cases mimeType :
  DbStats.mime_counter mimeType = None
  \/ exists c, DbStats.mime_counter mimeType = Some c /\ In c by_type_counters.
Proof.
  unfold DbStats.mime_counter.
  repeat (destruct (String.eqb mimeType _);
          [right; eexists; split; [reflexivity | cbn; tauto]|]).
  left. reflexivity.
Qed.

Ltac decide_all :=
  repeat match goal with
         | |- context [decide ?P] =>
             destruct (decide P); try congruence; try discriminate
         end.

Lemma contribution_dups item :
  contribution DbStats.dups item = Duplicates item.
Proof.
  unfold contribution.
  destruct (mime_counter_cases (MimeType item)) as [->|(c & -> & Hc)].
  - decide_all. lia.
  - cbn in Hc. decompose [or] Hc; subst; try contradiction;
      decide_all; lia.
Qed.

Lemma contribution_known item :
  over_types (fun c => contribution c item) = known item.
Proof.
  unfold over_types, known, contribution.
  destruct (mime_counter_cases (MimeType item)) as [->|(c & -> & Hc)].
  - decide_all. reflexivity.
  - cbn in Hc. decompose [or] Hc; subst; try contradiction;
      decide_all; reflexivity.
Qed.

Lemma contribution_nonneg c item :
  c <> DbStats.dups -> (0 <= contribution c item)%Z.
Proof.
  intros Hc. unfold contribution. rewrite decide_False by exact Hc.
  destruct (decide (DbStats.mime_counter (MimeType item) = Some c));
    destruct (decide (c = DbStats.exif)); destruct (HasExif item); lia.
Qed.

Lemma total_ext f g l :
  Forall (fun x => f x = g x) l -> total f l = total g l.
Proof.
  induction 1 as [|x l Hx _ IH]; [reflexivity|].
  rewrite !total_cons, Hx, IH. reflexivity.
Qed.

Lemma total_known l :
  (0 <= total known l <= Z.of_nat (length l))%Z
  /\ (total known l = Z.of_nat (length l)
      <-> Forall (fun item => DbStats.mime_counter (MimeType item) <> None) l).
Proof.
  induction l as [|item l [IHb IHe]].
  - split; [cbn; lia|]. split; [constructor | reflexivity].
  - rewrite total_cons. cbn [length]. rewrite Nat2Z.inj_succ.
    destruct (DbStats.mime_counter (MimeType item)) as [c|] eqn:Hc.
    + assert (Hk : known item = 1%Z) by (unfold known; rewrite Hc; reflexivity).
      rewrite Hk. split; [lia|]. split.
      * intros E. constructor; [rewrite Hc; discriminate|]. apply IHe. lia.
      * intros Hall. inversion Hall as [|? ? _ Hl]; subst.
        apply IHe in Hl. lia.
    + assert (Hk : known item = 0%Z) by (unfold known; rewrite Hc; reflexivity).
      rewrite Hk. split; [lia|]. split; [lia|].
      intros Hall. inversion Hall; subst. congruence.
Qed.

Lemma total_by_type l :
  over_types (fun c => total (contribution c) l) = total known l.
Proof.
  induction l as [|item l IH]; [reflexivity|].
  rewrite total_cons, <- IH, <- contribution_known.
  unfold over_types. rewrite !total_cons. lia.
Qed.

(** With fewer than 2^31 items nothing wraps: the ten counters add up to
    the number of items whose MIME type has a counter. *)
Lemma by_type_known l :
  (Z.of_nat (length l) <= MaxInt32)%Z ->
  DbStats.by_type (DbStats.count_items l) = total known l.
Proof.
  intros Hb. rewrite <- total_by_type.
  pose proof (total_known l) as [Hk _]. rewrite <- total_by_type in Hk.
  unfold DbStats.by_type, DbStats.add32. cbn [fold_left].
  rewrite !count_items_counter by discriminate.
  unfold over_types in *.
  assert (Hn : forall c, c <> DbStats.dups ->
                 (0 <= total (contribution c) l)%Z).
  { intros c Hc. apply total_nonneg, List.Forall_forall.
    intros item _. apply contribution_nonneg, Hc. }
  pose proof (Hn DbStats.jpeg ltac:(discriminate)).
  pose proof (Hn DbStats.nef ltac:(discriminate)).
  pose proof (Hn DbStats.heic ltac:(discriminate)).
  pose proof (Hn DbStats.gif ltac:(discriminate)).
  pose proof (Hn DbStats.tif ltac:(discriminate)).
  pose proof (Hn DbStats.bmp ltac:(discriminate)).
  pose proof (Hn DbStats.png ltac:(discriminate)).
  pose proof (Hn DbStats.rtf ltac:(discriminate)).
  pose proof (Hn DbStats.avi ltac:(discriminate)).
  pose proof (Hn DbStats.mjpeg ltac:(discriminate)).
  unfold MaxInt32 in Hb.
  repeat match goal with
         | |- context [wrap32 ?z] =>
             lazymatch z with
             | context [wrap32 _] => fail
             | _ => rewrite (wrap32_small z)
                      by (unfold MinInt32, MaxInt32; lia)
             end
         end.
  lia.
Qed.

Section RunStatistics.
Context `{Hash} `{Exif} `{JSON}.
Variable undecoded : string -> ImageFileInfo.

Lemma cache_Items_represents x m now :
  represents x m -> cache_Items (cache x) now = encode <$> m.
Proof.
  unfold represents, cache_Items. intros ->. apply map_filter_id.
  intros k item Hk. apply lookup_fmap_Some in Hk as (fi & <- & _).
  reflexivity.
Qed.

(** Listing and decoding a store gives back the records it holds. *)
Lemma decoded_records x m now
  (order : Range (map_to_list (cache_Items (cache x) now))) :
  represents x m ->
  Permutation (DbStats.decode undecoded <$> DbStats.List x now order)
    (records m).
Proof.
  intros Hm. unfold DbStats.List.
  rewrite <- (entries_perm order), (cache_Items_represents x m now Hm).
  rewrite map_to_list_fmap. unfold records.
  rewrite <- !list_fmap_compose.
  erewrite list_fmap_ext; [reflexivity|].
  intros i [k fi] _. cbn. unfold DbStats.decode.
  rewrite json_Unmarshal_Marshal. reflexivity.
Qed.

Lemma stored_mime_counted mimeType :
  In mimeType stored_mimes ->
  DbStats.mime_counter mimeType <> Some DbStats.mjpeg
  /\ (DbStats.mime_counter mimeType = None <-> In mimeType uncounted_mimes).
Proof.
  unfold stored_mimes, imageSignatures. cbn [fmap list_fmap snd In].
  intros Hin. decompose [or] Hin; subst; try contradiction;
    (split; [discriminate|]); cbn; split; intros; try discriminate;
    try tauto; intuition discriminate.
Qed.

End RunStatistics.

Lemma total_known_lt l :
  (total known l < Z.of_nat (length l))%Z
  <-> Exists (fun item => DbStats.mime_counter (MimeType item) = None) l.
Proof.
  pose proof (total_known l) as [Hb He]. split.
  - intros Hlt. induction l as [|item l IH]; [cbn in Hlt; lia|].
    destruct (DbStats.mime_counter (MimeType item)) as [c|] eqn:Hc;
      [|left; exact Hc].
    right. pose proof (total_known l) as [Hb' He']. apply IH; try assumption.
    rewrite total_cons in Hlt. cbn [length] in Hlt.
    rewrite Nat2Z.inj_succ in Hlt.
    assert (Hk : known item = 1%Z) by (unfold known; rewrite Hc; reflexivity).
    lia.
  - intros Hex. destruct (Z.eq_dec (total known l) (Z.of_nat (length l)))
      as [E|Hne]; [|lia].
    apply He in E. apply List.Exists_exists in Hex as (item & Hin & Hn).
    rewrite List.Forall_forall in E. destruct (E item Hin Hn).
Qed.

Lemma total_zero f l : Forall (fun x => f x = 0%Z) l -> total f l = 0%Z.
Proof.
  induction 1 as [|x l Hx _ IH]; [reflexivity|].
  rewrite total_cons, Hx, IH. reflexivity.
Qed.

Lemma records_length m : length (records m) = size m.
Proof. unfold records. rewrite length_fmap. apply length_map_to_list. Qed.

Lemma records_In m fi :
  In fi (records m) -> exists key, m !! key = Some fi.
Proof.
  intros Hin.
  apply list_elem_of_In, list_elem_of_fmap in Hin as ([k fi'] & -> & Hin).
  apply elem_of_map_to_list in Hin. eauto.
Qed.

(** The statistics of a run agree with the run. After a run that starts
    without a database and comes to its end, with fewer than 2^31 files
    reaching the store, [dbStats] on the store it leaves prints: as IMAGES
    the number of copies made; as DUPLICATES a number that, added to
    IMAGES, gives the files that reached the store; as MJPEG zero; and the
    warning about the total exactly when some record has one of the MIME
    types of the signature table that no counter stands for. *)
Theorem dbStats_after_Walk `{Hash} `{Exif} `{JSON}
  (undecoded : string -> ImageFileInfo)
  (entry : EntryPoint) (rev : Revision) (fs : FS)
  (outPath persistFile basePath : string) (vs : list Visit) (st' : State)
  (now' : Z)
  (order : Range (map_to_list (cache_Items (cache (db st')) now'))) :
  (Z.of_nat (stored_files fs vs) <= MaxInt32)%Z ->
  Walk entry rev fs outPath vs (initial (empty_store persistFile)) = Ret st' ->
  let itemList :=
    DbStats.decode undecoded <$> DbStats.List (db st') now' order in
  let s := DbStats.count_items itemList in
  DbStats.dbStats undecoded (db st') now' order basePath outPath
    (fileCount st')
  = DbStats.report s basePath outPath (fileCount st')
  /\ s DbStats.totalImages = Z.of_nat (length (copies st'))
  /\ (s DbStats.dups + s DbStats.totalImages)%Z
     = Z.of_nat (stored_files fs vs)
  /\ s DbStats.mjpeg = 0%Z
  /\ (DbStats.total_mismatch s = true
      <-> exists item, In item itemList
                       /\ In (MimeType item) uncounted_mimes).
Proof.
  intros Hb Hw itemList s.
  assert (Hb' : (0 + Z.of_nat (stored_files fs vs) <= 2 ^ 31)%Z)
    by (unfold MaxInt32 in Hb; lia).
  destruct (Walk_accounts entry rev fs outPath vs _ _ ∅ 0%Z
              (accounts_initial persistFile) Hb' Hw)
    as (m & Hm & Hpos & Hn).
  destruct (Walk_recorded entry rev fs outPath vs _ _ ∅
              (recorded_initial entry outPath persistFile) Hw)
    as (m' & Hm' & Hs & Hrec).
  rewrite (represents_inj _ _ _ Hm' Hm) in Hs, Hrec. clear m' Hm'.
  pose proof (decoded_records undecoded _ _ now' order Hm) as Hp.
  fold itemList in Hp.
  assert (Hlen : length itemList = size m).
  { rewrite (Permutation_length Hp). apply records_length. }
  assert (Hdup : (0 <= total Duplicates (records m))%Z).
  { apply total_nonneg, records_Forall. exact Hpos. }
  assert (Hstored : forall item, In item itemList ->
                      In (MimeType item) stored_mimes).
  { intros item Hin. apply (Permutation_in _ Hp) in Hin.
    apply records_In in Hin as (k & Hk).
    destruct (Hrec _ _ Hk) as (_ & _ & Hmt & _). exact Hmt. }
  assert (Htot : s DbStats.totalImages = Z.of_nat (size m)).
  { unfold s, DbStats.count_items, DbStats.set.
    rewrite decide_True by reflexivity. rewrite Hlen.
    apply wrap32_small. unfold MinInt32, MaxInt32 in *. lia. }
  split; [reflexivity|].
  split; [rewrite Htot, Hs; reflexivity|].
  split.
  { rewrite Htot. unfold s. rewrite count_items_counter by discriminate.
    rewrite (total_ext _ Duplicates)
      by (apply List.Forall_forall; intros; apply contribution_dups).
    rewrite (total_perm _ _ _ Hp).
    rewrite wrap32_small by (unfold MinInt32, MaxInt32 in *; lia). lia. }
  split.
  { unfold s. rewrite count_items_counter by discriminate.
    rewrite total_zero; [reflexivity|].
    apply List.Forall_forall. intros item Hin.
    destruct (stored_mime_counted _ (Hstored item Hin)) as [Hmj _].
    unfold contribution. decide_all. reflexivity. }
  unfold DbStats.total_mismatch. fold s. rewrite Htot.
  unfold s. rewrite by_type_known by (rewrite Hlen; lia).
  rewrite negb_true_iff, Z.eqb_neq, <- Hlen.
  pose proof (total_known itemList) as [Hk _].
  split.
  - intros Hne. assert (Hlt : (total known itemList
                               < Z.of_nat (length itemList))%Z) by lia.
    apply total_known_lt, List.Exists_exists in Hlt as (item & Hin & Hnone).
    exists item. split; [exact Hin|].
    apply (stored_mime_counted _ (Hstored item Hin)). exact Hnone.
  - intros (item & Hin & Hun).
    assert (Hlt : (total known itemList < Z.of_nat (length itemList))%Z).
    { apply total_known_lt, List.Exists_exists. exists item.
      split; [exact Hin|].
      apply (stored_mime_counted _ (Hstored item Hin)). exact Hun. }
    lia.
Qed.

Lemma dbStats_after_Walk_witness :
  let itemList :=
    DbStats.decode (fun _ => zero_ImageFileInfo)
      <$> DbStats.List (db (sample_end MainIn RevB)) 0 (listed _) in
  let s := DbStats.count_items itemList in
  s DbStats.totalImages = 4%Z
  /\ (s DbStats.dups + s DbStats.totalImages)%Z = 6%Z.
Proof.
  destruct (dbStats_after_Walk (fun _ => zero_ImageFileInfo) MainIn RevB
              Sample.disk "originals" "originals/photoz.db" "backups"
              sample_visits (sample_end MainIn RevB) 0 (listed _)
              ltac:(vm_compute; discriminate) sample_Walk_MainIn)
    as (_ & Ht & Hd & _).
  split; [exact Ht | exact Hd].
Defined.

(** ** How a walk can end early *)




Section Failures.
Context `{Hash} `{Exif} `{JSON}.
Variable entry : EntryPoint.
Variable rev : Revision.
Variable fs : FS.
Variable outPath : string.




End Failures.


(** ** A second run over the same files *)

Lemma IgnoreByExtension_flag (r : Range skipExtensions) filePath :
  (IgnoreByExtension r filePath).1
  = existsb (fun e => strings_EqualFold (filepath_Ext filePath) e.1)
      skipExtensions.
Proof.
  unfold IgnoreByExtension.
  rewrite (existsb_Permutation _ _ _ (entries_perm r)).
  induction (entries r) as [|[ext name] es IH]; [reflexivity|].
  cbn [IgnoreByExtension_loop existsb fst].
  destruct (strings_EqualFold (filepath_Ext filePath) ext); [reflexivity|].
  exact IH.
Qed.

(** Whether a file is recognised, and with which error, in any order of
    the table. *)
Lemma IsImage_flag (r : Range imageSignatures) fs filePath :
  ((IsImage r fs filePath).1.1, (IsImage r fs filePath).2)
  = ((IsImage (listed _) fs filePath).1.1, (IsImage (listed _) fs filePath).2).
Proof.
  unfold IsImage. destruct (open_err (fs filePath)); [reflexivity|].
  destruct (io_ReadFull (fs filePath) 32) as [buffer e].
  match goal with |- context [if ?c then _ else _] => destruct c end;
    [reflexivity|].
  rewrite !IsImage_loop_error, !IsImage_loop_range_recognized. reflexivity.
Qed.

Lemma IsImage_same_file r (fs fs' : FS) filePath :
  fs' filePath = fs filePath -> IsImage r fs' filePath = IsImage r fs filePath.
Proof. intros E. unfold IsImage. rewrite E. reflexivity. Qed.

Lemma CalculateMD5_same_file `{Hash} (fs fs' : FS) filePath :
  fs' filePath = fs filePath -> CalculateMD5 fs' filePath = CalculateMD5 fs filePath.
Proof. intros E. unfold CalculateMD5. rewrite E. reflexivity. Qed.

(** The key under which a file reaches the store depends on the path and
    the file only, not on the orders of the two tables. *)
Lemma reaches_store_key `{Hash} (fs fs' : FS) (v v' : Visit) :
  filePath v' = filePath v ->
  fs' (filePath v) = fs (filePath v) ->
  snd <$> reaches_store fs' v' = snd <$> reaches_store fs v.
Proof.
  intros Hp Hf. unfold reaches_store. rewrite Hp.
  destruct (IgnoreByName (filePath v)).1; [reflexivity|].
  rewrite (IgnoreByExtension_flag (extRange v')),
    (IgnoreByExtension_flag (extRange v)).
  destruct (existsb _ skipExtensions); [reflexivity|].
  rewrite (IsImage_same_file _ fs fs' _ Hf),
    (CalculateMD5_same_file fs fs' _ Hf).
  pose proof (IsImage_flag (sigRange v') fs (filePath v)) as H1.
  pose proof (IsImage_flag (sigRange v) fs (filePath v)) as H2.
  rewrite <- H2 in H1. clear H2.
  destruct (IsImage (sigRange v') fs (filePath v)) as [[b1 m1] e1],
    (IsImage (sigRange v) fs (filePath v)) as [[b2 m2] e2].
  cbn [fst snd] in H1. injection H1 as -> ->.
  destruct b2, e2; try reflexivity.
  destruct (CalculateMD5 fs (filePath v)) as [md5 [e|]]; reflexivity.
Qed.

Section SecondRun.
Context `{Hash} `{Exif} `{JSON}.
Variable entry : EntryPoint.
Variable rev : Revision.
Variable outPath : string.

(** Every file that reached the store has its key there at the end. *)
Lemma Walk_keys fs vs : forall st st',
  Walk entry rev fs outPath vs st = Ret st' ->
  persistFile (db st') = persistFile (db st)
  /\ dom (items (cache (db st))) ⊆ dom (items (cache (db st')))
  /\ Forall (fun v => forall mimeType md5,
               reaches_store fs v = Some (mimeType, md5) ->
               md5 ∈ dom (items (cache (db st')))) vs.
Proof.
  induction vs as [|v vs IH]; intros st st'.
  - intros [= <-]. split; [reflexivity|]. split; [reflexivity | constructor].
  - cbn [Walk].
    destruct (walkFn entry rev fs outPath st v) as [st1| |] eqn:Hv;
      cbn [mbind Result_bind]; try discriminate.
    intros Hw. destruct (IH _ _ Hw) as (Hp' & Hd' & Hall).
    pose proof (walkFn_Ret entry rev fs outPath st st1 v Hv)
      as (_ & Hp & Hd & _).
    split; [congruence|]. split; [etransitivity; eassumption|].
    constructor; [|exact Hall].
    intros mime md5 Hr. apply Hd'.
    rewrite walkFn_reaches, Hr in Hv.
    destruct (FastCache_Get (db st) (now v) md5 zero_ImageFileInfo)
      as [[fi|] [|]]; try discriminate.
    + injection Hv as <-. unfold duplicate. rewrite FastCache_Set_items. cbn.
      apply elem_of_dom. rewrite lookup_insert_eq. eauto.
    + apply original_Ret in Hv as (fi' & o & -> & _).
      rewrite FastCache_Set_items. cbn.
      apply elem_of_dom. rewrite lookup_insert_eq. eauto.
    + apply original_Ret in Hv as (fi' & o & -> & _).
      rewrite FastCache_Set_items. cbn.
      apply elem_of_dom. rewrite lookup_insert_eq. eauto.
Qed.

(** A walk over files whose keys are all in the store only counts. *)
Lemma Walk_all_known fs vs : forall st m,
  represents (db st) m ->
  Forall (fun v => forall mimeType md5,
            reaches_store fs v = Some (mimeType, md5) -> md5 ∈ dom m) vs ->
  exists st' m',
    Walk entry rev fs outPath vs st = Ret st'
    /\ represents (db st') m'
    /\ dom m' = dom m
    /\ copies st' = copies st
    /\ fileCount st' = (fileCount st + Z.of_nat (length vs))%Z.
Proof.
  induction vs as [|v vs IH]; intros st m Hm Hall.
  - exists st, m. cbn. repeat split; try assumption. lia.
  - inversion Hall as [|? ? Hv Hvs]; subst. cbn [Walk].
    rewrite walkFn_reaches.
    destruct (reaches_store fs v) as [[mime md5]|] eqn:Hr.
    + rewrite (represents_Get _ _ _ _ _ Hm).
      specialize (Hv _ _ eq_refl). apply elem_of_dom in Hv as [fi Hfi].
      rewrite Hfi. cbn [mbind Result_bind].
      set (fi' := set_Duplicates fi (wrap32 (Duplicates fi + 1))).
      destruct (IH (duplicate (count_file st) v md5 fi) (<[md5 := fi']> m))
        as (st' & m' & Hw & Hm' & Hd & Hc & Hn).
      * apply represents_Set, Hm.
      * eapply List.Forall_impl; [|exact Hvs]. intros v' Hv' mime' k Hk.
        rewrite dom_insert_L. apply elem_of_union_r. exact (Hv' _ _ Hk).
      * exists st', m'. split; [exact Hw|]. split; [exact Hm'|].
        split; [rewrite Hd, dom_insert_L; apply subseteq_union_1_L,
                  singleton_subseteq_l, elem_of_dom; eauto|].
        split; [exact Hc|]. rewrite Hn. cbn [length fileCount duplicate
          set_db count_file]. lia.
    + cbn [mbind Result_bind].
      destruct (IH (count_file st) m Hm Hvs)
        as (st' & m' & Hw & Hm' & Hd & Hc & Hn).
      exists st', m'. split; [exact Hw|]. split; [exact Hm'|].
      split; [exact Hd|]. split; [exact Hc|].
      rewrite Hn. cbn [length fileCount count_file]. lia.
Qed.

End SecondRun.

(** Persisting a store and opening the file at the start of a run. *)
Lemma Persist_then_initialize_db `{Gob} (x : FastCache) (fs : FS) (now : Z) :
  create_err (fs (persistFile x)) = None ->
  (FastCache_Persist x fs).2 = None
  /\ (forall path, path <> persistFile x ->
        (FastCache_Persist x fs).1 path = fs path)
  /\ initialize_db (FastCache_Persist x fs).1 now (persistFile x)
     = Ret (mkFastCache (persistFile x) (mkCache (24 * Hour) (items (cache x)))).
Proof.
  intros Hc. unfold FastCache_Persist, cache_SaveFile. rewrite Hc.
  cbn [fst snd]. split; [reflexivity|]. split.
  - intros path Hne. apply String.eqb_neq in Hne. rewrite Hne. reflexivity.
  - unfold initialize_db, NewPersistentCache, cache_LoadFile. cbn [cache].
    rewrite String.eqb_refl. cbn [open_err fault data regular read_fault].
    rewrite gob_Decode_Encode. cbn [set_cache persistFile cache_New items
      defaultExpiration].
    do 3 f_equal. apply map_eq. intros k.
    rewrite lookup_merge, lookup_empty.
    destruct (items (cache x) !! k); reflexivity.
Qed.

(** Running again copies nothing. After a run that starts without a
    database, comes to its end and persists its store, a second run
    opens that database and walks the same files, in whatever orders its
    tables are ranged over and at whatever time: it comes to its end,
    makes no copy, keeps the keys of the store and counts every file. The
    database file is not among the files walked. *)
Theorem second_run_copies_nothing `{Hash} `{Exif} `{JSON} `{Gob}
  (entry : EntryPoint) (rev : Revision) (fs : FS)
  (outPath dbPath : string) (vs vs' : list Visit) (st1 : State)
  (now2 : Z) :
  Walk entry rev fs outPath vs (initial (empty_store dbPath)) = Ret st1 ->
  create_err (fs dbPath) = None ->
  Forall (fun v => filePath v <> dbPath) vs ->
  filePath <$> vs' = filePath <$> vs ->
  let fs' := (FastCache_Persist (db st1) fs).1 in
  exists db2 st2,
    initialize_db fs' now2 dbPath = Ret db2
    /\ Walk entry rev fs' outPath vs' (initial db2) = Ret st2
    /\ copies st2 = []
    /\ dom (items (cache (db st2))) = dom (items (cache (db st1)))
    /\ fileCount st2 = Z.of_nat (length vs).
Proof.
  intros Hw Hc Hne Hpaths fs'.
  destruct (Walk_keys entry rev outPath fs vs _ _ Hw) as (Hpf & _ & Hkeys).
  cbn [db initial persistFile empty_store] in Hpf.
  destruct (Walk_recorded entry rev fs outPath vs _ _ ∅
              (recorded_initial entry outPath dbPath) Hw)
    as (m & Hm & _).
  rewrite <- Hpf in Hc.
  destruct (Persist_then_initialize_db (db st1) fs now2 Hc)
    as (_ & Hsame & Hinit).
  fold fs' in Hsame, Hinit. rewrite Hpf in Hsame, Hinit.
  set (db2 := mkFastCache dbPath
                (mkCache (24 * Hour) (items (cache (db st1))))) in *.
  assert (Hm2 : represents (db (initial db2)) m) by exact Hm.
  assert (Hdom : dom (items (cache (db st1))) = dom m).
  { rewrite Hm. apply dom_fmap_L. }
  assert (Hall : Forall (fun v' => forall mimeType md5,
                   reaches_store fs' v' = Some (mimeType, md5) ->
                   md5 ∈ dom m) vs').
  { clear Hw Hm2. revert vs' Hpaths.
    induction vs as [|v vs IH]; intros [|v' vs'] Hpaths;
      try discriminate; constructor.
    - inversion Hne as [|? ? Hv Hvs]; inversion Hkeys as [|? ? Hk Hks]; subst.
      injection Hpaths as Hp _.
      intros mime md5 Hr.
      pose proof (reaches_store_key fs fs' v v' Hp (Hsame _ Hv)) as Hkey.
      rewrite Hr in Hkey. cbn in Hkey.
      destruct (reaches_store fs v) as [[mime0 md50]|] eqn:Hr0;
        [|discriminate].
      injection Hkey as ->. rewrite <- Hdom. exact (Hk _ _ eq_refl).
    - inversion Hne; inversion Hkeys; subst. injection Hpaths as _ Hps.
      apply IH; assumption. }
  destruct (Walk_all_known entry rev outPath fs' vs' (initial db2) m Hm2 Hall)
    as (st2 & m2 & Hw2 & Hm2' & Hd2 & Hc2 & Hn2).
  exists db2, st2. split; [exact Hinit|]. split; [exact Hw2|].
  split; [exact Hc2|]. split.
  - rewrite Hdom, <- Hd2, Hm2'. apply dom_fmap_L.
  - rewrite Hn2. cbn [fileCount initial].
    rewrite <- (length_fmap filePath vs'), Hpaths, length_fmap. lia.
Qed.

Lemma second_run_copies_nothing_witness :
  let fs' := (FastCache_Persist (db (sample_end MainIn RevB)) Sample.disk).1 in
  exists db2 st2,
    initialize_db fs' 1800000000000000000 "originals/photoz.db" = Ret db2
    /\ Walk MainIn RevB fs' "originals" sample_visits (initial db2) = Ret st2
    /\ copies st2 = [].
Proof.
  destruct (second_run_copies_nothing MainIn RevB Sample.disk "originals"
              "originals/photoz.db" sample_visits sample_visits
              (sample_end MainIn RevB) 1800000000000000000
              sample_Walk_MainIn eq_refl
              ltac:(apply (bool_decide_unpack _); vm_compute; exact I)
              eq_refl)
    as (db2 & st2 & Hi & Hw & Hc & _).
  exists db2, st2. split; [exact Hi|]. split; [exact Hw | exact Hc].
Defined.

(** ** The rest of the store: expiry, [Clear] and [Delete] *)

(** [strings.Contains(s, substr)]. *)
Fixpoint strings_Contains (s substr : string) : bool :=
  strings_HasPrefix s substr
  || match s with
     | EmptyString => false
     | String _ s' => strings_Contains s' substr
     end.

(** [c.Delete(k)] of the cache. *)
Definition cache_Delete (c : Cache) (k : string) : Cache :=
  mkCache (defaultExpiration c) (delete k (items c)).

(** [x.Clear()]: the keys of [x.cache.Items()], taken at [now], are
    deleted one by one in the order the map is ranged over. *)
Definition FastCache_Clear (x : FastCache) (now : Z)
  (order : Range (map_to_list (cache_Items (cache x) now))) : FastCache :=
  fold_left (fun x kv => set_cache x (cache_Delete (cache x) kv.1))
    (entries order) x.

(** [x.Delete(pattern)]. *)
Definition FastCache_Delete (x : FastCache) (now : Z)
  (order : Range (map_to_list (cache_Items (cache x) now)))
  (pattern : string) : FastCache :=
  fold_left
    (fun x kv =>
       if strings_Contains kv.1 pattern
       then set_cache x (cache_Delete (cache x) kv.1)
       else x)
    (entries order) x.

Lemma strings_Contains_empty s : strings_Contains s "" = true.
Proof. destruct s; reflexivity. Qed.

(** The loop of [Delete] over any list of keys. *)
Lemma Delete_loop_lookup pattern (l : list (string * Item)) : forall x key,
  items (cache (fold_left
                  (fun x kv =>
                     if strings_Contains kv.1 pattern
                     then set_cache x (cache_Delete (cache x) kv.1)
                     else x) l x)) !! key
  = if strings_Contains key pattern && bool_decide (key ∈ l.*1)
    then None else items (cache x) !! key.
Proof.
  induction l as [|[k item] l IH]; intros x key.
  - cbn. rewrite andb_false_r. reflexivity.
  - cbn [fold_left fst]. rewrite IH. rewrite fmap_cons. cbn [fst].
    destruct (strings_Contains key pattern) eqn:Hc; cbn [andb].
    + destruct (decide (key = k)) as [->|Hne].
      * rewrite Hc. cbn [set_cache cache cache_Delete items].
        rewrite lookup_delete_eq.
        rewrite (bool_decide_eq_true_2 (k ∈ k :: l.*1)) by left.
        destruct (bool_decide (k ∈ l.*1)); reflexivity.
      * assert (Hin : bool_decide (key ∈ k :: l.*1)
                      = bool_decide (key ∈ l.*1)).
        { apply bool_decide_ext. rewrite elem_of_cons. tauto. }
        rewrite Hin. destruct (bool_decide (key ∈ l.*1)); [reflexivity|].
        destruct (strings_Contains k pattern); [|reflexivity].
        cbn [set_cache cache cache_Delete items].
        rewrite lookup_delete_ne by congruence. reflexivity.
    + destruct (strings_Contains k pattern) eqn:Hk; [|reflexivity].
      cbn [set_cache cache cache_Delete items].
      destruct (decide (key = k)) as [->|Hne]; [congruence|].
      rewrite lookup_delete_ne by congruence. reflexivity.
Qed.

Lemma Delete_loop_persistFile pattern (l : list (string * Item)) : forall x,
  persistFile (fold_left
                 (fun x kv =>
                    if strings_Contains kv.1 pattern
                    then set_cache x (cache_Delete (cache x) kv.1)
                    else x) l x)
  = persistFile x.
Proof.
  induction l as [|[k item] l IH]; intros x; [reflexivity|].
  cbn [fold_left]. rewrite IH.
  destruct (strings_Contains _ pattern); reflexivity.
Qed.

Lemma live_keys (c : Cache) (now : Z)
  (order : Range (map_to_list (cache_Items c now))) key :
  key ∈ (entries order).*1
  <-> exists item, items c !! key = Some item /\ Expired now item = false.
Proof.
  rewrite <- (entries_perm order). unfold cache_Items.
  rewrite list_elem_of_fmap. split.
  - intros ([k item] & -> & Hin). apply elem_of_map_to_list in Hin.
    apply map_lookup_filter_Some in Hin as [Hk He]. eauto.
  - intros (item & Hk & He). exists (key, item). split; [reflexivity|].
    apply elem_of_map_to_list, map_lookup_filter_Some. auto.
Qed.

Lemma Expired_later now now' item :
  (now <= now')%Z -> Expired now item = true -> Expired now' item = true.
Proof.
  unfold Expired. intros Hle H. apply andb_true_iff in H as [H1 H2].
  apply andb_true_iff. split; [exact H1|].
  apply Z.ltb_lt in H2. apply Z.ltb_lt. lia.
Qed.

(** [Delete] removes what it is asked to. Afterwards, and at any later
    time, a key that contains the pattern is not found, and every other
    key is found as before; the order in which the map was ranged over
    makes no difference to this. Items that were already expired are
    not deleted, but a read does not see them either. *)
Theorem FastCache_Delete_Get `{JSON} (x : FastCache) (now now' : Z)
  (order : Range (map_to_list (cache_Items (cache x) now)))
  (pattern key : string) (obj : ImageFileInfo) :
  (now <= now')%Z ->
  FastCache_Get (FastCache_Delete x now order pattern) now' key obj
  = if strings_Contains key pattern then (None, false)
    else FastCache_Get x now' key obj.
Proof.
  intros Hle. unfold FastCache_Get, cache_Get, FastCache_Delete.
  rewrite Delete_loop_lookup.
  destruct (strings_Contains key pattern); cbn [andb]; [|reflexivity].
  destruct (bool_decide (key ∈ (entries order).*1)) eqn:Hin; [reflexivity|].
  apply bool_decide_eq_false in Hin.
  destruct (items (cache x) !! key) as [item|] eqn:Hk; [|reflexivity].
  destruct (Expired now item) eqn:He.
  - rewrite (Expired_later now now' item Hle He). reflexivity.
  - exfalso. apply Hin, live_keys. eauto.
Qed.

Definition two_records : FastCache :=
  FastCache_Set (FastCache_Set NewFastCache 5 "651d" (shot_record 0) (-1))
    5 "8810" (shot_record 2) (-1).

Lemma FastCache_Delete_Get_witness :
  FastCache_Get (FastCache_Delete two_records 7 (listed _) "51") 9 "651d"
    zero_ImageFileInfo = (None, false)
  /\ FastCache_Get (FastCache_Delete two_records 7 (listed _) "51") 9 "8810"
       zero_ImageFileInfo = (Some (shot_record 2), true).
Proof.
  split.
  - exact (FastCache_Delete_Get two_records 7 9 (listed _) "51" "651d"
             zero_ImageFileInfo ltac:(discriminate)).
  - rewrite (FastCache_Delete_Get two_records 7 9 (listed _) "51" "8810"
               zero_ImageFileInfo ltac:(discriminate)).
    vm_compute. reflexivity.
Defined.

Lemma Clear_loop_Delete (l : list (string * Item)) : forall x,
  fold_left (fun x kv => set_cache x (cache_Delete (cache x) kv.1)) l x
  = fold_left
      (fun x kv =>
         if strings_Contains kv.1 ""
         then set_cache x (cache_Delete (cache x) kv.1)
         else x) l x.
Proof.
  induction l as [|[k item] l IH]; intros x; [reflexivity|].
  cbn [fold_left fst]. rewrite strings_Contains_empty. apply IH.
Qed.

(** [Clear] is [Delete] with the empty pattern, and leaves a store that
    lists nothing and in which no key is found, at any later time. *)
Theorem FastCache_Clear_empties `{JSON} (x : FastCache) (now now' : Z)
  (order : Range (map_to_list (cache_Items (cache x) now))) :
  (now <= now')%Z ->
  FastCache_Clear x now order = FastCache_Delete x now order ""
  /\ FastCache_List (FastCache_Clear x now order) now' = []
  /\ (forall key obj,
        FastCache_Get (FastCache_Clear x now order) now' key obj
        = (None, false))
  /\ persistFile (FastCache_Clear x now order) = persistFile x.
Proof.
  intros Hle.
  assert (Hcd : FastCache_Clear x now order = FastCache_Delete x now order "").
  { apply Clear_loop_Delete. }
  split; [exact Hcd|]. rewrite Hcd.
  assert (Hnone : forall key item,
            items (cache (FastCache_Delete x now order "")) !! key = Some item ->
            Expired now' item = true).
  { intros key item. unfold FastCache_Delete. rewrite Delete_loop_lookup.
    rewrite strings_Contains_empty. cbn [andb].
    destruct (bool_decide (key ∈ (entries order).*1)) eqn:Hin;
      [discriminate|].
    apply bool_decide_eq_false in Hin. intros Hk.
    destruct (Expired now item) eqn:He;
      [exact (Expired_later now now' item Hle He)|].
    exfalso. apply Hin, live_keys. eauto. }
  split; [|split].
  - unfold FastCache_List, cache_Items.
    rewrite (proj2 (map_empty_filter _ _)); [rewrite map_to_list_empty;
                                              reflexivity|].
    intros key item Hk. cbn. rewrite (Hnone key item Hk). discriminate.
  - intros key obj. unfold FastCache_Get, cache_Get.
    destruct (items _ !! key) as [item|] eqn:Hk; [|reflexivity].
    rewrite (Hnone key item Hk). reflexivity.
  - apply Delete_loop_persistFile.
Qed.

Lemma FastCache_Clear_empties_witness :
  FastCache_List (FastCache_Clear two_records 7 (listed _)) 9 = [].
Proof.
  exact (proj1 (proj2 (FastCache_Clear_empties two_records 7 9 (listed _)
                         ltac:(discriminate)))).
Defined.



(** ** Fingerprints *)

(** The value of a hexadecimal digit as [hex_digit] writes it. *)
Definition unhex (c : ascii) : N :=
  let n := N_of_ascii c in if (n <? 58)%N then (n - 48)%N else (n - 87)%N.

Definition is_lower_hex (c : ascii) : bool :=
  let n := N_of_ascii c in
  ((48 <=? n) && (n <=? 57) || (97 <=? n) && (n <=? 102))%N.

Fixpoint all_chars (P : ascii -> bool) (s : string) : bool :=
  match s with
  | EmptyString => true
  | String c s' => P c && all_chars P s'
  end.

Lemma hex_digit_spec n :
  (n < 16)%N -> unhex (hex_digit n) = n /\ is_lower_hex (hex_digit n) = true.
Proof.
  intros Hn. unfold unhex, is_lower_hex, hex_digit.
  destruct (N.ltb_spec n 10).
  - rewrite N_ascii_embedding by lia.
    rewrite (proj2 (N.ltb_lt (48 + n) 58)) by lia. split; [lia|].
    rewrite (proj2 (N.leb_le 48 (48 + n))), (proj2 (N.leb_le (48 + n) 57))
      by lia. reflexivity.
  - rewrite N_ascii_embedding by lia.
    rewrite (proj2 (N.ltb_ge (87 + n) 58)) by lia. split; [lia|].
    rewrite (proj2 (N.leb_le 97 (87 + n))), (proj2 (N.leb_le (87 + n) 102))
      by lia. apply orb_true_r.
Qed.

Lemma byte_bounded (b : byte) : (Byte.to_N b < 256)%N.
Proof. pose proof (Byte.to_N_bounded b). lia. Qed.

Lemma byte_hex_inj (a b : byte) :
  hex_digit (Byte.to_N a / 16) = hex_digit (Byte.to_N b / 16) ->
  hex_digit (Byte.to_N a mod 16) = hex_digit (Byte.to_N b mod 16) ->
  a = b.
Proof.
  intros Hhi Hlo.
  pose proof (byte_bounded a) as Ha. pose proof (byte_bounded b) as Hb.
  assert (Hq : forall n, (n < 256)%N -> (n / 16 < 16)%N).
  { intros n Hn. apply N.Div0.div_lt_upper_bound. lia. }
  assert (Hr : forall n, (n mod 16 < 16)%N).
  { intros n. apply N.mod_lt. discriminate. }
  apply (f_equal unhex) in Hhi, Hlo.
  rewrite !(proj1 (hex_digit_spec _ (Hq _ Ha))),
    !(proj1 (hex_digit_spec _ (Hq _ Hb))) in Hhi.
  rewrite !(proj1 (hex_digit_spec _ (Hr _))) in Hlo.
  assert (E : Byte.to_N a = Byte.to_N b).
  { rewrite (N.div_mod (Byte.to_N a) 16), (N.div_mod (Byte.to_N b) 16)
      by discriminate. rewrite Hhi, Hlo. reflexivity. }
  pose proof (Byte.of_to_N a) as Ea. pose proof (Byte.of_to_N b) as Eb.
  rewrite E in Ea. congruence.
Qed.

Lemma hex_EncodeToString_inj (a : list byte) : forall b,
  hex_EncodeToString a = hex_EncodeToString b -> a = b.
Proof.
  induction a as [|x a IH]; intros [|y b]; try discriminate; [reflexivity|].
  cbn [hex_EncodeToString]. intros [= Hhi Hlo Hrest].
  f_equal; [apply byte_hex_inj; assumption | apply IH; assumption].
Qed.

Lemma hex_EncodeToString_shape (a : list byte) :
  String.length (hex_EncodeToString a) = (2 * length a)%nat
  /\ all_chars is_lower_hex (hex_EncodeToString a) = true.
Proof.
  induction a as [|x a [IHl IHc]]; [split; reflexivity|].
  cbn [hex_EncodeToString String.length length all_chars].
  pose proof (byte_bounded x) as Hx.
  rewrite IHl, IHc.
  rewrite (proj2 (hex_digit_spec (Byte.to_N x / 16)
                    ltac:(apply N.Div0.div_lt_upper_bound; lia))).
  rewrite (proj2 (hex_digit_spec (Byte.to_N x mod 16)
                    ltac:(apply N.mod_lt; discriminate))).
  split; [lia | reflexivity].
Qed.

(** The key of a file in the store. When [CalculateMD5] returns no
    error, the key is twice as long as the digest and written in the
    digits 0-9 and a-f; and two files have the same key exactly when
    they have the same digest, so that records are merged by content and
    by nothing else. With an error the key is empty. *)
Theorem CalculateMD5_keys `{Hash} (fs : FS) (p q : string) :
  let '(k, err) := CalculateMD5 fs p in
  let '(k', err') := CalculateMD5 fs q in
  (err <> None -> k = "")
  /\ (err = None ->
      String.length k = (2 * length (md5_Sum (data (fs p))))%nat
      /\ all_chars is_lower_hex k = true
      /\ (err' = None ->
          (k = k' <-> md5_Sum (data (fs p)) = md5_Sum (data (fs q))))).
Proof.
  unfold CalculateMD5.
  destruct (open_err (fs p)) as [e|];
    [destruct (match open_err (fs q) with Some _ => _ | None => _ end);
     split; [reflexivity | discriminate]|].
  destruct (read_fault (fs p)) as [e|];
    [destruct (match open_err (fs q) with Some _ => _ | None => _ end);
     split; [reflexivity | discriminate]|].
  destruct (hex_EncodeToString_shape (md5_Sum (data (fs p)))) as [Hl Hc].
  destruct (open_err (fs q)) as [e|];
    [split; [congruence|]; intros _; split; [exact Hl|]; split;
     [exact Hc | discriminate]|].
  destruct (read_fault (fs q)) as [e|];
    [split; [congruence|]; intros _; split; [exact Hl|]; split;
     [exact Hc | discriminate]|].
  split; [congruence|]. intros _. split; [exact Hl|]. split; [exact Hc|].
  intros _. split; [apply hex_EncodeToString_inj | congruence].
Qed.

(** ** The two revisions of [GetJpegCreatedAt] *)

Fixpoint has_NUL (s : string) : bool :=
  match s with
  | EmptyString => false
  | String c s' => Ascii.eqb c zero || has_NUL s'
  end.

Lemma remove_first_NUL_id s : has_NUL s = false -> remove_first_NUL s = s.
Proof.
  induction s as [|c s IH]; [reflexivity|]. cbn [has_NUL remove_first_NUL].
  destruct (Ascii.eqb c zero); [discriminate|]. cbn [orb].
  intros Hs. rewrite (IH Hs). reflexivity.
Qed.

(** A capture-time tag as cameras write it: a string without a NUL byte
    that is not the zero time. *)
Definition plain_capture (tag : ExifTag) : Prop :=
  is_capture_tag tag = true ->
  exists s, Value tag = StringValue s /\ has_NUL s = false
            /\ String.eqb s zero_time_tag = false.

Lemma scan_tags_agree tags : forall originalTime,
  Forall plain_capture tags ->
  ImageFileInfoB.scan_tags tags originalTime
  = Ret (inr (ImageFileInfoA.scan_tags tags originalTime)).
Proof.
  induction tags as [|tag tags IH]; intros acc Hall; [reflexivity|].
  inversion Hall as [|? ? Ht Hts]; subst.
  cbn [ImageFileInfoA.scan_tags ImageFileInfoB.scan_tags].
  destruct (is_capture_tag tag) eqn:Hc; [|exact (IH _ Hts)].
  destruct (Ht Hc) as (s & -> & Hn & Hz). cbn [Sprintf_v].
  rewrite (remove_first_NUL_id s Hn). unfold zero_time_tag in Hz.
  rewrite Hz. exact (IH _ Hts).
Qed.

(** On the tags cameras write, the two revisions date the same files
    with the same instant: one writes it as RFC 3339 text, the other as
    seconds since 1970; and where one returns an error, so does the
    other. *)
Theorem revisions_agree_on_plain_tags `{Exif} (fs : FS) (x : ImageFileInfo)
  (raw : list byte) (tags : list ExifTag) :
  exif_SearchFileAndExtractExif (fs (FilePath x)) = inr raw ->
  exif_GetFlatExifData raw = inr tags ->
  Forall plain_capture tags ->
  match time_Parse (ImageFileInfoA.scan_tags tags "") with
  | inr date =>
      GetJpegCreatedAt RevA fs x
      = Ret (set_OriginalDateTime x (Format_RFC3339 date), None)
      /\ GetJpegCreatedAt RevB fs x
         = Ret (set_OriginalDateTime x (Sprintf_d (Unix date)), None)
  | inl _ =>
      (exists e, GetJpegCreatedAt RevA fs x = Ret (x, Some e))
      /\ (exists e, GetJpegCreatedAt RevB fs x = Ret (x, Some e))
  end.
Proof.
  intros Hs Hd Hall. cbn [GetJpegCreatedAt].
  unfold ImageFileInfoA.GetJpegCreatedAt, ImageFileInfoB.GetJpegCreatedAt.
  rewrite Hs, Hd, (scan_tags_agree tags "" Hall). cbn [mbind Result_bind].
  destruct (String.eqb (ImageFileInfoA.scan_tags tags "") "") eqn:He.
  - apply String.eqb_eq in He. rewrite He. cbn. split; eauto.
  - destruct (time_Parse (ImageFileInfoA.scan_tags tags "")) as [e|date];
      split; eauto.
Qed.

Lemma sample_2021_raw :
  exif_SearchFileAndExtractExif
    (Sample.disk (FilePath (NewImageFileInfo "backups/2021/a.jpg"
                              "image/jpeg" "651d")))
  = inr (bytes "2021:03:04 05:06:07").
Proof. vm_compute. reflexivity. Qed.

Lemma sample_2021_flat :
  exif_GetFlatExifData (bytes "2021:03:04 05:06:07")
  = inr [mkTag "Make" (StringValue "NIKON");
         mkTag "DateTimeOriginal" (StringValue "2021:03:04 05:06:07")].
Proof. vm_compute. reflexivity. Qed.

Lemma sample_2021_plain :
  Forall plain_capture
    [mkTag "Make" (StringValue "NIKON");
     mkTag "DateTimeOriginal" (StringValue "2021:03:04 05:06:07")].
Proof.
  constructor; [discriminate|]. constructor; [|constructor].
  intros _. eexists. split; [reflexivity|]. split; reflexivity.
Qed.

Lemma revisions_agree_on_plain_tags_witness :
  GetJpegCreatedAt RevA Sample.disk
    (NewImageFileInfo "backups/2021/a.jpg" "image/jpeg" "651d")
  = Ret (set_OriginalDateTime
           (NewImageFileInfo "backups/2021/a.jpg" "image/jpeg" "651d")
           "2021-03-04T05:06:07Z", None)
  /\ GetJpegCreatedAt RevB Sample.disk
       (NewImageFileInfo "backups/2021/a.jpg" "image/jpeg" "651d")
     = Ret (set_OriginalDateTime
              (NewImageFileInfo "backups/2021/a.jpg" "image/jpeg" "651d")
              "1614834367", None).
Proof.
  exact (revisions_agree_on_plain_tags Sample.disk
           (NewImageFileInfo "backups/2021/a.jpg" "image/jpeg" "651d")
           _ _ sample_2021_raw sample_2021_flat sample_2021_plain).
Defined.

Definition string_capture (tag : ExifTag) : Prop :=
  is_capture_tag tag = true -> exists s, Value tag = StringValue s.

Definition zero_capture (tag : ExifTag) : Prop :=
  is_capture_tag tag = true
  /\ exists s, Value tag = StringValue s
               /\ remove_first_NUL s = zero_time_tag.

Lemma B_scan_tags_stops tags : forall originalTime,
  Forall string_capture tags ->
  Exists zero_capture tags ->
  ImageFileInfoB.scan_tags tags originalTime
  = Ret (inl (Err "exif tag empty")).
Proof.
  induction tags as [|tag tags IH]; intros acc Hall Hex; [inversion Hex|].
  inversion Hall as [|? ? Ht Hts]; subst.
  cbn [ImageFileInfoB.scan_tags].
  destruct (is_capture_tag tag) eqn:Hc.
  - destruct (Ht Hc) as (s & Hs). rewrite Hs.
    destruct (String.eqb_spec (remove_first_NUL s) "0000:00:00 00:00:00")
      as [Hz|Hz]; [reflexivity|].
    apply IH; [exact Hts|].
    inversion Hex as [? ? (_ & s' & Hs' & Hz')|]; subst; [|assumption].
    rewrite Hs in Hs'. injection Hs' as <-. destruct (Hz Hz').
  - apply IH; [exact Hts|].
    inversion Hex as [? ? (Hc' & _)|]; subst; [congruence | assumption].
Qed.

(** Where the two revisions part. When one capture-time tag holds the
    zero time and the last one a real time, the earlier revision dates
    the file by the last tag, and the later revision returns at the zero
    time with the error "exif tag empty". *)
Theorem revisions_part_at_zero_time `{Exif} (fs : FS) (x : ImageFileInfo)
  (raw : list byte) (tags : list ExifTag) (date : Time) :
  exif_SearchFileAndExtractExif (fs (FilePath x)) = inr raw ->
  exif_GetFlatExifData raw = inr tags ->
  Forall string_capture tags ->
  Exists zero_capture tags ->
  time_Parse (ImageFileInfoA.scan_tags tags "") = inr date ->
  GetJpegCreatedAt RevA fs x
  = Ret (set_OriginalDateTime x (Format_RFC3339 date), None)
  /\ GetJpegCreatedAt RevB fs x = Ret (x, Some (Err "exif tag empty")).
Proof.
  intros Hs Hd Hall Hex Hp. cbn [GetJpegCreatedAt].
  unfold ImageFileInfoA.GetJpegCreatedAt, ImageFileInfoB.GetJpegCreatedAt.
  rewrite Hs, Hd, Hp, (B_scan_tags_stops tags "" Hall Hex).
  split; reflexivity.
Qed.

(** A decoder that finds a zero time followed by a real one. *)
Definition zero_then_real : Exif :=
  {| exif_SearchFileAndExtractExif := fun _ => inr [];
     exif_GetFlatExifData := fun _ =>
       inr [mkTag "Create Date" (StringValue "0000:00:00 00:00:00");
            mkTag "DateTimeOriginal" (StringValue "2021:03:04 05:06:07")] |}.

Lemma revisions_part_at_zero_time_witness :
  @GetJpegCreatedAt zero_then_real RevA Sample.disk
    (NewImageFileInfo "backups/2021/a.jpg" "image/jpeg" "651d")
  = Ret (set_OriginalDateTime
           (NewImageFileInfo "backups/2021/a.jpg" "image/jpeg" "651d")
           "2021-03-04T05:06:07Z", None)
  /\ @GetJpegCreatedAt zero_then_real RevB Sample.disk
       (NewImageFileInfo "backups/2021/a.jpg" "image/jpeg" "651d")
     = Ret (NewImageFileInfo "backups/2021/a.jpg" "image/jpeg" "651d",
            Some (Err "exif tag empty")).
Proof.
  apply (@revisions_part_at_zero_time zero_then_real Sample.disk
           (NewImageFileInfo "backups/2021/a.jpg" "image/jpeg" "651d")
           [] _ (mkTime 2021 3 4 5 6 7) eq_refl eq_refl).
  - constructor; [intros _; eexists; reflexivity|].
    constructor; [intros _; eexists; reflexivity | constructor].
  - left. split; [reflexivity|]. eexists. split; reflexivity.
  - reflexivity.
Defined.

(** ** The capture time that names a copy *)

(** A date and time of day of the calendar. *)
Definition valid_date (t : Time) : Prop :=
  (0 <= t_year t <= 9999 /\ 1 <= t_month t <= 12
   /\ 1 <= t_day t <= daysIn (t_month t) (t_year t)
   /\ 0 <= t_hour t <= 23 /\ 0 <= t_min t <= 59 /\ 0 <= t_sec t <= 59)%Z.

Lemma digit_range s i : isDigit s i = true -> (0 <= digit s i <= 9)%Z.
Proof.
  unfold isDigit, digit. destruct (String.get i s) as [c|]; [|discriminate].
  intros Hd. apply andb_true_iff in Hd as [H1 H2].
  apply N.leb_le in H1, H2. lia.
Qed.

Lemma getnum_range s fixed n rest :
  getnum s fixed = Some (n, rest) -> (0 <= n <= 99)%Z.
Proof.
  unfold getnum.
  destruct (isDigit s 0) eqn:H0; cbn [negb]; [|discriminate].
  pose proof (digit_range s 0 H0).
  destruct (isDigit s 1) eqn:H1; cbn [negb].
  - pose proof (digit_range s 1 H1). intros [= <- _]. lia.
  - destruct fixed; [discriminate|]. intros [= <- _]. lia.
Qed.

Lemma time_Parse_valid value date :
  time_Parse value = inr date -> valid_date date.
Proof.
  unfold time_Parse. cbv zeta.
  destruct (isDigit value 0 && isDigit value 1 && isDigit value 2
            && isDigit value 3) eqn:Hy; cbn [negb]; [|discriminate].
  apply andb_true_iff in Hy as [Hy H3].
  apply andb_true_iff in Hy as [Hy H2].
  apply andb_true_iff in Hy as [H0 H1].
  apply digit_range in H0, H1, H2, H3.
  destruct (skip_colon _) as [v1|]; [|discriminate].
  destruct (getnum v1 true) as [[month v2]|] eqn:Hm; [|discriminate].
  destruct ((month <=? 0) || (12 <? month))%Z eqn:Hmr; [discriminate|].
  destruct (skip_colon v2) as [v3|]; [|discriminate].
  destruct (getnum v3 true) as [[day v4]|] eqn:Hd; [|discriminate].
  destruct (skip_space v4) as [v5|]; [|discriminate].
  destruct (getnum v5 false) as [[hour v6]|] eqn:Hh; [|discriminate].
  destruct ((hour <? 0) || (24 <=? hour))%Z eqn:Hhr; [discriminate|].
  destruct (skip_colon v6) as [v7|]; [|discriminate].
  destruct (getnum v7 true) as [[minute v8]|] eqn:Hmi; [|discriminate].
  destruct ((minute <? 0) || (60 <=? minute))%Z eqn:Hmir; [discriminate|].
  destruct (skip_colon v8) as [v9|]; [|discriminate].
  destruct (getnum v9 true) as [[sec v10]|] eqn:Hs; [|discriminate].
  destruct ((sec <? 0) || (60 <=? sec))%Z eqn:Hsr; [discriminate|].
  destruct (negb (String.eqb _ "")); [discriminate|].
  destruct ((day <? 1) || (daysIn month _ <? day))%Z eqn:Hdr; [discriminate|].
  intros [= <-]. unfold valid_date. cbn [t_year t_month t_day t_hour t_min t_sec].
  apply orb_false_iff in Hmr as [Hm1 Hm2], Hhr as [Hh1 Hh2],
    Hmir as [Hmi1 Hmi2], Hsr as [Hs1 Hs2], Hdr as [Hd1 Hd2].
  apply Z.leb_gt in Hm1. apply Z.ltb_ge in Hm2, Hh1, Hmi1, Hs1, Hd1, Hd2.
  apply Z.leb_gt in Hh2, Hmi2, Hs2.
  lia.
Qed.

Lemma appendInt_4 :
  forallb (fun k => Nat.eqb (String.length (appendInt (Z.of_nat k) 4)) 4)
    (seq 0 (Z.to_nat 10000)) = true.
Proof. vm_compute. reflexivity. Qed.

Lemma appendInt_2 :
  forallb (fun k => Nat.eqb (String.length (appendInt (Z.of_nat k) 2)) 2)
    (seq 0 100) = true.
Proof. vm_compute. reflexivity. Qed.

Lemma appendInt_length (width bound : nat) (n : Z) :
  forallb (fun k => Nat.eqb (String.length (appendInt (Z.of_nat k) width))
                      width) (seq 0 bound) = true ->
  (0 <= n < Z.of_nat bound)%Z ->
  String.length (appendInt n width) = width.
Proof.
  intros Hall Hn. rewrite List.forallb_forall in Hall.
  specialize (Hall (Z.to_nat n)). rewrite Z2Nat.id in Hall by lia.
  apply Nat.eqb_eq, Hall, in_seq. lia.
Qed.

Lemma length_append (a b : string) :
  String.length (a ++ b) = (String.length a + String.length b)%nat.
Proof.
  induction a as [|c a IH]; [reflexivity|].
  change (S (String.length (a ++ b))
          = S (String.length a + String.length b)).
  rewrite IH. reflexivity.
Qed.

Lemma Format_RFC3339_length t :
  valid_date t -> String.length (Format_RFC3339 t) = 20%nat.
Proof.
  intros (Hy & Hm & Hd & Hh & Hmi & Hs).
  assert (Hday : (daysIn (t_month t) (t_year t) <= 31)%Z).
  { unfold daysIn. repeat destruct (_ =? _)%Z; cbn [orb];
      try destruct (isLeap _); lia. }
  unfold Format_RFC3339. rewrite !length_append.
  rewrite (appendInt_length 4 (Z.to_nat 10000) _ appendInt_4) by lia.
  rewrite !(appendInt_length 2 100 _ appendInt_2) by lia.
  reflexivity.
Qed.

(** The capture time a record gets. When [GetJpegCreatedAt] returns no
    error, the time it has parsed is a date and time of day of the
    calendar, with a year of four digits; the earlier revision stores it
    as RFC 3339 text of exactly twenty characters, the later one as its
    seconds since 1970 in decimal. *)
Theorem GetJpegCreatedAt_timestamp `{Exif} (rev : Revision) (fs : FS)
  (x y : ImageFileInfo) :
  GetJpegCreatedAt rev fs x = Ret (y, None) ->
  exists date,
    valid_date date
    /\ y = set_OriginalDateTime x
             match rev with
             | RevA => Format_RFC3339 date
             | RevB => Sprintf_d (Unix date)
             end
    /\ (rev = RevA -> String.length (OriginalDateTime y) = 20%nat).
Proof.
  destruct rev; cbn [GetJpegCreatedAt];
    unfold ImageFileInfoA.GetJpegCreatedAt, ImageFileInfoB.GetJpegCreatedAt;
    destruct (exif_SearchFileAndExtractExif _) as [e|raw]; try discriminate;
    destruct (exif_GetFlatExifData raw) as [e|tags]; try discriminate.
  - destruct (time_Parse _) as [e|date] eqn:Hp; [discriminate|].
    intros [= <-]. exists date.
    pose proof (time_Parse_valid _ _ Hp) as Hv.
    split; [exact Hv|]. split; [reflexivity|]. intros _.
    apply Format_RFC3339_length, Hv.
  - destruct (ImageFileInfoB.scan_tags tags "") as [[e|t]| |];
      cbn [mbind Result_bind]; try discriminate.
    destruct (String.eqb t ""); [discriminate|].
    destruct (time_Parse t) as [e|date] eqn:Hp; [discriminate|].
    intros [= <-]. exists date.
    split; [exact (time_Parse_valid _ _ Hp)|]. split; [reflexivity|].
    discriminate.
Qed.

Lemma sample_dated :
  GetJpegCreatedAt RevA Sample.disk
    (NewImageFileInfo "backups/2021/a.jpg" "image/jpeg" "651d")
  = Ret (set_OriginalDateTime
           (NewImageFileInfo "backups/2021/a.jpg" "image/jpeg" "651d")
           "2021-03-04T05:06:07Z", None).
Proof. vm_compute. reflexivity. Qed.

Lemma GetJpegCreatedAt_timestamp_witness :
  exists date,
    valid_date date
    /\ set_OriginalDateTime
         (NewImageFileInfo "backups/2021/a.jpg" "image/jpeg" "651d")
         "2021-03-04T05:06:07Z"
       = set_OriginalDateTime
           (NewImageFileInfo "backups/2021/a.jpg" "image/jpeg" "651d")
           (Format_RFC3339 date).
Proof.
  destruct (GetJpegCreatedAt_timestamp RevA Sample.disk _ _ sample_dated)
    as (date & Hv & Hy & _).
  exists date. split; [exact Hv | exact Hy].
Defined.

(** ** Copying a file

    [CopyFile], [Chmod] and the system calls under them. Two things the
    [File] of a path does not say are given from outside: whether
    writing to a path fails, after how many bytes and with which error,
    and whether [os.Chmod] on a path fails. *)
Section Copying.
Variable write_fault : string -> option (nat * error).
Variable chmod_err : string -> Z -> option error.

(** The file [os.Create] leaves at a path: it exists and is empty. *)
Definition truncated (f : File) : File :=
  {| open_err := None; data := []; fault := None;
     create_err := create_err f |}.

Definition os_Create (fs : FS) (name : string) : FS * option error :=
  match create_err (fs name) with
  | Some err => (fs, Some err)
  | None =>
      (fun p => if String.eqb p name then truncated (fs p) else fs p, None)
  end.

(** [io.Copy(dst, src)]: the bytes that reach [dst], and the first error
    of a write or a read; the end of the file is no error. *)
Definition io_Copy (dst : string) (src : File) : list byte * option error :=
  match write_fault dst with
  | Some (n, err) =>
      if (n <? length (data src))%nat then (firstn n (data src), Some err)
      else (data src, read_fault src)
  | None => (data src, read_fault src)
  end.

(** [x.Chmod(inFile, mode)]: the mode asked for is not the mode set. *)
Definition FileSystem_Chmod (inFile : string) (mode : Z) : option error :=
  chmod_err inFile 420.

Definition FileSystem_CopyFile (fs : FS) (inFile outFile : string)
  : FS * option error :=
  match open_err (fs inFile) with
  | Some err => (fs, Some err)
  | None =>
      let '(fs, err) := os_Create fs outFile in
      match err with
      | Some err => (fs, Some err)
      | None =>
          let '(out, err) := io_Copy outFile (fs inFile) in
          let written := length out in
          let fs : FS := fun p =>
            if String.eqb p outFile
            then {| open_err := None; data := out; fault := None;
                    create_err := create_err (fs p) |}
            else fs p in
          if negb (bool_decide (err = None)) || (written =? 0)%nat then
            let err :=
              match err with
              | Some err => err
              | None => Err "no bytes copied"
              end in
            (fs, Some err)
          else (fs, FileSystem_Chmod outFile 420)
      end
  end.

End Copying.

(** When [CopyFile] returns no error, the destination holds the bytes of
    the source, which is not empty and is another path than the
    destination, and no other path has changed. *)
Theorem CopyFile_success (write_fault : string -> option (nat * error))
  (chmod_err : string -> Z -> option error) (fs : FS)
  (inFile outFile : string) :
  (FileSystem_CopyFile write_fault chmod_err fs inFile outFile).2 = None ->
  let fs' := (FileSystem_CopyFile write_fault chmod_err fs inFile outFile).1 in
  inFile <> outFile
  /\ data (fs inFile) <> []
  /\ open_err (fs' outFile) = None
  /\ data (fs' outFile) = data (fs inFile)
  /\ (forall p, p <> outFile -> fs' p = fs p).
Proof.
  unfold FileSystem_CopyFile, os_Create.
  destruct (open_err (fs inFile)); [discriminate|].
  destruct (create_err (fs outFile)); [discriminate|].
  destruct (String.eqb_spec inFile outFile) as [->|Hne].
  - unfold io_Copy, truncated. cbn [data read_fault fault length].
    destruct (write_fault outFile) as [[n e]|]; cbn; discriminate.
  - assert (Hio : io_Copy write_fault outFile (fs inFile)
                  = (data (fs inFile), read_fault (fs inFile))
                  \/ exists out e,
                       io_Copy write_fault outFile (fs inFile) = (out, Some e)).
    { unfold io_Copy. destruct (write_fault outFile) as [[n e]|];
        [destruct (n <? _)%nat|]; eauto. }
    destruct (io_Copy write_fault outFile (fs inFile)) as [out err].
    destruct Hio as [[= -> ->]|(out' & e & [= -> ->])];
      [|cbn; discriminate].
    destruct (read_fault (fs inFile)) as [e|]; [cbn; discriminate|].
    rewrite bool_decide_eq_true_2 by reflexivity. cbn [negb orb].
    destruct (Nat.eqb_spec (length (data (fs inFile))) 0) as [Hz|Hz];
      [cbn; discriminate|].
    cbn [fst snd]. intros _. split; [exact Hne|].
    split; [intros E; rewrite E in Hz; apply Hz; reflexivity|].
    rewrite String.eqb_refl. cbn [open_err data].
    split; [reflexivity|]. split; [reflexivity|].
    intros p Hp. apply String.eqb_neq in Hp. rewrite Hp. reflexivity.
Qed.

Lemma CopyFile_success_witness :
  let fs' :=
    (FileSystem_CopyFile (fun _ => None) (fun _ _ => None) Sample.disk
       "backups/shot.png" "originals/8810_shot.png").1 in
  data (fs' "originals/8810_shot.png") = data Sample.png
  /\ fs' "backups/shot.png" = Sample.png.
Proof.
  destruct (CopyFile_success (fun _ => None) (fun _ _ => None) Sample.disk
              "backups/shot.png" "originals/8810_shot.png" eq_refl)
    as (_ & _ & _ & Hd & Hrest).
  split; [exact Hd|].
  exact (Hrest "backups/shot.png" ltac:(discriminate)).
Defined.

(** Copying a file onto itself destroys it: [os.Create] empties the file
    before anything is read from it, nothing is copied, and the error is
    "no bytes copied". *)
Theorem CopyFile_onto_itself (write_fault : string -> option (nat * error))
  (chmod_err : string -> Z -> option error) (fs : FS) (file : string) :
  open_err (fs file) = None ->
  create_err (fs file) = None ->
  let '(fs', err) :=
    FileSystem_CopyFile write_fault chmod_err fs file file in
  data (fs' file) = []
  /\ err = Some (Err "no bytes copied")
  /\ (forall p, p <> file -> fs' p = fs p).
Proof.
  intros Ho Hc. unfold FileSystem_CopyFile, os_Create. rewrite Ho, Hc.
  rewrite String.eqb_refl. unfold io_Copy, truncated.
  cbn [data read_fault fault length].
  assert (Hn : forall n, (n <? 0)%nat = false) by (intros n; apply Nat.ltb_ge; lia).
  destruct (write_fault file) as [[n e]|]; rewrite ?Hn;
    cbn [read_fault fault];
    rewrite bool_decide_eq_true_2 by reflexivity; cbn [negb orb length Nat.eqb];
    (split; [rewrite String.eqb_refl; reflexivity|]);
    (split; [reflexivity|]);
    intros p Hp; apply String.eqb_neq in Hp; rewrite Hp; reflexivity.
Qed.

Lemma CopyFile_onto_itself_witness :
  let '(fs', err) :=
    FileSystem_CopyFile (fun _ => None) (fun _ _ => None) Sample.disk
      "backups/shot.png" "backups/shot.png" in
  data (fs' "backups/shot.png") = []
  /\ err = Some (Err "no bytes copied").
Proof.
  pose proof (CopyFile_onto_itself (fun _ => None) (fun _ _ => None)
                Sample.disk "backups/shot.png" eq_refl eq_refl) as Hw.
  destruct (FileSystem_CopyFile (fun _ => None) (fun _ _ => None) Sample.disk
              "backups/shot.png" "backups/shot.png") as [fs' err].
  destruct Hw as (Hd & He & _). split; [exact Hd | exact He].
Defined.

(** ** Files that are only counted *)

(** A file whose base name begins with [._], or whose extension equals
    a key of [skipExtensions] up to case, is counted and nothing else:
    it is not opened, so what the file system holds under its path makes
    no difference, and neither does the order of the table. *)
Theorem skipped_files_are_only_counted `{Hash} `{Exif} `{JSON}
  (entry : EntryPoint) (rev : Revision) (fs : FS) (outPath : string)
  (st : State) (v : Visit) :
  strings_HasPrefix (filepath_Base (filePath v)) "._" = true
  \/ Exists (fun e : string * string =>
               strings_EqualFold (filepath_Ext (filePath v)) e.1 = true)
       skipExtensions ->
  walkFn entry rev fs outPath st v = Ret (count_file st).
Proof.
  intros Hskip. rewrite walkFn_reaches. unfold reaches_store.
  destruct Hskip as [Hn|He].
  - unfold IgnoreByName. rewrite Hn. reflexivity.
  - destruct (IgnoreByName (filePath v)).1; [reflexivity|].
    rewrite IgnoreByExtension_flag.
    apply List.Exists_exists in He as (e & Hin & He).
    rewrite (proj2 (List.existsb_exists _ _)) by eauto. reflexivity.
Qed.

Lemma skipped_files_are_only_counted_witness :
  walkFn MainIn RevB (fun _ => Sample.jpeg_2021) "originals" start
    (Sample.visit "backups/._a.jpg") = Ret (count_file start)
  /\ walkFn MainPath RevA (fun _ => Sample.jpeg_2021) "originals" start
       (Sample.visit "backups/Notes.TXT") = Ret (count_file start).
Proof.
  split.
  - apply skipped_files_are_only_counted. left. reflexivity.
  - apply skipped_files_are_only_counted. right.
    do 6 apply Exists_cons_tl. apply Exists_cons_hd. reflexivity.
Defined.

Lemma IsImage_order_independent_witness :
  IsImage (listed _) Sample.disk "backups/plain.jpg"
  = IsImage (reversed _) Sample.disk "backups/plain.jpg".
Proof.
  exact (IsImage_order_independent (listed _) (reversed _) Sample.disk
           "backups/plain.jpg" eq_refl).
Defined.

Definition failing_file : File :=
  {| open_err := None; data := bytes "GIF"; fault := Some (Err "input/output error");
     create_err := None |}.

Lemma IsImage_read_fault_witness :
  IsImage (listed _) (fun _ => failing_file) "backups/a.gif"
  = (false, "", Some (Err "input/output error")).
Proof.
  apply IsImage_read_fault.
  - reflexivity.
  - cbn. lia.
  - reflexivity.
  - discriminate.
  - discriminate.
Defined.



(** ** Loading into a store that is in use *)

(** [item.Expired()] of the cache library, which [Load] asks of the item
    it would replace: unlike a read, it takes a negative expiration for
    a time that has passed. *)
Definition Item_Expired (now : Z) (item : Item) : bool :=
  negb (Expiration item =? 0)%Z && (Expiration item <? now)%Z.

(** [c.Load]: a decoded item is put where the key is free or its item
    expired. *)
Definition Load_item (now : Z) (old new : option Item) : option Item :=
  match new with
  | None => old
  | Some v =>
      match old with
      | Some ov => if Item_Expired now ov then Some v else Some ov
      | None => Some v
      end
  end.

(** [x.LoadFile(fileName)]: the error of the load is dropped. *)
Definition FastCache_LoadFile `{Gob} (x : FastCache) (now : Z) (fs : FS)
  (fileName : string) : FastCache :=
  let file := fs fileName in
  match open_err file with
  | Some _ => x
  | None =>
      match read_fault file with
      | Some _ => x
      | None =>
          match gob_Decode (data file) with
          | inl _ => x
          | inr loaded =>
              set_cache x
                (mkCache (defaultExpiration (cache x))
                   (merge (Load_item now) (items (cache x)) loaded))
          end
      end
  end.

(** [x.Save(fileName)]. *)
Definition FastCache_Save `{Gob} (x : FastCache) (fs : FS)
  (fileName : string) : FS * option error :=
  cache_SaveFile (cache x) fs fileName.

(** On a cache that holds nothing, as at the start of a run, the two
    notions of an expired item make no difference to a load. *)
Lemma Load_item_fresh now (loaded : gmap string Item) :
  merge (Load_item now) ∅ loaded = merge (load_item now) ∅ loaded.
Proof.
  apply map_eq. intros k. rewrite !lookup_merge, lookup_empty.
  destruct (loaded !! k); reflexivity.
Qed.

(** Loading a file into a store never replaces what the store still
    finds, as long as no expiration in the store is negative: a key
    found before the load is found with the same record after it,
    whatever the file holds, and whether or not the file can be read. A
    key not found before is found after the load exactly as the file
    has it. *)
Theorem FastCache_LoadFile_keeps_found `{Gob} `{JSON} (x : FastCache)
  (now : Z) (fs : FS) (fileName key : string) (obj : ImageFileInfo) :
  (forall k item, items (cache x) !! k = Some item ->
                  (0 <= Expiration item)%Z) ->
  let x' := FastCache_LoadFile x now fs fileName in
  (forall fi, FastCache_Get x now key obj = (Some fi, true) ->
              FastCache_Get x' now key obj = (Some fi, true))
  /\ (forall loaded,
        open_err (fs fileName) = None ->
        read_fault (fs fileName) = None ->
        gob_Decode (data (fs fileName)) = inr loaded ->
        cache_Get (cache x) now key = None ->
        cache_Get (cache x') now key
        = cache_Get (mkCache (defaultExpiration (cache x)) loaded) now key)
  /\ persistFile x' = persistFile x.
Proof.
  intros Hpos x'. subst x'. unfold FastCache_LoadFile.
  assert (Hexp : forall ov, items (cache x) !! key = Some ov ->
                   Item_Expired now ov = Expired now ov).
  { intros ov Hk. specialize (Hpos _ _ Hk). unfold Item_Expired, Expired.
    destruct (Z.eqb_spec (Expiration ov) 0) as [E|E]; cbn [negb andb].
    - rewrite E. reflexivity.
    - rewrite (proj2 (Z.ltb_lt 0 (Expiration ov))) by lia. reflexivity. }
  split; [|split].
  - intros fi Hg.
    destruct (open_err (fs fileName)); [exact Hg|].
    destruct (read_fault (fs fileName)); [exact Hg|].
    destruct (gob_Decode (data (fs fileName))) as [e|loaded]; [exact Hg|].
    unfold FastCache_Get, cache_Get in *.
    cbn [set_cache cache items]. rewrite lookup_merge.
    destruct (items (cache x) !! key) as [ov|] eqn:Hk; [|discriminate].
    destruct (Expired now ov) eqn:He; [discriminate|].
    destruct (loaded !! key) as [nv|]; unfold diag_None, Load_item;
      rewrite ?(Hexp ov eq_refl); rewrite ?He; exact Hg.
  - intros loaded Ho Hf Hd Hg. rewrite Ho, Hf, Hd.
    unfold cache_Get in *. cbn [set_cache cache items].
    rewrite lookup_merge.
    destruct (items (cache x) !! key) as [ov|] eqn:Hk.
    + destruct (Expired now ov) eqn:He; [|discriminate].
      destruct (loaded !! key) as [nv|]; unfold diag_None, Load_item;
        rewrite ?(Hexp ov eq_refl); rewrite ?He; reflexivity.
    + destruct (loaded !! key) as [nv|]; reflexivity.
  - destruct (open_err (fs fileName)); [reflexivity|].
    destruct (read_fault (fs fileName)); [reflexivity|].
    destruct (gob_Decode (data (fs fileName))); reflexivity.
Qed.

Definition other_db : FS := fun path =>
  if String.eqb path "other.db"
  then regular (gob_Encode
                  ({[ "651d" := mkItem (json_Marshal (shot_record 7)) 0;
                      "320a" := mkItem (json_Marshal (shot_record 1)) 0 ]}))
  else missing.

Lemma FastCache_LoadFile_keeps_found_witness :
  FastCache_Get (FastCache_LoadFile two_records 9 other_db "other.db") 9
    "651d" zero_ImageFileInfo = (Some (shot_record 0), true).
Proof.
  assert (Hpos : forall k item,
            items (cache two_records) !! k = Some item ->
            (0 <= Expiration item)%Z).
  { intros k item. unfold two_records, NewFastCache, cache_New.
    rewrite !FastCache_Set_items. cbn [cache items].
    rewrite !lookup_insert_Some.
    intros [[_ <-]|[_ [[_ <-]|[_ Hk]]]]; [cbn; lia | cbn; lia|].
    rewrite lookup_empty in Hk. discriminate. }
  destruct (FastCache_LoadFile_keeps_found two_records 9 other_db "other.db"
              "651d" zero_ImageFileInfo Hpos) as (Hkeep & _).
  apply Hkeep. vm_compute. reflexivity.
Defined.
